(** * RAG workshop: chunking and retrieval pipeline

A shallow embedding of [src/rag/retriever.py], [src/rag/utils.py] and
[src/rag/tools.py] and the properties their specification states about
them.

Conventions of the embedding.
- A Python [int] is a [Z]; a parameter declared [int = None] is an
  [option Z] ([None] is Python's [None]).
- A Python [float] is a [pyfloat]: a number, idealised as an exact
  rational ([Q]), or [nan], which scipy's [cdist] returns for a vector
  without a direction; infinities and rounding errors of the arithmetic
  are not modelled.  The scores that the BM25 library, the remote index
  and the reranker hand over are numbers.  The numeric libraries (scipy's
  [cdist], numpy's [argsort], sklearn's vectorizer, bm25s, the Pinecone
  client) are collaborators taken as section variables.
- An [async def] is modelled by its awaited run.
- A raised exception is a value of [exn]; code that calls a provider or
  sleeps runs in the monad [M], which threads the chronological log of
  the external calls made so far.
- Text is ASCII: [lower], [upper], [strip] and [splitlines] treat the
  ASCII letters, white space and line boundaries.
- [print] calls are not modelled. *)

From Stdlib Require Import ZArith QArith List String Ascii Bool Lia.
From Stdlib Require Import Permutation Sorted Lqa DecimalString.
Import ListNotations.

Set Warnings "-register-all,-notation-for-abbreviation".
Local Open Scope Z_scope.

(* ------------------------------------------------------------------ *)
(** * Python values, truthiness and exceptions *)

Module Py.

Inductive exn_kind :=
| TypeError | AttributeError | AssertionError | ValueError
| IndexError | NotFittedError | ProviderError.

(** An exception object: its class and [str(e)]. *)
Record exn := Exn { kind : exn_kind; message : string }.

(** The outcome of a call: [inl e] when [e] was raised. *)
Definition result (A : Type) : Type := (exn + A)%type.

(** A parameter declared [int = None]. *)
Definition pyint := option Z.

(** [bool(v)]: [None] and [0] are falsy. *)
Definition truthy (v : pyint) : bool :=
  match v with
  | Some z => negb (z =? 0)
  | None => false
  end.

(** [a == b] on [int | None]. *)
Definition py_eq (a b : pyint) : bool :=
  match a, b with
  | Some x, Some y => x =? y
  | None, None => true
  | _, _ => false
  end.

(** [v * n] for an [int] literal [n]: [None * n] raises [TypeError]. *)
Definition py_mul (v : pyint) (n : Z) : result pyint :=
  match v with
  | Some z => inr (Some (z * n))
  | None =>
      inl (Exn TypeError
             "unsupported operand type(s) for *: 'NoneType' and 'int'")
  end.

(** [l[:k]] on a sequence. *)
Definition slice_to {A} (l : list A) (k : Z) : list A :=
  if 0 <=? k then firstn (Z.to_nat k) l
  else firstn (Z.to_nat (Z.of_nat (List.length l) + k)) l.

(** [l[i : j]] for [0 <= i <= j]. *)
Definition slice {A} (l : list A) (i j : Z) : list A :=
  firstn (Z.to_nat (j - i)) (skipn (Z.to_nat i) l).

(** [range(0, stop, step)]; [step = 0] raises [ValueError]. *)
Definition range0 (stop step : Z) : result (list Z) :=
  if step =? 0 then
    inl (Exn ValueError "range() arg 3 must not be zero")
  else if step <? 0 then inr []
  else
    inr (map (fun j => Z.of_nat j * step)
           (seq 0 (Z.to_nat ((stop + step - 1) / step)))).

(** [s.lower()] on ASCII text. *)
Definition lower_ascii (c : ascii) : ascii :=
  let n := nat_of_ascii c in
  if (Nat.leb 65 n && Nat.leb n 90)%bool then ascii_of_nat (n + 32) else c.

Fixpoint lower (s : string) : string :=
  match s with
  | EmptyString => EmptyString
  | String c s' => String (lower_ascii c) (lower s')
  end.

(** [needle in haystack]. *)
Fixpoint contains (needle haystack : string) : bool :=
  (String.prefix needle haystack
   || match haystack with
      | EmptyString => false
      | String _ h' => contains needle h'
      end)%bool.

(** ["".join(parts)]. *)
Definition join (parts : list string) : string := String.concat "" parts.

(** [round(x, 4)]: to the nearest multiple of 1/10000, halves to even. *)
Definition round_half_even (n : Z) (d : positive) : Z :=
  let q := n / Zpos d in
  let r := n mod Zpos d in
  match (2 * r) ?= Zpos d with
  | Lt => q
  | Gt => q + 1
  | Eq => if Z.even q then q else q + 1
  end.

Definition round4 (x : Q) : Q :=
  Qmake (round_half_even (Qnum x * 10000) (Qden x)) 10000.

(** A [float]: a number or [nan]. *)
Inductive pyfloat := Finite (q : Q) | NaN.

Coercion Finite : Q >-> pyfloat.

(** [round(float(1 - d), 4)]: [1 - nan] is [nan], and so is
    [round(nan, 4)]. *)
Definition similarity (d : pyfloat) : pyfloat :=
  match d with
  | Finite q => Finite (round4 (1 - q))
  | NaN => NaN
  end.

(** The order in which numpy sorts an array of floats: ascending, [nan]
    last. *)
Definition float_leb (a b : pyfloat) : bool :=
  match a, b with
  | Finite x, Finite y => Qle_bool x y
  | _, NaN => true
  | NaN, Finite _ => false
  end.

End Py.
Import Py.

(* ------------------------------------------------------------------ *)
(** * Records exchanged by the pipeline *)

(** A chunk record as indexed by a backend (the dict produced by
    [chunk_dataset] / [prepare_documents_for_pinecone]).  Such a record has
    a [chunk_id] and no [score] key, so looking up its [chunk_id] never
    raises and the score put in front of its fields is kept. *)
Record Doc := mkDoc {
  chunk_id : string;
  text : string;
  source : string
}.

(** A backend's answer: [{"score": ..., **doc}]. *)
Record SearchResult := mkResult {
  score : pyfloat;
  payload : Doc
}.

(** A dense vector (a row of a numpy array). *)
Definition vec := list Q.

(* ------------------------------------------------------------------ *)
(** * External calls and the monad that records them *)

Inductive event :=
| EvEmbed (inputs : list string) (input_type : string)
| EvSleep (milliseconds : Z)
| EvSearch (engine : string) (query : string) (top_k : pyint)
| EvRerank (query : string) (documents : list SearchResult) (top_n : pyint)
| EvStoreQuery (vector : vec) (top_k : Z).

Definition M (A : Type) : Type := list event -> result A * list event.

Definition ret {A} (a : A) : M A := fun log => (inr a, log).

Definition raise {A} (e : exn) : M A := fun log => (inl e, log).

Definition lift {A} (r : result A) : M A := fun log => (r, log).

Definition bind {A B} (m : M A) (f : A -> M B) : M B :=
  fun log =>
    match m log with
    | (inl e, log') => (inl e, log')
    | (inr a, log') => f a log'
    end.

(** [try: body  except Exception as e: handler e]. *)
Definition try_except {A} (body : M A) (handler : exn -> M A) : M A :=
  fun log =>
    match body log with
    | (inl e, log') => handler e log'
    | (inr a, log') => (inr a, log')
    end.

Definition emit (e : event) : M unit := fun log => (inr tt, log ++ [e]).

(** [assert cond, msg]. *)
Definition py_assert (cond : bool) (msg : string) : M unit :=
  if cond then ret tt else raise (Exn AssertionError msg).

Declare Scope py_scope.
Delimit Scope py_scope with py.
Notation "x <- c1 ;; c2" := (bind c1 (fun x => c2))
  (at level 100, c1 at next level, right associativity) : py_scope.
Notation "' pat <- c1 ;; c2" := (bind c1 (fun x => match x with pat => c2 end))
  (at level 100, pat pattern, c1 at next level, right associativity) : py_scope.
Notation "c1 ;;; c2" := (bind c1 (fun _ => c2))
  (at level 100, right associativity) : py_scope.
Local Open Scope py_scope.

(** [time.sleep(seconds)], in milliseconds. *)
Definition time_sleep (ms : Z) : M unit := emit (EvSleep ms).

Definition is_embed (e : event) : bool :=
  match e with EvEmbed _ _ => true | _ => false end.

(** How many embedding requests the log holds. *)
Definition count_embeds (log : list event) : nat :=
  List.length (filter is_embed log).

(* ------------------------------------------------------------------ *)
(** * retriever.py *)

Module Retriever.

(** [np.stack(arrays)] on rows: at least one row, all of one shape. *)
Definition np_stack (arrays : list vec) : result (list vec) :=
  match arrays with
  | [] => inl (Exn ValueError "need at least one array to stack")
  | a :: rest =>
      if forallb (fun b => Nat.eqb (List.length b) (List.length a)) rest
      then inr arrays
      else inl (Exn ValueError "all input arrays must have the same shape")
  end.

(** ["rate limit exceeded" in str(e).lower()]. *)
Definition is_rate_limit (e : exn) : bool :=
  contains "rate limit exceeded" (lower (message e)).

Section Embedding.

(** The embedding provider behind [pc.inference.embed]: its answer to
    the request number [n] (counted from 0) for the given inputs. *)
Variable embed_provider :
  nat -> list string -> string -> result (list vec).

Definition pc_inference_embed (inputs : list string) (input_type : string)
  : M (list vec) :=
  fun log =>
    (embed_provider (count_embeds log) inputs input_type,
     log ++ [EvEmbed inputs input_type]).

(** The local variables of [batch_embed]'s loop. *)
Record embed_vars := mkVars { i : Z; all_embeddings : list vec }.

(** One pass through the body of the [for] statement. *)
Definition batch_embed_body (docs : list string) (input_type : string)
    (batch_size : Z) (v : embed_vars) : M embed_vars :=
  try_except
    (let batch := slice docs (i v) (i v + batch_size) in
     embeddings <- pc_inference_embed batch input_type ;;
     let embedding_values := embeddings in
     let v := mkVars (i v) (all_embeddings v ++ embedding_values) in
     time_sleep 500 ;;;
     ret v)
    (fun e =>
       if is_rate_limit e then
         time_sleep 60000 ;;;
         (* i -= batch_size; continue *)
         ret (mkVars (i v - batch_size) (all_embeddings v))
       else raise e).

(** [for i in <values>: body]: every pass starts by binding [i] to the
    next value of the iterator, whatever the previous pass left in it. *)
Fixpoint for_each (values : list Z) (body : embed_vars -> M embed_vars)
    (v : embed_vars) : M embed_vars :=
  match values with
  | [] => ret v
  | next :: rest =>
      v' <- body (mkVars next (all_embeddings v)) ;;
      for_each rest body v'
  end.

Definition batch_embed (docs : list string) (input_type : string)
    (batch_size : Z) : M (list vec) :=
  starts <- lift (range0 (Z.of_nat (List.length docs)) batch_size) ;;
  v <- for_each starts (batch_embed_body docs input_type batch_size)
         (mkVars 0 []) ;;
  lift (np_stack (all_embeddings v)).

End Embedding.

(** ** The search engines *)

Section Engines.

Variable embed_provider :
  nat -> list string -> string -> result (list vec).

(** scipy's [cdist(..., metric="cosine")] on one pair of rows; it is [nan]
    when one of them is a zero vector. *)
Variable cosine_distance : vec -> vec -> pyfloat.

(** numpy's [argsort]: the indices of an array, by ascending value, [nan]
    last. *)
Variable argsort : list pyfloat -> list nat.

(** sklearn's [TfidfVectorizer]: its fitted state, [fit_transform] and
    [transform] on one text. *)
Variable Vectorizer : Type.
Variable fit_transform : list string -> Vectorizer * list vec.
Variable transform : Vectorizer -> string -> vec.

(** bm25s: the index object, [BM25()], [index] on a tokenized corpus and
    [retrieve], which answers with the documents and their scores. *)
Variable BM25 : Type.
Variable bm25_new : BM25.
Variable bm25_index : BM25 -> list string -> BM25.
Variable bm25_retrieve :
  BM25 -> string -> list Doc -> Z -> result (list (Doc * Q)).

(** The remote index behind [self._index.query]: the matches'
    metadata and scores. *)
Variable store_query : vec -> Z -> result (list (Doc * Q)).

(** [cdist(query, index, metric="cosine")[0]]. *)
Definition cdist_row (query_vec : vec) (index : list vec) : list pyfloat :=
  map (cosine_distance query_vec) index.

(** The loop shared by the TF-IDF and the dense engine:
    [{"score": round(float(1 - cosine_distances[idx]), 4), **data[idx]}]
    for each of the selected indices. *)
Fixpoint collect (cosine_distances : list pyfloat) (data : list Doc)
    (indices : list nat) : result (list SearchResult) :=
  match indices with
  | [] => inr []
  | idx :: rest =>
      match nth_error cosine_distances idx, nth_error data idx with
      | Some d, Some doc =>
          match collect cosine_distances data rest with
          | inr output => inr (mkResult (similarity d) doc :: output)
          | inl e => inl e
          end
      | _, _ => inl (Exn IndexError "index out of range")
      end
  end.

(** *** TfidfSearchEngine *)

Record TfidfSearchEngine := mkTfidf {
  tfidf_vectorizer : option Vectorizer;   (* [None]: not fitted *)
  tfidf_index : option (list vec);
  tfidf_data : option (list Doc)
}.

Definition TfidfSearchEngine_init : TfidfSearchEngine :=
  mkTfidf None None None.

Definition TfidfSearchEngine_fit (self : TfidfSearchEngine)
    (data : list Doc) : TfidfSearchEngine :=
  let docs := map text data in
  let '(vectorizer, index) := fit_transform docs in
  mkTfidf (Some vectorizer) (Some index) (Some data).

Definition TfidfSearchEngine_search (self : TfidfSearchEngine)
    (query : string) (top_k : Z) : M (list SearchResult) :=
  match tfidf_index self with
  | None => raise (Exn AssertionError "Index is not set")
  | Some index =>
      match tfidf_data self with
      | None => raise (Exn AssertionError "Data is not set")
      | Some data =>
          match tfidf_vectorizer self with
          | None => raise (Exn NotFittedError "not fitted")
          | Some vectorizer =>
              let query_vec := transform vectorizer query in
              let cosine_distances := cdist_row query_vec index in
              let top_k_indices :=
                slice_to (argsort cosine_distances) top_k in
              lift (collect cosine_distances data top_k_indices)
          end
      end
  end.

(** *** BM25SearchEngine *)

Record BM25SearchEngine := mkBM25 {
  bm25_self_index : BM25;               (* never [None] *)
  bm25_data : option (list Doc)
}.

Definition BM25SearchEngine_init : BM25SearchEngine :=
  mkBM25 bm25_new None.

Definition BM25SearchEngine_fit (self : BM25SearchEngine)
    (data : list Doc) : BM25SearchEngine :=
  let corpus := map text data in
  mkBM25 (bm25_index (bm25_self_index self) corpus) (Some data).

Definition BM25SearchEngine_search (self : BM25SearchEngine)
    (query : string) (top_k : Z) : M (list SearchResult) :=
  (* [assert self._index is not None] always passes *)
  match bm25_data self with
  | None => raise (Exn AssertionError "Data is not set")
  | Some data =>
      retrieved <- lift (bm25_retrieve (bm25_self_index self) query
                           data top_k) ;;
      ret (map (fun '(doc, s) => mkResult (Finite (round4 s)) doc)
             retrieved)
  end.

(** *** DenseSearchEngine *)

Record DenseSearchEngine := mkDense {
  dense_index : option (list vec);
  dense_data : option (list Doc)
}.

Definition DenseSearchEngine_init : DenseSearchEngine :=
  mkDense None None.

(** When the embedding fails, the exception leaves [fit]; the engine then
    keeps no index. *)
Definition DenseSearchEngine_fit (self : DenseSearchEngine)
    (data : list Doc) : M DenseSearchEngine :=
  let docs := map text data in
  embeddings <- batch_embed embed_provider docs "passage" 25 ;;
  ret (mkDense (Some embeddings) (Some data)).

Definition DenseSearchEngine_search (self : DenseSearchEngine)
    (query : string) (top_k : Z) : M (list SearchResult) :=
  match dense_index self with
  | None =>
      (* [self._index.shape] *)
      raise (Exn AttributeError
               "'NoneType' object has no attribute 'shape'")
  | Some index =>
      query_embedding <- batch_embed embed_provider [query] "query" 25 ;;
      let cosine_distances :=
        cdist_row (hd [] query_embedding) index in
      let top_k_indices := slice_to (argsort cosine_distances) top_k in
      match dense_data self with
      | None =>
          match top_k_indices with
          | [] => ret []
          | _ :: _ =>
              (* [self._data[idx]] *)
              raise (Exn TypeError
                       "'NoneType' object is not subscriptable")
          end
      | Some data => lift (collect cosine_distances data top_k_indices)
      end
  end.

(** *** VectorStoreSearchEngine *)

Record VectorStoreSearchEngine := mkStore {
  store_index : option unit     (* the handle [self._pc.Index(name)] *)
}.

Definition VectorStoreSearchEngine_init : VectorStoreSearchEngine :=
  mkStore None.

Definition VectorStoreSearchEngine_load (self : VectorStoreSearchEngine)
  : VectorStoreSearchEngine := mkStore (Some tt).

Definition VectorStoreSearchEngine_search (self : VectorStoreSearchEngine)
    (query : string) (top_k : Z) : M (list SearchResult) :=
  query_embedding <- batch_embed embed_provider [query] "query" 25 ;;
  match store_index self with
  | None =>
      (* [self._index.query] *)
      raise (Exn AttributeError
               "'NoneType' object has no attribute 'query'")
  | Some _ =>
      let vector := hd [] query_embedding in
      emit (EvStoreQuery vector top_k) ;;;
      matches <- lift (store_query vector top_k) ;;
      ret (map (fun '(metadata, s) => mkResult (Finite (round4 s)) metadata)
             matches)
  end.

End Engines.

(** ** Reranker *)

Section Rerank.

(** The cross-encoder behind [pc.inference.rerank]: for each kept
    document its position in the request and its new score. *)
Variable rerank_provider :
  string -> list string -> pyint -> result (list (nat * Q)).

(** [documents[idx]["score"] = s], in place. *)
Fixpoint set_score (documents : list SearchResult) (idx : nat) (s : Q)
  : list SearchResult :=
  match documents, idx with
  | [], _ => []
  | d :: rest, O => mkResult (Finite s) (payload d) :: rest
  | d :: rest, S n => d :: set_score rest n s
  end.

(** The loop over [reranked.data]: the documents are updated in place
    and [output_docs] holds references to them. *)
Fixpoint rerank_loop (documents : list SearchResult)
    (data : list (nat * Q)) (output_refs : list nat)
  : result (list SearchResult * list nat) :=
  match data with
  | [] => inr (documents, output_refs)
  | (idx, s) :: rest =>
      if Nat.ltb idx (List.length documents) then
        rerank_loop (set_score documents idx (round4 s)) rest
          (output_refs ++ [idx])
      else inl (Exn IndexError "list index out of range")
  end.

Definition Reranker_invoke (query : string)
    (documents : list SearchResult) (top_n : pyint)
  : M (list SearchResult) :=
  let texts := map (fun doc => text (payload doc)) documents in
  match texts with
  | [] => raise (Exn IndexError "list index out of range") (* texts[0] *)
  | _ :: _ =>
      emit (EvRerank query documents top_n) ;;;
      reranked <- lift (rerank_provider query texts top_n) ;;
      '(documents', refs) <- lift (rerank_loop documents reranked []) ;;
      ret (flat_map
             (fun idx => match nth_error documents' idx with
                         | Some d => [d]
                         | None => []
                         end) refs)
  end.

End Rerank.

(** ** Orchestration *)

Section Orchestration.

(** [search_engine.search] and [reranker.invoke] of objects typed
    [Any]. *)
Variable search_engine : string -> pyint -> M (list SearchResult).
Variable sparse_search_engine : string -> pyint -> M (list SearchResult).
Variable dense_search_engine : string -> pyint -> M (list SearchResult).
Variable reranker :
  string -> list SearchResult -> pyint -> M (list SearchResult).

(** [Retriever.invoke]. *)
Definition Retriever_invoke (query : string) (top_k : pyint)
  : M (list SearchResult) :=
  search_engine query top_k.

(** Lines 431-440 of [RetrieverWithReranker.invoke]: the values of
    [top_k] and [top_n] after the [if] statement. *)
Definition RetrieverWithReranker_derive (top_k top_n : pyint)
  : result (pyint * pyint) :=
  if (truthy top_k && negb (truthy top_n))%bool then
    let top_n := top_k in
    match py_mul top_k 2 with
    | inr top_k => inr (top_k, top_n)
    | inl e => inl e
    end
  else if (truthy top_n && negb (truthy top_k))%bool then
    match py_mul top_n 2 with
    | inr top_k => inr (top_k, top_n)
    | inl e => inl e
    end
  else if py_eq top_k top_n then
    match py_mul top_k 2 with
    | inr top_k => inr (top_k, top_n)
    | inl e => inl e
    end
  else
    inr (Some 10, Some 5).

Definition RetrieverWithReranker_invoke (query : string)
    (top_k top_n : pyint) : M (list SearchResult) :=
  '(top_k, top_n) <- lift (RetrieverWithReranker_derive top_k top_n) ;;
  retrievals <- search_engine query top_k ;;
  reranked <- reranker query retrievals top_n ;;
  ret reranked.

(** Lines 453-462 of [HybridRetrieverWithReranker.invoke]. *)
Definition HybridRetrieverWithReranker_derive (top_k top_n : pyint)
  : result (pyint * pyint) :=
  if (truthy top_k && negb (truthy top_n))%bool then
    let top_n := top_k in
    match py_mul top_k 2 with
    | inr top_k => inr (top_k, top_n)
    | inl e => inl e
    end
  else if (truthy top_n && negb (truthy top_k))%bool then
    match py_mul top_n 2 with
    | inr top_k => inr (top_k, top_n)
    | inl e => inl e
    end
  else if py_eq top_k top_n then
    match py_mul top_k 2 with
    | inr top_k => inr (top_k, top_n)
    | inl e => inl e
    end
  else
    inr (Some 10, Some 5).

(** [d[key] = value] on a dict, which keeps its keys in the order of
    their first insertion. *)
Fixpoint dict_set (d : list (string * SearchResult)) (key : string)
    (value : SearchResult) : list (string * SearchResult) :=
  match d with
  | [] => [(key, value)]
  | (k, v) :: rest =>
      if String.eqb k key then (k, value) :: rest
      else (k, v) :: dict_set rest key value
  end.

(** Lines 469-472: the dict built from the retrievals, then its
    values. *)
Definition dedupe (retrievals : list SearchResult)
  : list SearchResult :=
  let deduped_retrievals :=
    fold_left (fun d doc => dict_set d (chunk_id (payload doc)) doc)
      retrievals [] in
  map snd deduped_retrievals.

Definition HybridRetrieverWithReranker_invoke (query : string)
    (top_k top_n : pyint) : M (list SearchResult) :=
  '(top_k, top_n) <-
    lift (HybridRetrieverWithReranker_derive top_k top_n) ;;
  sparse_retrievals <- sparse_search_engine query top_k ;;
  dense_retrievals <- dense_search_engine query top_k ;;
  let retrievals := (sparse_retrievals ++ dense_retrievals)%list in
  let deduped_retrievals := dedupe retrievals in
  reranked <- reranker query deduped_retrievals top_n ;;
  ret reranked.

End Orchestration.

End Retriever.

(* ------------------------------------------------------------------ *)
(** * utils.py *)

Module Utils.

(** [str.isspace] on an ASCII character. *)
Definition is_space (c : ascii) : bool :=
  let n := nat_of_ascii c in
  ((Nat.leb 9 n && Nat.leb n 13) || (Nat.leb 28 n && Nat.leb n 32))%bool.

Fixpoint lstrip (s : string) : string :=
  match s with
  | String c s' => if is_space c then lstrip s' else s
  | EmptyString => EmptyString
  end.

Fixpoint rstrip (s : string) : string :=
  match s with
  | EmptyString => EmptyString
  | String c s' =>
      match rstrip s' with
      | EmptyString => if is_space c then EmptyString
                       else String c EmptyString
      | r => String c r
      end
  end.

(** [s.strip()]. *)
Definition strip (s : string) : string := rstrip (lstrip s).

(** [s.upper()] on ASCII text. *)
Definition upper_ascii (c : ascii) : ascii :=
  let n := nat_of_ascii c in
  if (Nat.leb 97 n && Nat.leb n 122)%bool then ascii_of_nat (n - 32) else c.

Fixpoint upper (s : string) : string :=
  match s with
  | EmptyString => EmptyString
  | String c s' => String (upper_ascii c) (upper s')
  end.

(** [s.splitlines()], for the ASCII line boundaries: line feed, carriage
    return (alone or before a line feed), vertical tab, form feed and the
    separators 28 to 30. *)
Definition is_line_break (c : ascii) : bool :=
  let n := nat_of_ascii c in
  ((Nat.leb 10 n && Nat.leb n 13) || (Nat.leb 28 n && Nat.leb n 30))%bool.

Fixpoint splitlines_from (line : string) (s : string) : list string :=
  match s with
  | EmptyString =>
      match line with
      | EmptyString => []
      | _ => [line]
      end
  | String c rest =>
      if Ascii.eqb c "013" then
        match rest with
        | String c' rest' =>
            if Ascii.eqb c' "010"
            then line :: splitlines_from EmptyString rest'
            else line :: splitlines_from EmptyString rest
        | EmptyString => [line]
        end
      else if is_line_break c then line :: splitlines_from EmptyString rest
      else splitlines_from (line ++ String c EmptyString)%string rest
  end.

Definition splitlines (s : string) : list string :=
  splitlines_from EmptyString s.

(** [re.search(r'\$\s*[\d,]+', s)]: a dollar sign, any white space, then a
    digit or a comma. *)
Definition is_digit_or_comma (c : ascii) : bool :=
  let n := nat_of_ascii c in
  ((Nat.leb 48 n && Nat.leb n 57) || Nat.eqb n 44)%bool.

Definition starts_amount (s : string) : bool :=
  match lstrip s with
  | String c _ => is_digit_or_comma c
  | EmptyString => false
  end.

Fixpoint search_amount (s : string) : bool :=
  match s with
  | EmptyString => false
  | String c rest =>
      ((Ascii.eqb c "$" && starts_amount rest) || search_amount rest)%bool
  end.

(** A tree-sitter node: its type, its text and its children. *)
Inductive Node := mkNode (type : string) (node_text : string)
                         (children : list Node).

Definition node_type (n : Node) : string :=
  match n with mkNode t _ _ => t end.

Fixpoint extract_text_from_node (node : Node) : string :=
  match node with
  | mkNode _ node_text children =>
      match children, node_text with
      | [], String _ _ => node_text
      | _, _ => join (map extract_text_from_node children)
      end
  end.

(** The local variables of [chunk_by_headings]'s loop. *)
Record heading_vars := mkHeadingVars {
  h_chunks : list string;
  h_current_chunk : list string;
  h_current_heading : option string
}.

Definition chunk_by_headings_step (v : heading_vars) (node : Node)
  : heading_vars :=
  if String.eqb (node_type node) "atx_heading" then
    let chunks :=
      match h_current_heading v with
      | Some _ => (h_chunks v ++ [strip (join (h_current_chunk v))])%list
      | None => h_chunks v
      end in
    let current_heading := extract_text_from_node node in
    mkHeadingVars chunks
      [(current_heading ++ String "010" (String "010" ""))%string]
      (Some current_heading)
  else
    match h_current_heading v with
    | Some _ =>
        mkHeadingVars (h_chunks v)
          (h_current_chunk v ++ [extract_text_from_node node])%list
          (h_current_heading v)
    | None => v
    end.

Definition chunk_by_headings (root_children : list Node) : list string :=
  let v := fold_left chunk_by_headings_step root_children
             (mkHeadingVars [] [] None) in
  match h_current_heading v with
  | Some _ => (h_chunks v ++ [strip (join (h_current_chunk v))])%list
  | None => h_chunks v
  end.

(** The documents of a dataset and the chunk records made from them. *)
Record Document := mkDocument {
  content : string;
  file_type : string;
  metadata : list (string * string)
}.

Record Chunk := mkChunk {
  chunk : string;
  chunk_text : string;
  chunk_chunk_id : string;
  doc_id : string;
  chunk_number : Z;
  chunk_file_type : string;
  chunk_metadata : list (string * string)
}.

(** [enumerate(l)]. *)
Definition enumerate {A} (l : list A) : list (Z * A) :=
  combine (map Z.of_nat (seq 0 (List.length l))) l.

Section Chunking.

(** nltk's [sent_tokenize] and the tokenizer behind [tokenize_text]
    (litellm's [encode], then [decode] of each token on its own). *)
Variable sent_tokenize : string -> list string.
Variable tokenize_text : string -> string -> list string.

(** The local variables of [chunk_simple]'s loop. *)
Record packer_vars := mkPacker {
  chunks : list string;
  current_chunk : list string;
  current_length : Z
}.

Definition chunk_simple_step (chunk_size : Z) (model : string)
    (v : packer_vars) (sentence : string) : packer_vars :=
  let words := tokenize_text sentence model in
  let v :=
    if ((current_length v + Z.of_nat (List.length words) >? chunk_size)
        && negb (Nat.eqb (List.length (current_chunk v)) 0))%bool
    then mkPacker (chunks v ++ [join (current_chunk v)])%list [] 0
    else v in
  mkPacker (chunks v) (current_chunk v ++ words)%list
    (current_length v + Z.of_nat (List.length words)).

Definition chunk_simple (content : string) (chunk_size : Z)
    (model : string) : list string :=
  let sentences := sent_tokenize content in
  let v := fold_left (chunk_simple_step chunk_size model) sentences
             (mkPacker [] [] 0) in
  if negb (Nat.eqb (List.length (current_chunk v)) 0)
  then (chunks v ++ [join (current_chunk v)])%list
  else chunks v.

(** [hashlib.md5(...).hexdigest()]. *)
Variable md5_hexdigest : string -> string.

Definition make_id (content : string) : string := md5_hexdigest content.

(** The tree-sitter markdown parser: the children of the root node. *)
Variable parse_markdown : string -> list Node.

Definition chunk_markdown (content : string) (chunk_size : Z)
  : list string :=
  let chunks := chunk_by_headings (parse_markdown content) in
  let chunks :=
    map (fun chunk => chunk_simple chunk chunk_size "gpt-4o-mini")
      chunks in
  flat_map (fun chunk => chunk) chunks.

(** [read_notebook] (nbformat and nbconvert), [markdown.markdown] with the
    extensions of [chunk_notebook], and [mdify] (BeautifulSoup and
    markdownify). *)
Variable read_notebook : string -> string.
Variable markdown_markdown : string -> string.
Variable mdify : string -> string.

Definition chunk_notebook (content : string) (chunk_size : Z)
  : list string :=
  let md_notebook := read_notebook content in
  let md_notebook := markdown_markdown md_notebook in
  let md_notebook := mdify md_notebook in
  let chunks := chunk_markdown md_notebook chunk_size in
  chunks.

(** [chunk_pdf]: the split into sections. *)
Definition section_markers : list string :=
  ["CONSOLIDATED STATEMENTS OF"; "NOTES TO"; "PART "; "Item ";
   "TABLE OF CONTENTS"]%string.

Record section_vars := mkSections {
  sections : list string;
  current_section : list string
}.

Definition chunk_pdf_line (v : section_vars) (line : string)
  : section_vars :=
  let is_new_section :=
    existsb (fun marker => String.prefix marker (upper (strip line)))
      section_markers in
  if (is_new_section
      && negb (Nat.eqb (List.length (current_section v)) 0))%bool
  then mkSections
         (sections v ++ [String.concat (String "010" "") (current_section v)])
         [line]
  else mkSections (sections v) (current_section v ++ [line]).

Definition chunk_pdf_sections (content : string) : list string :=
  let v := fold_left chunk_pdf_line (splitlines content)
             (mkSections [] []) in
  if negb (Nat.eqb (List.length (current_section v)) 0)
  then (sections v ++ [String.concat (String "010" "") (current_section v)])
  else sections v.

(** [chunk_pdf]: the sentence loop of a section without table; the
    running chunk holds sentences here. *)
Definition chunk_pdf_sentence (chunk_size : Z) (v : packer_vars)
    (sentence : string) : packer_vars :=
  let sentence_tokens := tokenize_text sentence "gpt-4o-mini" in
  if ((current_length v + Z.of_nat (List.length sentence_tokens)
       >? chunk_size)
      && negb (Nat.eqb (List.length (current_chunk v)) 0))%bool
  then mkPacker (chunks v ++ [String.concat " " (current_chunk v)])
         [sentence] (Z.of_nat (List.length sentence_tokens))
  else mkPacker (chunks v) (current_chunk v ++ [sentence])
         (current_length v + Z.of_nat (List.length sentence_tokens)).

Definition chunk_pdf_section (chunk_size : Z) (chunks_so_far : list string)
    (section : string) : list string :=
  let has_table := search_amount section in
  if has_table then (chunks_so_far ++ [section])
  else
    let sentences := sent_tokenize section in
    let v := fold_left (chunk_pdf_sentence chunk_size) sentences
               (mkPacker chunks_so_far [] 0) in
    if negb (Nat.eqb (List.length (current_chunk v)) 0)
    then (chunks v ++ [String.concat " " (current_chunk v)])
    else chunks v.

Definition chunk_pdf (content : string) (chunk_size : Z) : list string :=
  let sections := chunk_pdf_sections content in
  fold_left (chunk_pdf_section chunk_size) sections [].

(** [chunk_source_code] walks a tree-sitter tree of the source and renders
    each definition under the imports and module variables it uses.  It
    orders them by iterating over Python sets of strings, whose order is
    fixed within one interpreter process and follows the process's
    string-hash seed: the seed is an argument.  [convert_contents_to_text]
    rests on regular expressions and on the markdown and HTML parsers. *)
Variable HashSeed : Type.
Variable chunk_source_code : HashSeed -> string -> Z -> list string.
Variable convert_contents_to_text : string -> string -> string.

(** The chunk records of one document: the body of [chunk_dataset]'s
    outer loop. *)
Definition chunk_document (seed : HashSeed) (doc : Document)
    (chunk_size : Z) : list Chunk :=
  let doc_id := make_id (content doc) in
  if String.eqb (file_type doc) "python" then
    let chunks := chunk_source_code seed (content doc) chunk_size in
    map (fun '(i, chunk) =>
           mkChunk chunk chunk (make_id chunk) doc_id i
             (file_type doc) (metadata doc))
      (enumerate chunks)
  else if String.eqb (file_type doc) "notebook" then
    let chunks := chunk_notebook (content doc) chunk_size in
    map (fun '(i, chunk) =>
           mkChunk chunk chunk (make_id chunk) doc_id i
             (file_type doc) (metadata doc))
      (enumerate chunks)
  else if String.eqb (file_type doc) "pdf" then
    let chunks := chunk_pdf (content doc) chunk_size in
    map (fun '(i, chunk) =>
           mkChunk chunk (convert_contents_to_text chunk "pdf")
             (make_id chunk) doc_id i (file_type doc) (metadata doc))
      (enumerate chunks)
  else
    let chunks := chunk_markdown (content doc) chunk_size in
    map (fun '(i, chunk) =>
           mkChunk chunk (convert_contents_to_text chunk "markdown")
             (make_id chunk) doc_id i (file_type doc) (metadata doc))
      (enumerate chunks).

Definition chunk_dataset (seed : HashSeed) (ds : list Document)
    (chunk_size : Z) : list Chunk :=
  fold_left (fun all_chunks doc =>
               (all_chunks ++ chunk_document seed doc chunk_size)%list)
    ds [].

End Chunking.

End Utils.

Import Retriever Utils.

(* ------------------------------------------------------------------ *)
(** * Collaborators used by the worked examples *)

Module Fixtures.

(** A search engine that records each call and answers with the first
    [top_k] entries of a fixed ranking. *)
Definition recording_engine (name : string) (ranking : list SearchResult)
  : string -> pyint -> M (list SearchResult) :=
  fun query top_k =>
    emit (EvSearch name query top_k) ;;;
    ret (match top_k with
         | Some k => slice_to ranking k
         | None => ranking
         end).

(** A cross-encoder that keeps the first [top_n] documents, in order,
    and scores them 1/2. *)
Definition keep_first_provider
  : string -> list string -> pyint -> result (list (nat * Q)) :=
  fun _ texts top_n =>
    let kept := match top_n with
                | Some n => slice_to (seq 0 (List.length texts)) n
                | None => seq 0 (List.length texts)
                end in
    inr (map (fun idx => (idx, 1 # 2)) kept).

Definition doc (id : string) : Doc := mkDoc id ("text of " ++ id) "corpus".

Definition hit (s : Q) (id : string) : SearchResult :=
  mkResult (Finite s) (doc id).

(** Twelve ranked results, [c0] first. *)
Definition ranking12 : list SearchResult :=
  map (fun n => hit (Z.of_nat (12 - n) # 20)
                  (String (ascii_of_nat (97 + n)) ""))
    (seq 0 12).

(** The sparse engine's results A, B, C and the dense engine's results
    B, D; the two copies of B differ by their score. *)
Definition sparse_ABC : list SearchResult :=
  [hit (9 # 10) "A"; hit (8 # 10) "B"; hit (7 # 10) "C"].

Definition dense_BD : list SearchResult :=
  [hit (95 # 100) "B"; hit (6 # 10) "D"].

(** An embedding provider that maps a text to the one-component vector
    of its length. *)
Definition embed_by_length (inputs : list string) : list vec :=
  map (fun t => [Z.of_nat (String.length t) # 1]) inputs.

Definition steady_provider
  : nat -> list string -> string -> result (list vec) :=
  fun _ inputs _ => inr (embed_by_length inputs).

(** The same provider, signalling a rate limit on its first request. *)
Definition rate_limited_first
  : nat -> list string -> string -> result (list vec) :=
  fun n inputs _ =>
    match n with
    | O => inl (Exn ProviderError "Rate limit exceeded")
    | S _ => inr (embed_by_length inputs)
    end.

(** A provider that is down. *)
Definition failing_provider
  : nat -> list string -> string -> result (list vec) :=
  fun _ _ _ => inl (Exn ProviderError "Service unavailable").

(** A provider that always signals a rate limit. *)
Definition rate_limited_provider
  : nat -> list string -> string -> result (list vec) :=
  fun _ _ _ => inl (Exn ProviderError "429: rate limit exceeded").

(** A remote index without any match. *)
Definition empty_store : vec -> Z -> result (list (Doc * Q)) :=
  fun _ _ => inr [].

(** A tokenizer with one token per character, and a sentence splitter
    that ends a sentence after each full stop. *)
Definition chars_tokenizer (text model : string) : list string :=
  map (fun c => String c EmptyString) (list_ascii_of_string text).

Fixpoint split_after_stops (pending text : string) : list string :=
  match text with
  | EmptyString =>
      match pending with
      | EmptyString => []
      | _ => [pending]
      end
  | String c rest =>
      if Ascii.eqb c "."
      then (pending ++ ".")%string :: split_after_stops EmptyString rest
      else split_after_stops (pending ++ String c EmptyString)%string rest
  end.

Definition stop_sentences (text : string) : list string :=
  split_after_stops EmptyString text.

(** Stand-ins for the digest and the parsers behind [chunk_dataset]: the
    digest reverses its input, the markdown parser sees one heading, and the
    other chunkers cut a text after its full stops. *)
Definition toy_digest (text : string) : string :=
  string_of_list_ascii (rev (list_ascii_of_string text)).

Definition one_heading (text : string) : list Node :=
  [mkNode "atx_heading" text []].

Definition stop_chunker (text : string) (chunk_size : Z) : list string :=
  stop_sentences text.

Definition plain_text (text kind : string) : string := text.

Definition dataset_a : list Document :=
  [mkDocument "One. Two." "pdf" [("source", "a.pdf")];
   mkDocument "x = 1. y = 2." "python" [("source", "a.py")]]%string.

(** The same contents under other metadata. *)
Definition dataset_b : list Document :=
  [mkDocument "One. Two." "pdf" [("source", "copy/b.pdf")];
   mkDocument "x = 1. y = 2." "python" []]%string.

(** A stable [argsort]: insertion sort of the indices by their value. *)
Fixpoint insert_index (values : list pyfloat) (idx : nat)
    (sorted : list nat) : list nat :=
  match sorted with
  | [] => [idx]
  | j :: rest =>
      if float_leb (nth idx values NaN) (nth j values NaN)
      then idx :: j :: rest
      else j :: insert_index values idx rest
  end.

Definition stable_argsort (values : list pyfloat) : list nat :=
  fold_right (insert_index values) [] (seq 0 (List.length values)).

(** The cosine distance [1 - u.v / (|u| |v|)], exact on vectors with integer
    components whose squared norm is a perfect square; [nan] for a zero
    vector, where scipy divides 0 by 0. *)
Definition dot (u v : vec) : Q :=
  fold_right Qplus 0%Q (map (fun p => (fst p * snd p)%Q) (combine u v)).

Definition integer_norm (u : vec) : Q :=
  inject_Z (Z.sqrt (Qnum (Qred (dot u u)))).

Definition cosine_distance_exact (u v : vec) : pyfloat :=
  if Qeq_bool (integer_norm u * integer_norm v) 0 then NaN
  else Finite (Qred (1 - dot u v / (integer_norm u * integer_norm v))).

(** An embedding model given by a table: two documents close to the
    query, one opposite to it, and a word outside the vocabulary, which a
    TF-IDF vectorizer maps to the zero vector; any other text embeds as the
    query does. *)
Definition table_embedding (text : string) : vec :=
  if String.eqb text "near" then [inject_Z 20200; inject_Z 201]
  else if String.eqb text "nearer" then [inject_Z 80400; inject_Z 401]
  else if String.eqb text "opposite" then [inject_Z (-1); inject_Z 0]
  else if String.eqb text "zebra" then [inject_Z 0; inject_Z 0]
  else [inject_Z 1; inject_Z 0].

Definition table_provider
  : nat -> list string -> string -> result (list vec) :=
  fun _ inputs _ => inr (map table_embedding inputs).

(** A vectorizer that uses the same table. *)
Definition table_fit_transform (docs : list string) : unit * list vec :=
  (tt, map table_embedding docs).

Definition table_transform (vectorizer : unit) (text : string) : vec :=
  table_embedding text.

(** A BM25 index that scores every document 7/2, and a remote index that
    answers with one match of score 9/10. *)
Definition flat_bm25_retrieve (index : unit) (query : string)
    (corpus : list Doc) (k : Z) : result (list (Doc * Q)) :=
  inr (map (fun d => (d, 7 # 2)) (slice_to corpus k)).

Definition one_match_store : vec -> Z -> result (list (Doc * Q)) :=
  fun _ _ => inr [(mkDoc "near" "near" "corpus", 9 # 10)].

(** A corpus of two documents, [near] before [nearer]. *)
Definition near_corpus : list Doc :=
  [mkDoc "near" "near" "corpus"; mkDoc "nearer" "nearer" "corpus"].

Definition opposite_corpus : list Doc :=
  [mkDoc "opposite" "opposite" "corpus"].

(** A corpus whose first document holds no word of the vocabulary. *)
Definition zero_row_corpus : list Doc :=
  [mkDoc "zebra" "zebra" "corpus"; mkDoc "near" "near" "corpus";
   mkDoc "opposite" "opposite" "corpus"].

End Fixtures.

(* ------------------------------------------------------------------ *)
(** * Reference notions the properties are stated with *)

Module Reference.

(** The identity a search result is deduplicated by. *)
Definition result_id (r : SearchResult) : string := chunk_id (payload r).

(** The last entry of a result list that carries a given [chunk_id]. *)
Fixpoint last_occurrence (id : string) (l : list SearchResult)
  : option SearchResult :=
  match l with
  | [] => None
  | r :: rest =>
      match last_occurrence id rest with
      | Some r' => Some r'
      | None => if String.eqb (result_id r) id then Some r else None
      end
  end.

(** [d.get(key)] on the dict model of [dedupe]. *)
Definition dict_get (d : list (string * SearchResult)) (key : string)
  : option SearchResult :=
  match find (fun kv => String.eqb (fst kv) key) d with
  | Some kv => Some (snd kv)
  | None => None
  end.

(** The dict built by the loop of lines 470-471 of retriever.py, from a
    given start. *)
Definition build (retrievals : list SearchResult)
    (d : list (string * SearchResult)) : list (string * SearchResult) :=
  fold_left (fun d doc => dict_set d (chunk_id (payload doc)) doc)
    retrievals d.

(** Every key is the [chunk_id] of its value. *)
Definition well_keyed (d : list (string * SearchResult)) : Prop :=
  Forall (fun kv => fst kv = result_id (snd kv)) d.

(** The tokens [chunk_simple] packs for a group of sentences, the chunk
    string it renders them to, and whether the group has any token. *)
Definition tokens_of (tokenize_text : string -> string -> list string)
    (model : string) (group : list string) : list string :=
  flat_map (fun sentence => tokenize_text sentence model) group.

Definition render (tokenize_text : string -> string -> list string)
    (model : string) (group : list string) : string :=
  join (tokens_of tokenize_text model group).

Definition has_tokens (tokenize_text : string -> string -> list string)
    (model : string) (group : list string) : bool :=
  negb (Nat.eqb (List.length (tokens_of tokenize_text model group)) 0).

(** A group respects the budget when its tokens fit, or when its tokens are
    those of one of its sentences, which alone exceeds the budget. *)
Definition within_budget (tokenize_text : string -> string -> list string)
    (model : string) (chunk_size : Z) (group : list string) : Prop :=
  Z.of_nat (List.length (tokens_of tokenize_text model group)) <= chunk_size
  \/ exists sentence,
       In sentence group
       /\ tokens_of tokenize_text model group = tokenize_text sentence model
       /\ chunk_size < Z.of_nat (List.length (tokenize_text sentence model)).

(** What the loop of [chunk_simple] maintains once it has consumed the
    sentences [seen]: the flushed chunks render complete groups of
    consecutive sentences, each with tokens and within the budget, and the
    running chunk holds the tokens of the sentences seen since the last
    flush. *)
Definition packed (tokenize_text : string -> string -> list string)
    (chunk_size : Z) (model : string) (seen : list string)
    (v : packer_vars) : Prop :=
  exists (groups : list (list string)) (current : list string),
    (List.concat groups ++ current)%list = seen
    /\ chunks v = map (render tokenize_text model) groups
    /\ Forall (fun g => has_tokens tokenize_text model g = true) groups
    /\ current_chunk v = tokens_of tokenize_text model current
    /\ current_length v
       = Z.of_nat (List.length (tokens_of tokenize_text model current))
    /\ Forall (within_budget tokenize_text model chunk_size) groups
    /\ (tokens_of tokenize_text model current = []
        \/ within_budget tokenize_text model chunk_size current).

(** The request [batch_embed] sends for the batch that starts at [start]. *)
Definition request (docs : list string) (input_type : string)
    (batch_size start : Z) : event :=
  EvEmbed (slice docs start (start + batch_size)) input_type.

(** The identifiers of a chunk record and the part of a document that
    chunking reads. *)
Definition chunk_ids (c : Chunk) : string * string * Z :=
  (doc_id c, chunk_chunk_id c, chunk_number c).

Definition chunked_part (doc : Document) : string * string :=
  (content doc, file_type doc).

(** A score sequence that never increases. *)
Definition non_increasing (scores : list Q) : Prop :=
  StronglySorted (fun a b => (b <= a)%Q) scores.

(** The order of [float_leb]: ascending numbers, [nan] last. *)
Definition float_le (a b : pyfloat) : Prop :=
  match a, b with
  | Finite x, Finite y => (x <= y)%Q
  | _, NaN => True
  | NaN, Finite _ => False
  end.

(** What numpy promises of [argsort]: the indices of the array, each once,
    ordered by ascending value with [nan] last; the order among equal
    values is left open. *)
Definition is_argsort (values : list pyfloat) (indices : list nat) : Prop :=
  Permutation indices (seq 0 (List.length values))
  /\ StronglySorted float_le (map (fun idx => nth idx values NaN) indices).

(** A result of the TF-IDF or dense engine: the document at position [idx]
    of the corpus with the rounded similarity of the distance at [idx]. *)
Definition scored_from (cosine_distances : list pyfloat) (data : list Doc)
    (idx : nat) (r : SearchResult) : Prop :=
  nth_error data idx = Some (payload r)
  /\ exists d, nth_error cosine_distances idx = Some d
               /\ score r = similarity d.

(** A score sequence as the TF-IDF and the dense engine return it: numbers
    that never increase, followed by the [nan] scores. *)
Definition numbers_then_nan (scores : list pyfloat) : Prop :=
  exists numbers k,
    scores = (map Finite numbers ++ repeat NaN k)%list
    /\ non_increasing numbers.

(** The position of a result's document in the corpus. *)
Fixpoint position (id : string) (data : list Doc) : option nat :=
  match data with
  | [] => None
  | d :: rest =>
      if String.eqb (chunk_id d) id then Some O
      else match position id rest with
           | Some n => Some (S n)
           | None => None
           end
  end.

End Reference.
Import Reference.

(* ------------------------------------------------------------------ *)
(** * Further reference notions *)

Module Reference2.

(** The score a reranker's answer assigns last to the document at position
    [idx], if any. *)
Fixpoint last_score (idx : nat) (data : list (nat * Q)) : option Q :=
  match data with
  | [] => None
  | (j, s) :: rest =>
      match last_score idx rest with
      | Some s' => Some s'
      | None => if Nat.eqb j idx then Some s else None
      end
  end.

(** A candidate after reranking: its fields, under the rounded score. *)
Definition rescored (s : Q) (d : SearchResult) : SearchResult :=
  mkResult (Finite (round4 s)) (payload d).

(** The identifiers of a list that were not seen before, in the order of
    their first occurrence. *)
Fixpoint first_seen (seen ids : list string) : list string :=
  match ids with
  | [] => []
  | id :: rest =>
      if existsb (String.eqb id) seen then first_seen seen rest
      else id :: first_seen (seen ++ [id]) rest
  end.

(** [len(l[:k])]. *)
Definition slice_to_length (n : nat) (k : Z) : nat :=
  if 0 <=? k then Nat.min (Z.to_nat k) n else Z.to_nat (Z.of_nat n + k).

(** How many of the nodes are headings. *)
Definition count_headings (nodes : list Node) : nat :=
  List.length
    (filter (fun node => String.eqb (node_type node) "atx_heading") nodes).

(** One chunk is pending while a heading is open. *)
Definition pending (v : heading_vars) : nat :=
  match h_current_heading v with Some _ => 1 | None => 0 end.

End Reference2.
Import Reference2.

(* ------------------------------------------------------------------ *)
(** * utils.py: preparing chunk records for the vector store *)

Module Indexing.

(** [KeyError(key)], raised by [d[key]]. *)
Inductive key_error := KeyError (key : string).

(** [d[key]] on a dict given by its items. *)
Fixpoint dict_item (d : list (string * string)) (key : string)
  : key_error + string :=
  match d with
  | [] => inl (KeyError key)
  | (k, v) :: rest =>
      if String.eqb k key then inr v else dict_item rest key
  end.

(** The flat record built by [prepare_documents_for_pinecone]. *)
Record PreparedDoc := mkPrepared {
  p_chunk : string;
  p_text : string;
  p_source : string;
  p_file_type : string;
  p_chunk_number : Q;
  p_chunk_id : string;
  p_doc_id : string
}.

(** The dict literal of the loop body; its values are evaluated in the
    order of the keys. *)
Definition prepare_document (doc : Chunk) : key_error + PreparedDoc :=
  match dict_item (chunk_metadata doc) "source" with
  | inl e => inl e
  | inr source =>
      match dict_item (chunk_metadata doc) "file_type" with
      | inl e => inl e
      | inr file_type =>
          inr (mkPrepared (chunk doc) (chunk_text doc) source file_type
                 (inject_Z (chunk_number doc)) (chunk_chunk_id doc)
                 (doc_id doc))
      end
  end.

Fixpoint prepare_documents_for_pinecone (documents : list Chunk)
  : key_error + list PreparedDoc :=
  match documents with
  | [] => inr []
  | doc :: rest =>
      match prepare_document doc with
      | inl e => inl e
      | inr processed_doc =>
          match prepare_documents_for_pinecone rest with
          | inl e => inl e
          | inr processed_docs => inr (processed_doc :: processed_docs)
          end
      end
  end.

(** Whether a dict has a key. *)
Definition has_key (d : list (string * string)) (key : string) : bool :=
  existsb (fun kv => String.eqb (fst kv) key) d.

(** A chunk record and the flat record made from it. *)
Definition prepared_from (doc : Chunk) (p : PreparedDoc) : Prop :=
  p_chunk p = chunk doc
  /\ p_text p = chunk_text doc
  /\ p_chunk_id p = chunk_chunk_id doc
  /\ p_doc_id p = doc_id doc
  /\ p_chunk_number p = inject_Z (chunk_number doc)
  /\ dict_item (chunk_metadata doc) "source" = inr (p_source p)
  /\ dict_item (chunk_metadata doc) "file_type" = inr (p_file_type p).

End Indexing.
Import Indexing.

(* ------------------------------------------------------------------ *)
(** * Reference notions for rate-limited embedding *)

Module Reference3.

(** The batch number [a] of [docs]. *)
Definition batch_of (docs : list string) (batch_size : Z) (a : nat)
  : list string :=
  firstn (Z.to_nat batch_size) (skipn (a * Z.to_nat batch_size) docs).

(** The rows of the batches whose request was answered, the first of the
    batches being the request number [n]. *)
Fixpoint kept_rows (embed : string -> vec) (limited : nat -> bool) (n : nat)
    (batches : list (list string)) : list vec :=
  match batches with
  | [] => []
  | batch :: rest =>
      ((if limited n then [] else map embed batch)
       ++ kept_rows embed limited (S n) rest)%list
  end.

(** The requests and pauses of those batches. *)
Fixpoint batch_events (input_type : string) (limited : nat -> bool) (n : nat)
    (batches : list (list string)) : list event :=
  match batches with
  | [] => []
  | batch :: rest =>
      EvEmbed batch input_type
      :: EvSleep (if limited n then 60000 else 500)
      :: batch_events input_type limited (S n) rest
  end.

(** A provider that signals a rate limit on its first request only. *)
Definition first_only (n : nat) : bool := Nat.eqb n 0.

End Reference3.
Import Reference3.

(* ------------------------------------------------------------------ *)
(** * Further worked examples *)

Module Fixtures2.

(** Twenty-seven documents; the text of document [n] has [n + 1]
    letters. *)
Definition numbered_corpus : list Doc :=
  map (fun n => mkDoc (String (ascii_of_nat (65 + n)) "")
                  (string_of_list_ascii (repeat "x"%char (S n))) "corpus")
    (seq 0 27).

End Fixtures2.

(* ------------------------------------------------------------------ *)
(** * retriever.py: [make_batches_for_db] *)

Module Batching.

Section MakeBatches.

Variable embed_provider :
  nat -> list string -> string -> result (list vec).

(** What [asyncio.run] raises when its argument is not a coroutine: a
    [ValueError], or a [RuntimeError] when an event loop is running. *)
Variable asyncio_run_refusal : exn.

(** [asyncio.run(main)] on an array. *)
Definition asyncio_run (main : list vec) : M (list vec) :=
  raise asyncio_run_refusal.

(** One pass of the generator's loop, up to its [yield]. *)
Definition make_batch (data : list Doc) (batch_size : Z)
    (is_cohere_model : bool) (i : Z) : M (list (vec * Doc)) :=
  let batch_docs := slice data i (i + batch_size) in
  let batch_texts := map text batch_docs in
  embeddings <-
    (if is_cohere_model then
       stacked <- batch_embed embed_provider batch_texts
                    "search_document" 25 ;;
       asyncio_run stacked
     else
       (* batch_embed(vectorizer, batch_texts, dimensions=dimensions) *)
       raise (Exn TypeError
                "batch_embed() got an unexpected keyword argument 'dimensions'")) ;;
  ret (combine embeddings batch_docs).

(** The values a generator yields, one per pass, when it is run to its
    end. *)
Fixpoint yield_each {B : Type} (values : list Z) (body : Z -> M B)
  : M (list B) :=
  match values with
  | [] => ret []
  | next :: rest =>
      yielded <- body next ;;
      others <- yield_each rest body ;;
      ret (yielded :: others)
  end.

(** [list(make_batches_for_db(vectorizer, data, batch_size,
    is_cohere_model))]. *)
Definition make_batches_for_db (data : list Doc) (batch_size : Z)
    (is_cohere_model : bool) : M (list (list (vec * Doc))) :=
  starts <- lift (range0 (Z.of_nat (List.length data)) batch_size) ;;
  yield_each starts (make_batch data batch_size is_cohere_model).

End MakeBatches.

End Batching.
Import Batching.

(* ------------------------------------------------------------------ *)
(** * utils.py: the source-code chunker *)

Module CodeChunker.

Local Open Scope string_scope.

Definition nl : string := String "010" "".

(** A node of the tree-sitter syntax tree of a Python module: the field
    name under which it hangs in its parent, if any, and its [type],
    [text] and [children]. *)
Inductive SyntaxNode :=
  mkSyntax (field : option string) (type : string) (node_text : string)
           (children : list SyntaxNode).

Definition s_field (n : SyntaxNode) : option string :=
  match n with mkSyntax f _ _ _ => f end.

Definition s_type (n : SyntaxNode) : string :=
  match n with mkSyntax _ t _ _ => t end.

Definition s_text (n : SyntaxNode) : string :=
  match n with mkSyntax _ _ t _ => t end.

Definition s_children (n : SyntaxNode) : list SyntaxNode :=
  match n with mkSyntax _ _ _ c => c end.

(** [x in (a, b, ...)] and [x in l] on strings. *)
Definition one_of (x : string) (l : list string) : bool :=
  existsb (String.eqb x) l.

Definition has_field (name : string) (n : SyntaxNode) : bool :=
  match s_field n with
  | Some f => String.eqb f name
  | None => false
  end.

Definition has_type (types : list string) (n : SyntaxNode) : bool :=
  one_of (s_type n) types.

(** [node.child_by_field_name(name)]: the first child under that field,
    or [None]. *)
Definition child_by_field_name (name : string) (node : SyntaxNode)
  : option SyntaxNode :=
  find (has_field name) (s_children node).

(** [f(node.child_by_field_name(name))] when there is such a child. *)
Definition with_child {A : Type} (name : string) (f : SyntaxNode -> A)
    (otherwise : A) : list SyntaxNode -> A :=
  fix go (l : list SyntaxNode) : A :=
    match l with
    | [] => otherwise
    | c :: rest => if has_field name c then f c else go rest
    end.

(** [l[n]]. *)
Definition item {A : Type} (l : list A) (n : nat) : result A :=
  match nth_error l n with
  | Some x => inr x
  | None => inl (Exn IndexError "list index out of range")
  end.

(** [x.name] on an [x] that may be [None]. *)
Definition attribute {A : Type} (name : string) (x : option A) : result A :=
  match x with
  | Some a => inr a
  | None =>
      inl (Exn AttributeError
             ("'NoneType' object has no attribute '" ++ name ++ "'"))
  end.

Definition and_then {A B : Type} (r : result A) (f : A -> result B)
  : result B :=
  match r with
  | inl e => inl e
  | inr a => f a
  end.

Declare Scope res_scope.
Delimit Scope res_scope with res.
Notation "x <-- c1 ;; c2" := (and_then c1 (fun x => c2))
  (at level 100, c1 at next level, right associativity) : res_scope.
Local Open Scope res_scope.

(** A [dict] from names to text, by its items in insertion order. *)
Definition dict := list (string * string).

Fixpoint dict_put (key value : string) (d : dict) : dict :=
  match d with
  | [] => [(key, value)]
  | (k, v) :: rest =>
      if String.eqb k key then (k, value) :: rest
      else (k, v) :: dict_put key value rest
  end.

Fixpoint dict_lookup (key : string) (d : dict) : option string :=
  match d with
  | [] => None
  | (k, v) :: rest =>
      if String.eqb k key then Some v else dict_lookup key rest
  end.

(** A [set] of strings, by its elements in insertion order. *)
Definition set_add (x : string) (s : list string) : list string :=
  if one_of x s then s else (s ++ [x])%list.

(** [set(l)]. *)
Definition set_of (l : list string) : list string :=
  fold_left (fun s x => set_add x s) l [].

Definition collect_imports (node : SyntaxNode) : list SyntaxNode :=
  filter (has_type ["import_statement"; "import_from_statement"]%string)
    (s_children node).

(** The inner loop of [build_import_map], which the source writes out for
    both kinds of import statement. *)
Fixpoint bind_imports (imp_text : string) (children : list SyntaxNode)
    (import_map : dict) : result dict :=
  match children with
  | [] => inr import_map
  | child :: rest =>
      if String.eqb (s_type child) "dotted_name" then
        let name := s_text child in
        bind_imports imp_text rest (dict_put name imp_text import_map)
      else if String.eqb (s_type child) "aliased_import" then
        alias <-- item (s_children child) 2 ;;
        bind_imports imp_text rest
          (dict_put (s_text alias) imp_text import_map)
      else bind_imports imp_text rest import_map
  end.

Fixpoint build_import_map_from (import_nodes : list SyntaxNode)
    (import_map : dict) : result dict :=
  match import_nodes with
  | [] => inr import_map
  | imp :: rest =>
      let imp_text := s_text imp in
      import_map <--
        (if String.eqb (s_type imp) "import_from_statement" then
           bind_imports imp_text (skipn 3 (s_children imp)) import_map
         else if String.eqb (s_type imp) "import_statement" then
           bind_imports imp_text (s_children imp) import_map
         else inr import_map) ;;
      build_import_map_from rest import_map
  end.

Definition build_import_map (import_nodes : list SyntaxNode) : result dict :=
  build_import_map_from import_nodes [].

Fixpoint collect_module_variables_from (children : list SyntaxNode)
    (module_variables : list string) : result (list string) :=
  match children with
  | [] => inr module_variables
  | child :: rest =>
      if String.eqb (s_type child) "expression_statement" then
        assignment <-- item (s_children child) 0 ;;
        if String.eqb (s_type assignment) "assignment" then
          match child_by_field_name "left" assignment with
          | Some target =>
              if String.eqb (s_type target) "identifier" then
                let var_name := s_text target in
                collect_module_variables_from rest
                  (module_variables ++ [var_name])%list
              else collect_module_variables_from rest module_variables
          | None => collect_module_variables_from rest module_variables
          end
        else collect_module_variables_from rest module_variables
      else collect_module_variables_from rest module_variables
  end.

Definition collect_module_variables (node : SyntaxNode)
  : result (list string) :=
  collect_module_variables_from (s_children node) [].

Fixpoint collect_identifiers (node : SyntaxNode) (identifiers : list string)
  : list string :=
  match node with
  | mkSyntax _ type node_text children =>
      if String.eqb type "identifier" then set_add node_text identifiers
      else if one_of type ["function_definition"; "class_definition"]%string then
        (* parameters and return type; the body is not processed *)
        let identifiers :=
          with_child "parameters"
            (fun parameters => collect_identifiers parameters identifiers)
            identifiers children in
        with_child "return_type"
          (fun return_type => collect_identifiers return_type identifiers)
          identifiers children
      else
        fold_left (fun identifiers child =>
                     collect_identifiers child identifiers)
          children identifiers
  end.

Fixpoint collect_identifiers_from_type_annotations (node : SyntaxNode)
    (identifiers : list string) : list string :=
  match node with
  | mkSyntax _ type node_text children =>
      if one_of type ["type"; "type_identifier"; "identifier"]%string
      then set_add node_text identifiers
      else
        fold_left (fun identifiers child =>
                     collect_identifiers_from_type_annotations child
                       identifiers)
          children identifiers
  end.

(** The dict [context] that the walk hands down. *)
Record Context := mkContext {
  parent_class : option string;
  parent_function : option string
}.

(** The dict stored under a chunk's ["context"]%string; a key that is not set is
    [None]. *)
Record ChunkContext := mkChunkContext {
  cc_imports : option (list string);
  cc_module_variables : option (list string);
  cc_parent_class : option string;
  cc_parent_function : option string
}.

Record CodeChunk := mkCodeChunk {
  cc_type : string;
  cc_name : string;
  cc_definition : string;
  cc_context : option ChunkContext
}.

Section Walk.

(** The order in which a [set] of strings with the given insertion history
    is iterated; it depends on the hash seed of the process. *)
Variable set_iter : list string -> list string.

Variable import_map : dict.
Variable module_variables : list string.

(** [for ident in identifiers: if ident in import_map:
    used_imports.append(import_map[ident])]. *)
Definition used_imports_of (identifiers : list string) : list string :=
  flat_map (fun ident =>
              match dict_lookup ident import_map with
              | Some imp_text => [imp_text]
              | None => []
              end) (set_iter identifiers).

(** [for ident in identifiers: if ident in module_variables:
    used_module_vars.append(ident)]. *)
Definition used_module_vars_of (identifiers : list string) : list string :=
  filter (fun ident => one_of ident module_variables) (set_iter identifiers).

(** The context dict of a chunk, [None] when no key is set. *)
Definition make_context (used_imports used_module_vars : list string)
    (parent_class parent_function : option string) : option ChunkContext :=
  let imports :=
    match used_imports with
    | [] => None
    | _ :: _ => Some (set_iter (set_of used_imports))
    end in
  let module_vars :=
    match used_module_vars with
    | [] => None
    | _ :: _ => Some used_module_vars
    end in
  match imports, module_vars, parent_class, parent_function with
  | None, None, None, None => None
  | _, _, _, _ =>
      Some (mkChunkContext imports module_vars parent_class parent_function)
  end.

Definition process_decorated_definition (node : SyntaxNode)
    (context : Context) : result (list CodeChunk) :=
  let identifiers := collect_identifiers node [] in
  match find (has_type ["function_definition"; "class_definition"]%string)
          (s_children node) with
  | Some func_def =>
      func_name_node <-- attribute "text"
                           (child_by_field_name "name" func_def) ;;
      let func_name := s_text func_name_node in
      let func_code := s_text node in
      let func_context :=
        make_context (used_imports_of identifiers)
          (used_module_vars_of identifiers)
          (parent_class context) (parent_function context) in
      let is_function := String.eqb (s_type func_def) "function_definition" in
      let type :=
        match parent_class context with
        | Some _ => if is_function then "method" else "class"
        | None => if is_function then "function" else "class"
        end in
      inr [mkCodeChunk type func_name func_code func_context]
  | None => inr []
  end.

Fixpoint process_function (node : SyntaxNode) (context : Context)
  : result (list CodeChunk) :=
  match node with
  | mkSyntax _ _ node_text children =>
      func_name_node <-- attribute "text" (find (has_field "name") children) ;;
      let func_name := s_text func_name_node in
      let func_code := node_text in
      func_body <-- attribute "type" (find (has_field "body") children) ;;
      let identifiers := collect_identifiers func_body [] in
      let identifiers :=
        match find (has_field "parameters") children with
        | Some parameters =>
            collect_identifiers_from_type_annotations parameters identifiers
        | None => identifiers
        end in
      let identifiers :=
        match find (has_field "return_type") children with
        | Some return_type =>
            collect_identifiers_from_type_annotations return_type identifiers
        | None => identifiers
        end in
      let func_context :=
        make_context (used_imports_of identifiers)
          (used_module_vars_of identifiers)
          (parent_class context) (parent_function context) in
      let type :=
        match parent_class context with
        | Some _ => "method"
        | None => "function"
        end in
      (* [result], the function's own chunk *)
      let own_chunk := mkCodeChunk type func_name func_code func_context in
      nested <--
        with_child "body"
          (fun func_body =>
             (fix each (l : list SyntaxNode) : result (list CodeChunk) :=
                match l with
                | [] => inr []
                | child :: rest =>
                    found <--
                      (if String.eqb (s_type child) "function_definition"
                       then
                         let context_copy :=
                           mkContext (parent_class context)
                             (Some func_name) in
                         process_function child context_copy
                       else if String.eqb (s_type child)
                                 "decorated_definition"
                       then process_decorated_definition child context
                       else inr []) ;;
                    others <-- each rest ;;
                    inr (found ++ others)%list
                end) (s_children func_body))
          (inr []) children ;;
      inr (own_chunk :: nested)
  end.

(** The local variables of the loop over a class body. *)
Record class_vars := mkClassVars {
  class_attributes : list string;
  init_method : option SyntaxNode;
  other_methods : list SyntaxNode;
  class_identifiers : list string
}.

(** A method of the class body, under its name. *)
Definition process_class_method (v : class_vars) (child : SyntaxNode)
    (func_def : SyntaxNode) : result class_vars :=
  func_name_node <-- attribute "text"
                       (child_by_field_name "name" func_def) ;;
  let func_name := s_text func_name_node in
  if String.eqb func_name "__init__" then
    inr (mkClassVars (class_attributes v) (Some child) (other_methods v)
           (class_identifiers v))
  else
    inr (mkClassVars (class_attributes v) (init_method v)
           (other_methods v ++ [child])%list (class_identifiers v)).

Definition process_class_child (v : class_vars) (child : SyntaxNode)
  : result class_vars :=
  if String.eqb (s_type child) "expression_statement" then
    assignment <-- item (s_children child) 0 ;;
    if String.eqb (s_type assignment) "assignment" then
      inr (mkClassVars (class_attributes v ++ [s_text assignment])%list
             (init_method v) (other_methods v)
             (collect_identifiers assignment (class_identifiers v)))
    else if String.eqb (s_type assignment) "typed_parameter" then
      inr (mkClassVars (class_attributes v ++ [s_text assignment])%list
             (init_method v) (other_methods v)
             (collect_identifiers_from_type_annotations assignment
                (class_identifiers v)))
    else inr v
  else if String.eqb (s_type child) "function_definition" then
    process_class_method v child child
  else if String.eqb (s_type child) "decorated_definition" then
    match find (has_type ["function_definition"]%string) (s_children child) with
    | Some func_def => process_class_method v child func_def
    | None => inr v
    end
  else inr v.

Fixpoint process_class_children (children : list SyntaxNode) (v : class_vars)
  : result class_vars :=
  match children with
  | [] => inr v
  | child :: rest =>
      v <-- process_class_child v child ;;
      process_class_children rest v
  end.

(** [s.split("\n")]. *)
Fixpoint split_from (line : string) (s : string) : list string :=
  match s with
  | EmptyString => [line]
  | String c rest =>
      if Ascii.eqb c "010" then line :: split_from EmptyString rest
      else split_from (line ++ String c EmptyString)%string rest
  end.

Definition split_newline (s : string) : list string :=
  split_from EmptyString s.

Fixpoint process_methods (methods : list SyntaxNode) (context_copy : Context)
  : result (list CodeChunk) :=
  match methods with
  | [] => inr []
  | method :: rest =>
      found <--
        (if String.eqb (s_type method) "decorated_definition"
         then process_decorated_definition method context_copy
         else process_function method context_copy) ;;
      others <-- process_methods rest context_copy ;;
      inr (found ++ others)%list
  end.

Definition process_class (node : SyntaxNode) (context : Context)
  : result (list CodeChunk) :=
  class_name_node <-- attribute "text" (child_by_field_name "name" node) ;;
  let class_name := s_text class_name_node in
  class_body <-- attribute "children" (child_by_field_name "body" node) ;;
  v <-- process_class_children (s_children class_body)
          (mkClassVars [] None [] []) ;;
  let class_context :=
    make_context (used_imports_of (class_identifiers v))
      (used_module_vars_of (class_identifiers v)) None None in
  let class_def_lines :=
    ([("class " ++ class_name ++ ":")%string]
     ++ map (fun attr => ("    " ++ attr)%string) (class_attributes v)
     ++ match init_method v with
        | Some init =>
            let init_code := (nl ++ nl ++ "    " ++ s_text init)%string in
            split_newline init_code
        | None => []
        end)%list in
  let class_definition := String.concat nl class_def_lines in
  let chunk := mkCodeChunk "class" class_name class_definition class_context in
  methods <-- process_methods (other_methods v)
                (mkContext (Some class_name) (parent_function context)) ;;
  inr (chunk :: methods).

Fixpoint process_root_children (children : list SyntaxNode)
  : result (list CodeChunk) :=
  match children with
  | [] => inr []
  | child :: rest =>
      found <--
        (if has_type ["import_statement"; "import_from_statement"]%string child
         then inr []
         else if String.eqb (s_type child) "class_definition"
         then process_class child (mkContext None None)
         else if String.eqb (s_type child) "function_definition"
         then process_function child (mkContext None None)
         else if String.eqb (s_type child) "decorated_definition"
         then process_decorated_definition child (mkContext None None)
         else inr []) ;;
      others <-- process_root_children rest ;;
      inr (found ++ others)%list
  end.

Definition process_root (node : SyntaxNode) : result (list CodeChunk) :=
  process_root_children (s_children node).

End Walk.

(** [s[:-4]]. *)
Definition drop_last_4 (s : string) : string :=
  string_of_list_ascii (slice_to (list_ascii_of_string s) (-4)).

Definition render_context (chunk_context : ChunkContext) : string :=
  ((match cc_imports chunk_context with
    | Some imports => String.concat nl imports ++ nl
    | None => EmptyString
    end)
   ++ (match cc_module_variables chunk_context with
       | Some module_variables => String.concat nl module_variables ++ nl
       | None => EmptyString
       end)
   ++ (match cc_parent_class chunk_context with
       | Some parent => nl ++ "class: " ++ parent ++ nl
                        ++ "    # ... (more)" ++ nl
       | None => EmptyString
       end)
   ++ (match cc_parent_function chunk_context with
       | Some parent => nl ++ "def: " ++ parent ++ nl
                        ++ "    # ... (more)" ++ nl
       | None => EmptyString
       end))%string.

Definition convert_chunk_to_str (chunk : CodeChunk) : string :=
  let chunk_str :=
    match cc_context chunk with
    | Some chunk_context =>
        if negb (String.eqb (cc_type chunk) "module")
        then (render_context chunk_context ++ nl ++ "    ")%string
        else EmptyString
    | None => EmptyString
    end in
  let chunk_str :=
    if String.eqb (cc_type chunk) "class" then drop_last_4 chunk_str
    else chunk_str in
  (chunk_str ++ cc_definition chunk)%string.

Definition convert_chunks_to_strs (chunks : list CodeChunk) : list string :=
  map convert_chunk_to_str chunks.

Section SourceCode.

Variable sent_tokenize : string -> list string.
Variable tokenize_text : string -> string -> list string.
Variable set_iter : list string -> list string.

(** [get_parser("python").parse(content.encode()).root_node]. *)
Variable parse_python : string -> SyntaxNode.

Definition chunk_source_code (content : string) (chunk_size : Z)
  : result (list string) :=
  let root_node := parse_python content in
  let import_nodes := collect_imports root_node in
  import_map <-- build_import_map import_nodes ;;
  module_variables <-- collect_module_variables root_node ;;
  chunks <-- process_root set_iter import_map module_variables root_node ;;
  let chunks_strs := convert_chunks_to_strs chunks in
  let chunks_strs :=
    filter (fun x => Nat.ltb 1 (List.length (splitlines (strip x))))
      chunks_strs in
  let chunks_strs :=
    map (fun chunk =>
           chunk_simple sent_tokenize tokenize_text chunk chunk_size
             "gpt-4o-mini") chunks_strs in
  inr (flat_map (fun chunk => chunk) chunks_strs).

End SourceCode.

End CodeChunker.

(* ------------------------------------------------------------------ *)
(** * Reference notions for the source-code chunker *)

Module Reference4.

Import CodeChunker.

(** The parents a chunk's context names. *)
Definition parent_class_of (c : CodeChunk) : option string :=
  match cc_context c with
  | Some chunk_context => cc_parent_class chunk_context
  | None => None
  end.

Definition parent_function_of (c : CodeChunk) : option string :=
  match cc_context c with
  | Some chunk_context => cc_parent_function chunk_context
  | None => None
  end.

(** The types a chunk can have under a context with or without a parent
    class. *)
Definition kind_under (parent : option string) (c : CodeChunk) : Prop :=
  match parent with
  | Some _ => cc_type c = "method"%string \/ cc_type c = "class"%string
  | None => cc_type c = "function"%string \/ cc_type c = "class"%string
  end.

(** The number of nodes of a tree. *)
Fixpoint size (n : SyntaxNode) : nat :=
  match n with
  | mkSyntax _ _ _ children => S (list_sum (map size children))
  end.

(** The loop of [process_function] over the children of the body. *)
Definition nested_chunks
    (process_function : SyntaxNode -> Context -> result (list CodeChunk))
    (process_decorated_definition :
       SyntaxNode -> Context -> result (list CodeChunk))
    (func_name : string) (context : Context)
  : list SyntaxNode -> result (list CodeChunk) :=
  fix each (l : list SyntaxNode) : result (list CodeChunk) :=
    match l with
    | [] => inr []
    | child :: rest =>
        and_then
          (if String.eqb (s_type child) "function_definition"
           then process_function child
                  (mkContext (parent_class context) (Some func_name))
           else if String.eqb (s_type child) "decorated_definition"
           then process_decorated_definition child context
           else inr [])
          (fun found =>
             and_then (each rest)
               (fun others => inr (found ++ others)%list))
    end.

(** What the walk keeps for every chunk it emits under a context. *)
Definition under (context : Context) (c : CodeChunk) : Prop :=
  parent_class_of c = parent_class context
  /\ kind_under (parent_class context) c.

(** A [function_definition] or [class_definition] node with the given
    body among its children. *)
Definition definition_node (field : option string) (type node_text : string)
    (before : list SyntaxNode) (body : SyntaxNode) (after : list SyntaxNode)
  : SyntaxNode :=
  mkSyntax field type node_text (before ++ body :: after).

(** The function definition that makes a child of a class body a method:
    the child itself, or the first function definition under a decorator. *)
Definition method_def (child : SyntaxNode) : option SyntaxNode :=
  if String.eqb (s_type child) "expression_statement" then None
  else if String.eqb (s_type child) "function_definition" then Some child
  else if String.eqb (s_type child) "decorated_definition"
  then find (has_type ["function_definition"%string]) (s_children child)
  else None.

Definition method_name (child : SyntaxNode) : option string :=
  match method_def child with
  | Some func_def =>
      option_map s_text (child_by_field_name "name" func_def)
  | None => None
  end.

(** The constructors and the other methods of a class body. *)
Definition is_init (child : SyntaxNode) : bool :=
  match method_name child with
  | Some name => String.eqb name "__init__"
  | None => false
  end.

Definition is_other_method (child : SyntaxNode) : bool :=
  match method_name child with
  | Some name => negb (String.eqb name "__init__")
  | None => false
  end.

(** The attribute line a child of a class body contributes. *)
Definition attribute_of (child : SyntaxNode) : list string :=
  if String.eqb (s_type child) "expression_statement" then
    match s_children child with
    | assignment :: _ =>
        if one_of (s_type assignment) ["assignment"; "typed_parameter"]%string
        then [s_text assignment]
        else []
    | [] => []
    end
  else [].

(** The last element of a list, if any. *)
Definition last_of {A : Type} (l : list A) : option A := hd_error (rev l).

(** The names of the top-level classes of a module. *)
Definition defines_class (root : SyntaxNode) (name : string) : Prop :=
  exists node name_node,
    In node (s_children root)
    /\ s_type node = "class_definition"%string
    /\ child_by_field_name "name" node = Some name_node
    /\ s_text name_node = name.

End Reference4.

(* ------------------------------------------------------------------ *)
(** * A worked module for the source-code chunker *)

Module Fixtures3.

Import CodeChunker.

Local Open Scope string_scope.

Definition leaf (field : option string) (type node_text : string)
  : SyntaxNode :=
  mkSyntax field type node_text [].

Definition ident (field : option string) (name : string) : SyntaxNode :=
  leaf field "identifier" name.

Definition token (t : string) : SyntaxNode := leaf None t t.

(** A statement, with the identifiers it mentions. *)
Definition statement (type node_text : string) (names : list string)
  : SyntaxNode :=
  mkSyntax None type node_text (map (ident None) names).

Definition block (node_text : string) (statements : list SyntaxNode)
  : SyntaxNode :=
  mkSyntax (Some "body") "block" node_text statements.

Definition def (node_text name : string) (parameters : list string)
    (body : SyntaxNode) : SyntaxNode :=
  mkSyntax None "function_definition" node_text
    [token "def"; ident (Some "name") name;
     mkSyntax (Some "parameters") "parameters" "(...)"
       (map (ident None) parameters);
     token ":"; body].

Definition decorated (node_text decorator : string) (inner : SyntaxNode)
  : SyntaxNode :=
  mkSyntax None "decorated_definition" node_text
    [mkSyntax None "decorator" ("@" ++ decorator)
       [token "@"; ident None decorator];
     inner].

(** [import numpy as np] *)
Definition import_numpy : SyntaxNode :=
  mkSyntax None "import_statement" "import numpy as np"
    [token "import";
     mkSyntax (Some "name") "aliased_import" "numpy as np"
       [mkSyntax (Some "name") "dotted_name" "numpy" [ident None "numpy"];
        token "as"; ident (Some "alias") "np"]].

(** [from functools import cache] *)
Definition import_cache : SyntaxNode :=
  mkSyntax None "import_from_statement" "from functools import cache"
    [token "from";
     mkSyntax (Some "module_name") "dotted_name" "functools"
       [ident None "functools"];
     token "import";
     mkSyntax (Some "name") "dotted_name" "cache" [ident None "cache"]].

(** [LIMIT = 3] *)
Definition assign_limit : SyntaxNode :=
  mkSyntax None "expression_statement" "LIMIT = 3"
    [mkSyntax None "assignment" "LIMIT = 3"
       [ident (Some "left") "LIMIT"; token "=";
        leaf (Some "right") "integer" "3"]].

(** [def half(x): return x / 2], nested in [area]. *)
Definition def_half : SyntaxNode :=
  def "def half(x): return x / 2" "half" ["x"]
    (block "return x / 2" [statement "return_statement" "return x / 2" ["x"]]).

(** The method [area], which uses [np] and defines [half]. *)
Definition def_area : SyntaxNode :=
  def ("def area(self):" ++ nl ++ "        def half(x): return x / 2" ++ nl
       ++ "        return half(np.pi)")
    "area" ["self"]
    (block "..."
       [def_half;
        statement "return_statement" "return half(np.pi)"
          ["half"; "np"; "pi"]]).

(** [def __init__(self): self.n = 0] *)
Definition def_init : SyntaxNode :=
  def ("def __init__(self):" ++ nl ++ "        self.n = 0")
    "__init__" ["self"]
    (block "self.n = 0"
       [statement "expression_statement" "self.n = 0" ["self"; "n"]]).

(** The decorated method [name], whose body uses [np]. *)
Definition def_name : SyntaxNode :=
  decorated ("@cache" ++ nl ++ "    def name(self): return np.str_(1)") "cache"
    (def "def name(self): return np.str_(1)" "name" ["self"]
       (block "return np.str_(1)"
          [statement "return_statement" "return np.str_(1)"
             ["np"; "str_"]])).

(** [class Shape(Base)] with an attribute, a constructor and two methods. *)
Definition class_shape : SyntaxNode :=
  mkSyntax None "class_definition" "class Shape(Base): ..."
    [token "class"; ident (Some "name") "Shape";
     mkSyntax (Some "superclasses") "argument_list" "(Base)"
       [ident None "Base"];
     token ":";
     block "..."
       [mkSyntax None "expression_statement" "sides = LIMIT"
          [mkSyntax None "assignment" "sides = LIMIT"
             [ident (Some "left") "sides"; token "=";
              ident (Some "right") "LIMIT"]];
        def_init; def_area; def_name]].

(** The body of [load] as written, and another body. *)
Definition load_body : SyntaxNode :=
  block "return np.load(path)"
    [statement "return_statement" "return np.load(path)"
       ["np"; "load"; "path"]].

Definition other_body : SyntaxNode :=
  block "return None" [statement "return_statement" "return None" []].

(** The decorated function [load]. *)
Definition def_load (body : SyntaxNode) : SyntaxNode :=
  decorated ("@cache" ++ nl ++ "def load(path): return np.load(path)")
    "cache"
    (def "def load(path): return np.load(path)" "load" ["path"] body).

(** [def inner(): return 1] under [@cache], nested in [run]. *)
Definition def_inner : SyntaxNode :=
  decorated ("@cache" ++ nl ++ "    def inner(): return 1") "cache"
    (def "def inner(): return 1" "inner" []
       (block "return 1" [statement "return_statement" "return 1" []])).

Definition def_run : SyntaxNode :=
  def ("def run():" ++ nl ++ "    @cache" ++ nl
       ++ "    def inner(): return 1" ++ nl ++ "    return inner()")
    "run" []
    (block "..."
       [def_inner; def_half;
        statement "return_statement" "return inner()" ["inner"]]).

(** [def one(): return 1] *)
Definition def_one : SyntaxNode :=
  def "def one(): return 1" "one" []
    (block "return 1" [statement "return_statement" "return 1" []]).

Definition module_node : SyntaxNode :=
  mkSyntax None "module" "..."
    [import_numpy; import_cache; assign_limit; class_shape;
     def_load load_body; def_run; def_one].

(** A module of imports and statements only, and a module that holds
    nothing but [one]. *)
Definition script_node : SyntaxNode :=
  mkSyntax None "module" "..." [import_numpy; import_cache; assign_limit].

Definition one_liner_node : SyntaxNode :=
  mkSyntax None "module" "def one(): return 1" [def_one].

(** The import map and the module variables of [module_node]. *)
Definition module_imports : dict :=
  [("np", "import numpy as np"); ("cache", "from functools import cache")].

Definition module_vars : list string := ["LIMIT"].

(** Sets iterated in insertion order. *)
Definition insertion_order (s : list string) : list string := s.

End Fixtures3.

Import CodeChunker Reference4.

(* ------------------------------------------------------------------ *)
(** * tools.py: [SearchDocumentation] *)

Module Tools.

Section SearchDocumentation.

(** The search engine and the reranker of the [RetrieverWithReranker]
    that [model_post_init] builds. *)
Variable search_engine : string -> pyint -> M (list SearchResult).
Variable reranker :
  string -> list SearchResult -> pyint -> M (list SearchResult).

(** [utils.format_doc(result)] with its default arguments; it reads keys
    of the stored metadata that [SearchResult] does not keep. *)
Variable format_doc : SearchResult -> result string.

(** [[format_doc(result) for result in results]]. *)
Fixpoint format_docs (results : list SearchResult) : result (list string) :=
  match results with
  | [] => inr []
  | r :: rest =>
      match format_doc r with
      | inl e => inl e
      | inr formatted =>
          match format_docs rest with
          | inl e => inl e
          | inr others => inr (formatted :: others)
          end
      end
  end.

(** [SearchDocumentation.run]; the value is the text stored under
    ["results"]. *)
Definition SearchDocumentation_run (search_query : string)
    (num_results : Z) : M string :=
  results <- RetrieverWithReranker_invoke search_engine reranker
               search_query (Some (num_results * 2)) (Some num_results) ;;
  formatted <- lift (format_docs results) ;;
  ret (String.concat (String "010" (String "010" EmptyString)) formatted).

End SearchDocumentation.

End Tools.
Import Tools.

(* ------------------------------------------------------------------ *)
(** * retriever.py: [VectorStoreSearchEngine.fit] *)

Module VectorStore.

(** The calls that change the remote index. *)
Inductive store_call :=
| CreateIndex (name : string) (dimension : Z)
| Upsert (vectors : list (string * vec * Doc)).

(** The engine, the calls made to the store and the log of the provider
    when [fit] returns or raises. *)
Record fit_state := mkFitState {
  fit_self : VectorStoreSearchEngine;
  fit_calls : list store_call;
  fit_log : list event
}.

Section Fit.

Variable embed_provider :
  nat -> list string -> string -> result (list vec).

(** [str(n)] on an [int]. *)
Variable str_int : Z -> string.

(** The answers of the Pinecone client: [list_indexes().names()],
    [create_index(...)] and [upsert(vectors=...)]. *)
Variable list_indexes_names : result (list string).
Variable create_index : string -> Z -> result unit.
Variable index_upsert : list (string * vec * Doc) -> result unit.

(** The list comprehension that builds [vectors]; a document has no key
    ["vector"] to leave out of its metadata. *)
Definition make_vectors (i : Z) (embeddings : list vec) (batch : list Doc)
  : list (string * vec * Doc) :=
  map (fun '(idx, (embedding, doc)) => (str_int (i + idx), embedding, doc))
    (enumerate (combine embeddings batch)).

Fixpoint fit_batches (data : list Doc) (starts : list Z) (s : fit_state)
  : result unit * fit_state :=
  match starts with
  | [] => (inr tt, s)
  | i :: rest =>
      let batch := slice data i (i + 50) in
      let texts := map text batch in
      match batch_embed embed_provider texts "passage" 25 (fit_log s) with
      | (inl e, log) => (inl e, mkFitState (fit_self s) (fit_calls s) log)
      | (inr embeddings, log) =>
          let vectors := make_vectors i embeddings batch in
          let s :=
            mkFitState (fit_self s) (fit_calls s ++ [Upsert vectors]) log in
          match index_upsert vectors with
          | inl e => (inl e, s)
          | inr _ => fit_batches data rest s
          end
      end
  end.

(** [fit], for an engine whose [_index_name] and [_dimension] are the
    given ones. *)
Definition VectorStoreSearchEngine_fit (index_name : string) (dimension : Z)
    (self : VectorStoreSearchEngine) (data : list Doc) (log : list event)
  : result unit * fit_state :=
  match list_indexes_names with
  | inl e => (inl e, mkFitState self [] log)
  | inr names =>
      let missing := negb (existsb (String.eqb index_name) names) in
      let calls :=
        if missing then [CreateIndex index_name dimension] else [] in
      match (if missing then create_index index_name dimension
             else inr tt) with
      | inl e => (inl e, mkFitState self calls log)
      | inr _ =>
          let self := mkStore (Some tt) in
          match range0 (Z.of_nat (List.length data)) 50 with
          | inl e => (inl e, mkFitState self calls log)
          | inr starts => fit_batches data starts (mkFitState self calls log)
          end
      end
  end.

End Fit.

(** The vectors of the documents of a list, numbered from [start]. *)
Definition numbered (str_int : Z -> string) (embed : string -> vec)
    (start : Z) (docs : list Doc) : list (string * vec * Doc) :=
  map (fun '(idx, doc) => (str_int (start + idx), embed (text doc), doc))
    (enumerate docs).

(** The batch number [a] of a corpus. *)
Definition corpus_batch (data : list Doc) (a : nat) : list Doc :=
  firstn 50 (skipn (a * 50) data).

End VectorStore.
Import VectorStore.

(* ------------------------------------------------------------------ *)
(** * A worked corpus for the vector store *)

Module Fixtures4.

(** [str] on an [int]: its decimal digits. *)
Definition decimal (n : Z) : string := NilZero.string_of_int (Z.to_int n).

(** Fifty-two documents; the text of document [n] has [n + 1] letters. *)
Definition long_corpus : list Doc :=
  map (fun n => mkDoc (decimal (Z.of_nat n))
                  (string_of_list_ascii (repeat "x"%char (S n))) "corpus")
    (seq 0 52).

End Fixtures4.

(* ------------------------------------------------------------------ *)
(** * utils.py: [convert_contents_to_text] *)

Module PdfText.

Definition is_digit (c : ascii) : bool :=
  let n := nat_of_ascii c in (Nat.leb 48 n && Nat.leb n 57)%bool.

Definition is_newline (c : ascii) : bool := Ascii.eqb c "010".

(** The characters before the first line feed of a text, and the text
    after that line feed when there is one. *)
Fixpoint break_line (s : string) : string * option string :=
  match s with
  | EmptyString => (EmptyString, None)
  | String c rest =>
      if is_newline c then (EmptyString, Some rest)
      else let (line, after) := break_line rest in (String c line, after)
  end.

(** Whether [\| Q\d 20\d{2} Form 10-Q \|] matches at the start of a
    text. *)
Definition header_at (s : string) : bool :=
  match s with
  | String "|" (String " " (String "Q" (String d1 (String " "
      (String "2" (String "0" (String d2 (String d3 rest)))))))) =>
      (is_digit d1 && is_digit d2 && is_digit d3
       && String.prefix " Form 10-Q |" rest)%bool
  | _ => false
  end.

Fixpoint has_header (line : string) : bool :=
  (header_at line
   || match line with
      | String _ rest => has_header rest
      | EmptyString => false
      end)%bool.

(** [re.sub(r'\n.*?\| Q\d 20\d{2} Form 10-Q \|.*?\n', '\n', text)]: a
    line feed, a line that holds the page header, and the line feed that
    ends it become one line feed; the search goes on after the match. *)
Fixpoint drop_headers (fuel : nat) (s : string) : string :=
  match fuel with
  | O => s
  | S fuel =>
      match s with
      | EmptyString => EmptyString
      | String c rest =>
          if is_newline c then
            match break_line rest with
            | (line, Some after) =>
                if has_header line
                then String "010" (drop_headers fuel after)
                else String c (drop_headers fuel rest)
            | (_, None) => String c (drop_headers fuel rest)
            end
          else String c (drop_headers fuel rest)
      end
  end.

Definition remove_headers (text : string) : string :=
  drop_headers (String.length text) text.

(** [re.sub(r'\$\s+', '$ ', text)]; [skipping] holds inside the white
    space after a dollar sign that was replaced. *)
Fixpoint dollar_spacing (skipping : bool) (s : string) : string :=
  match s with
  | EmptyString => EmptyString
  | String c rest =>
      if (skipping && is_space c)%bool then dollar_spacing true rest
      else if (Ascii.eqb c "$"
               && match rest with
                  | String c' _ => is_space c'
                  | EmptyString => false
                  end)%bool
      then String "$" (String " " (dollar_spacing true rest))
      else String c (dollar_spacing false rest)
  end.

(** [re.sub(r'(\d),(\d)', r'\1\2', text)]. *)
Fixpoint digit_commas (s : string) : string :=
  match s with
  | EmptyString => EmptyString
  | String d1 rest =>
      match rest with
      | String "," (String d2 rest') =>
          if (is_digit d1 && is_digit d2)%bool
          then String d1 (String d2 (digit_commas rest'))
          else String d1 (digit_commas rest)
      | _ => String d1 (digit_commas rest)
      end
  end.

(** [re.sub(r'\s{2,}', ' ', text)]; [in_run] holds inside a run of white
    space that was replaced. *)
Fixpoint collapse_whitespace (in_run : bool) (s : string) : string :=
  match s with
  | EmptyString => EmptyString
  | String c rest =>
      if is_space c then
        if in_run then collapse_whitespace true rest
        else
          match rest with
          | String c' _ =>
              if is_space c'
              then String " " (collapse_whitespace true rest)
              else String c (collapse_whitespace false rest)
          | EmptyString => String c EmptyString
          end
      else String c (collapse_whitespace false rest)
  end.

(** [re.sub(r'\n{3,}', '\n\n', text)]; [in_run] holds inside a run of
    line feeds that was replaced. *)
Fixpoint collapse_newlines (in_run : bool) (s : string) : string :=
  match s with
  | EmptyString => EmptyString
  | String c rest =>
      if is_newline c then
        if in_run then collapse_newlines true rest
        else
          match rest with
          | String c1 (String c2 _) =>
              if (is_newline c1 && is_newline c2)%bool
              then String "010" (String "010" (collapse_newlines true rest))
              else String c (collapse_newlines false rest)
          | _ => String c (collapse_newlines false rest)
          end
      else String c (collapse_newlines false rest)
  end.

Section Convert.

(** The branch for the other file types: [frontmatter.parse],
    [markdown.markdown] and BeautifulSoup's [get_text]. *)
Variable markdown_text : string -> string.

Definition convert_contents_to_text (contents file_type : string) : string :=
  if String.eqb file_type "pdf" then
    let text := contents in
    let text := remove_headers text in
    let text := dollar_spacing false text in
    let text := digit_commas text in
    (* [re.sub(r'', '', text)] changes nothing *)
    let text := collapse_whitespace false text in
    let text := collapse_newlines false text in
    strip text
  else markdown_text contents.

End Convert.

(** No two white-space characters side by side. *)
Definition head_space (s : string) : bool :=
  match s with
  | String c _ => is_space c
  | EmptyString => false
  end.

Fixpoint single_spaced (s : string) : bool :=
  match s with
  | EmptyString => true
  | String c rest =>
      (negb (is_space c && head_space rest) && single_spaced rest)%bool
  end.

(** A text without line feed. *)
Definition one_line (s : string) : Prop :=
  forallb (fun c => negb (is_newline c)) (list_ascii_of_string s) = true.

End PdfText.
Import PdfText.

(* ------------------------------------------------------------------ *)
(** * A module whose function reads two module variables *)

Module Fixtures5.

Import CodeChunker Fixtures3.

Local Open Scope string_scope.

(** [name = value] at module level. *)
Definition assign (name value : string) : SyntaxNode :=
  mkSyntax None "expression_statement" (name ++ " = " ++ value)
    [mkSyntax None "assignment" (name ++ " = " ++ value)
       [ident (Some "left") name; token "=";
        leaf (Some "right") "integer" value]].

(** [def total(): return A + B], the body on a line of its own. *)
Definition def_total : SyntaxNode :=
  def ("def total():" ++ nl ++ "    return A + B") "total" []
    (block "return A + B"
       [mkSyntax None "return_statement" "return A + B"
          [token "return";
           mkSyntax None "binary_operator" "A + B"
             [ident (Some "left") "A"; token "+";
              ident (Some "right") "B"]]]).

Definition two_globals_source : string :=
  "A = 1" ++ nl ++ "B = 2" ++ nl ++ "def total():" ++ nl
  ++ "    return A + B".

Definition two_globals_node : SyntaxNode :=
  mkSyntax None "module" two_globals_source
    [assign "A" "1"; assign "B" "2"; def_total].

(** The parser, on this source; any other text is read as a module
    without statements. *)
Definition parse_two_globals (content : string) : SyntaxNode :=
  if String.eqb content two_globals_source then two_globals_node
  else mkSyntax None "module" content [].

(** Two interpreter processes: one iterates a set of strings in insertion
    order, the other in the reverse order. *)
Definition seeded_iter (seed : bool) (s : list string) : list string :=
  if seed then s else rev s.

(** [chunk_source_code] in the process of the given seed. *)
Definition seeded_chunk_source_code (seed : bool) (content : string)
    (chunk_size : Z) : list string :=
  match chunk_source_code Fixtures.stop_sentences Fixtures.chars_tokenizer
          (seeded_iter seed) parse_two_globals content chunk_size with
  | inr chunks => chunks
  | inl _ => []
  end.

Definition python_dataset : list Document :=
  [mkDocument two_globals_source "python" [("source", "totals.py")]].

End Fixtures5.

(* ================================================================== *)
(** * Part II: properties *)

(* ------------------------------------------------------------------ *)
(** * Properties of the orchestrators: [top_k] / [top_n] derivation *)

Section DerivationFacts.

Variable search_engine : string -> pyint -> M (list SearchResult).
Variable sparse_search_engine : string -> pyint -> M (list SearchResult).
Variable dense_search_engine : string -> pyint -> M (list SearchResult).
Variable reranker :
  string -> list SearchResult -> pyint -> M (list SearchResult).

(** Both orchestrators carry the same [if] statement. *)
Lemma derive_same (top_k top_n : pyint) :
  HybridRetrieverWithReranker_derive top_k top_n
  = RetrieverWithReranker_derive top_k top_n.
Proof. reflexivity. Qed.

(** Once the derivation yields [(breadth, final)], [invoke] is the search
    at [breadth] followed by the rerank at [final]. *)
Lemma RetrieverWithReranker_invoke_run query top_k top_n breadth final log :
  RetrieverWithReranker_derive top_k top_n = inr (breadth, final) ->
  RetrieverWithReranker_invoke search_engine reranker query top_k top_n log
  = (retrievals <- search_engine query breadth ;;
     reranker query retrievals final) log.
Proof.
  intros H. unfold RetrieverWithReranker_invoke, bind, lift, ret.
  rewrite H.
  destruct (search_engine query breadth log) as [[e | r] log1]; auto.
  destruct (reranker query r final log1) as [[e | r'] log2]; reflexivity.
Qed.

Lemma HybridRetrieverWithReranker_invoke_run
    query top_k top_n breadth final log :
  HybridRetrieverWithReranker_derive top_k top_n = inr (breadth, final) ->
  HybridRetrieverWithReranker_invoke sparse_search_engine
    dense_search_engine reranker query top_k top_n log
  = (sparse_retrievals <- sparse_search_engine query breadth ;;
     dense_retrievals <- dense_search_engine query breadth ;;
     reranker query (dedupe (sparse_retrievals ++ dense_retrievals)) final)
      log.
Proof.
  intros H. unfold HybridRetrieverWithReranker_invoke, bind, lift, ret.
  rewrite H.
  destruct (sparse_search_engine query breadth log) as [[e | s] log1]; auto.
  destruct (dense_search_engine query breadth log1) as [[e | d] log2]; auto.
  destruct (reranker query (dedupe (s ++ d)) final log2) as [[e | r'] log3];
    reflexivity.
Qed.

(** When the derivation raises, [invoke] raises the same exception and
    calls nothing. *)
Lemma RetrieverWithReranker_invoke_raise query top_k top_n e log :
  RetrieverWithReranker_derive top_k top_n = inl e ->
  RetrieverWithReranker_invoke search_engine reranker query top_k top_n log
  = (inl e, log).
Proof.
  intros H. unfold RetrieverWithReranker_invoke, bind, lift. rewrite H.
  reflexivity.
Qed.

Lemma HybridRetrieverWithReranker_invoke_raise query top_k top_n e log :
  HybridRetrieverWithReranker_derive top_k top_n = inl e ->
  HybridRetrieverWithReranker_invoke sparse_search_engine
    dense_search_engine reranker query top_k top_n log
  = (inl e, log).
Proof.
  intros H. unfold HybridRetrieverWithReranker_invoke, bind, lift. rewrite H.
  reflexivity.
Qed.

Lemma truthy_nonzero (k : Z) : k <> 0 -> truthy (Some k) = true.
Proof.
  intros H. simpl. destruct (Z.eqb_spec k 0); [contradiction | reflexivity].
Qed.

Lemma derive_top_k_only (k : Z) :
  k <> 0 ->
  RetrieverWithReranker_derive (Some k) None = inr (Some (2 * k), Some k).
Proof.
  intros H. unfold RetrieverWithReranker_derive.
  rewrite (truthy_nonzero k H).
  replace (2 * k) with (k * 2) by lia. reflexivity.
Qed.

Lemma derive_top_n_only (n : Z) :
  n <> 0 ->
  RetrieverWithReranker_derive None (Some n) = inr (Some (2 * n), Some n).
Proof.
  intros H. unfold RetrieverWithReranker_derive.
  rewrite (truthy_nonzero n H).
  replace (2 * n) with (n * 2) by lia. reflexivity.
Qed.

Lemma derive_both_equal (k : Z) :
  RetrieverWithReranker_derive (Some k) (Some k)
  = inr (Some (2 * k), Some k).
Proof.
  unfold RetrieverWithReranker_derive.
  replace (2 * k) with (k * 2) by lia.
  destruct (truthy (Some k)); cbn [andb negb py_eq py_mul];
    rewrite ?Z.eqb_refl; reflexivity.
Qed.

Lemma derive_both_differ (k n : Z) :
  k <> 0 -> n <> 0 -> k <> n ->
  RetrieverWithReranker_derive (Some k) (Some n) = inr (Some 10, Some 5).
Proof.
  intros Hk Hn Hkn. unfold RetrieverWithReranker_derive.
  rewrite (truthy_nonzero k Hk), (truthy_nonzero n Hn). simpl.
  destruct (Z.eqb_spec k n); [contradiction | reflexivity].
Qed.

(** The derivation raises only when both arguments are missing. *)
Lemma derive_total (top_k top_n : pyint) :
  top_k <> None \/ top_n <> None ->
  exists breadth final,
    RetrieverWithReranker_derive top_k top_n
    = inr (Some breadth, Some final).
Proof.
  intros H. unfold RetrieverWithReranker_derive.
  destruct top_k as [k |], top_n as [n |]; simpl.
  - destruct (negb (k =? 0)), (negb (n =? 0)); simpl; eauto;
      destruct (k =? n); eauto.
  - destruct (negb (k =? 0)); simpl; eauto.
  - destruct (negb (n =? 0)); simpl; eauto.
  - destruct H; congruence.
Qed.

End DerivationFacts.

(** C1 (amended): for both [RetrieverWithReranker.invoke] and
    [HybridRetrieverWithReranker.invoke], a nonzero [top_k] given alone
    yields breadth [2 * top_k] and final [top_k]; a nonzero [top_n] given
    alone yields breadth [2 * top_n] and final [top_n]; both given and equal
    yield breadth [2 * top_k] and final [top_k]; and the pair so derived is
    what the search engines and the reranker are called with. *)
Theorem derivation_table (k : Z) :
  (k <> 0 ->
   RetrieverWithReranker_derive (Some k) None = inr (Some (2 * k), Some k)
   /\ HybridRetrieverWithReranker_derive (Some k) None
      = inr (Some (2 * k), Some k)
   /\ RetrieverWithReranker_derive None (Some k)
      = inr (Some (2 * k), Some k)
   /\ HybridRetrieverWithReranker_derive None (Some k)
      = inr (Some (2 * k), Some k))
  /\ RetrieverWithReranker_derive (Some k) (Some k)
     = inr (Some (2 * k), Some k)
  /\ HybridRetrieverWithReranker_derive (Some k) (Some k)
     = inr (Some (2 * k), Some k)
  /\ (forall search_engine reranker query top_k top_n breadth final log,
         RetrieverWithReranker_derive top_k top_n = inr (breadth, final) ->
         RetrieverWithReranker_invoke search_engine reranker query
           top_k top_n log
         = (retrievals <- search_engine query breadth ;;
            reranker query retrievals final) log)
  /\ (forall sparse dense reranker query top_k top_n breadth final log,
         HybridRetrieverWithReranker_derive top_k top_n
         = inr (breadth, final) ->
         HybridRetrieverWithReranker_invoke sparse dense reranker query
           top_k top_n log
         = (sparse_retrievals <- sparse query breadth ;;
            dense_retrievals <- dense query breadth ;;
            reranker query (dedupe (sparse_retrievals ++ dense_retrievals))
              final) log).
Proof.
  split; [intros Hk | ].
  - change HybridRetrieverWithReranker_derive
      with RetrieverWithReranker_derive.
    repeat split;
      auto using derive_top_k_only, derive_top_n_only.
  - change HybridRetrieverWithReranker_derive
      with RetrieverWithReranker_derive at 1.
    repeat split; try apply derive_both_equal.
    + intros. now apply RetrieverWithReranker_invoke_run.
    + intros. now apply HybridRetrieverWithReranker_invoke_run.
Qed.

(** [top_k=5] alone yields (10, 5) and [top_k=top_n=6] yields (12, 6). *)
Lemma derivation_table_witness :
  RetrieverWithReranker_derive (Some 5) None = inr (Some 10, Some 5)
  /\ HybridRetrieverWithReranker_derive (Some 5) None
     = inr (Some 10, Some 5)
  /\ RetrieverWithReranker_derive (Some 6) (Some 6) = inr (Some 12, Some 6)
  /\ HybridRetrieverWithReranker_derive (Some 6) (Some 6)
     = inr (Some 12, Some 6).
Proof.
  destruct (derivation_table 5) as [H5 _].
  destruct H5 as (A & B & _); [lia | ].
  destruct (derivation_table 6) as (_ & C & D & _).
  repeat split; assumption.
Defined.

(** C1, as stated, fails: called with no arguments, the derivation reaches
    [top_k * 2] with [top_k = None] and raises [TypeError] instead of
    yielding (10, 5); and [top_k=0] alone yields (10, 5), not (0, 0). *)
Lemma derivation_table_counterexample :
  RetrieverWithReranker_derive None None
  = inl (Exn TypeError
           "unsupported operand type(s) for *: 'NoneType' and 'int'")
  /\ HybridRetrieverWithReranker_derive None None
     <> inr (Some 10, Some 5)
  /\ RetrieverWithReranker_derive (Some 0) None
     <> inr (Some (2 * 0), Some 0).
Proof. repeat split; vm_compute; congruence. Qed.

(** C10: an explicit 0 for [top_k] (with [top_n] unspecified) or for
    [top_n] (with [top_k] unspecified) is falsy like a missing argument,
    and both orchestrators then search at breadth 10 and rerank to 5. *)
Theorem zero_argument_uses_defaults :
  truthy (Some 0) = truthy None
  /\ RetrieverWithReranker_derive (Some 0) None = inr (Some 10, Some 5)
  /\ RetrieverWithReranker_derive None (Some 0) = inr (Some 10, Some 5)
  /\ HybridRetrieverWithReranker_derive (Some 0) None
     = inr (Some 10, Some 5)
  /\ HybridRetrieverWithReranker_derive None (Some 0)
     = inr (Some 10, Some 5)
  /\ (forall search_engine reranker query top_k top_n log,
         (top_k, top_n) = (Some 0, None) \/ (top_k, top_n) = (None, Some 0) ->
         RetrieverWithReranker_invoke search_engine reranker query
           top_k top_n log
         = (retrievals <- search_engine query (Some 10) ;;
            reranker query retrievals (Some 5)) log)
  /\ (forall sparse dense reranker query top_k top_n log,
         (top_k, top_n) = (Some 0, None) \/ (top_k, top_n) = (None, Some 0) ->
         HybridRetrieverWithReranker_invoke sparse dense reranker query
           top_k top_n log
         = (sparse_retrievals <- sparse query (Some 10) ;;
            dense_retrievals <- dense query (Some 10) ;;
            reranker query (dedupe (sparse_retrievals ++ dense_retrievals))
              (Some 5)) log).
Proof.
  repeat split; try reflexivity.
  - intros se rr q tk tn log [E | E]; inversion E; subst;
      now apply RetrieverWithReranker_invoke_run.
  - intros sp de rr q tk tn log [E | E]; inversion E; subst;
      now apply HybridRetrieverWithReranker_invoke_run.
Qed.

(** [top_k=0] alone, over a recording engine and a reranker that keeps the
    first documents: the search is made at breadth 10 and 5 results come
    back. *)
Lemma zero_argument_uses_defaults_witness :
  let run :=
    RetrieverWithReranker_invoke
      (Fixtures.recording_engine "engine" Fixtures.ranking12)
      (Reranker_invoke Fixtures.keep_first_provider)
      "query" (Some 0) None [] in
  hd_error (snd run) = Some (EvSearch "engine" "query" (Some 10))
  /\ exists reranked, fst run = inr reranked
                      /\ List.length reranked = 5%nat.
Proof.
  destruct zero_argument_uses_defaults as (_ & _ & _ & _ & _ & H & _).
  cbv zeta.
  rewrite (H (Fixtures.recording_engine "engine" Fixtures.ranking12)
             (Reranker_invoke Fixtures.keep_first_provider)
             "query"%string (Some 0) None [] (or_introl eq_refl)).
  split; [reflexivity | ].
  eexists. split; reflexivity.
Defined.

(** C6 (amended): when both [top_k] and [top_n] are given, nonzero and
    different (so also when [top_k < top_n]), the request is not rejected:
    both orchestrators replace the requested values by breadth 10 and final
    count 5, call their search engines with breadth 10 and the reranker with
    final count 5. *)
Theorem unequal_arguments_fall_back (k n : Z) :
  k <> 0 -> n <> 0 -> k <> n ->
  RetrieverWithReranker_derive (Some k) (Some n) = inr (Some 10, Some 5)
  /\ HybridRetrieverWithReranker_derive (Some k) (Some n)
     = inr (Some 10, Some 5)
  /\ (forall search_engine reranker query log,
         RetrieverWithReranker_invoke search_engine reranker query
           (Some k) (Some n) log
         = (retrievals <- search_engine query (Some 10) ;;
            reranker query retrievals (Some 5)) log)
  /\ (forall sparse dense reranker query log,
         HybridRetrieverWithReranker_invoke sparse dense reranker query
           (Some k) (Some n) log
         = (sparse_retrievals <- sparse query (Some 10) ;;
            dense_retrievals <- dense query (Some 10) ;;
            reranker query (dedupe (sparse_retrievals ++ dense_retrievals))
              (Some 5)) log).
Proof.
  intros Hk Hn Hkn.
  pose proof (derive_both_differ k n Hk Hn Hkn) as D.
  repeat split; try exact D.
  - intros. now apply RetrieverWithReranker_invoke_run.
  - intros. now apply HybridRetrieverWithReranker_invoke_run.
Qed.

Lemma unequal_arguments_fall_back_witness :
  RetrieverWithReranker_derive (Some 3) (Some 20) = inr (Some 10, Some 5).
Proof.
  apply (unequal_arguments_fall_back 3 20); lia.
Defined.

(** C6, as stated, fails: asked for breadth 3 and 20 final results, the
    orchestrator raises nothing, searches at breadth 10 and returns 5
    results. *)
Lemma unequal_arguments_not_rejected :
  let run :=
    RetrieverWithReranker_invoke
      (Fixtures.recording_engine "engine" Fixtures.ranking12)
      (Reranker_invoke Fixtures.keep_first_provider)
      "query" (Some 3) (Some 20) [] in
  (exists reranked, fst run = inr reranked /\ List.length reranked = 5%nat)
  /\ hd_error (snd run) = Some (EvSearch "engine" "query" (Some 10)).
Proof.
  vm_compute. split; [ | reflexivity].
  eexists. split; reflexivity.
Qed.

(* ------------------------------------------------------------------ *)
(** * Properties of the hybrid fusion *)

Section FusionFacts.

Lemma dict_set_keys d key value :
  map fst (dict_set d key value)
  = if existsb (String.eqb key) (map fst d) then map fst d
    else (map fst d ++ [key])%list.
Proof.
  induction d as [| [k v] d IH]; simpl; [reflexivity | ].
  rewrite (String.eqb_sym key k).
  destruct (String.eqb k key); simpl; [reflexivity | ].
  rewrite IH. destruct (existsb (String.eqb key) (map fst d)); reflexivity.
Qed.

Lemma existsb_eqb_In key (keys : list string) :
  existsb (String.eqb key) keys = true <-> In key keys.
Proof.
  rewrite existsb_exists. split.
  - intros (x & Hin & E). apply String.eqb_eq in E. now subst.
  - intros Hin. exists key. split; [assumption | apply String.eqb_refl].
Qed.

Lemma dict_set_NoDup d key value :
  NoDup (map fst d) -> NoDup (map fst (dict_set d key value)).
Proof.
  intros H. rewrite dict_set_keys.
  destruct (existsb (String.eqb key) (map fst d)) eqn:E; [assumption | ].
  apply NoDup_app; [assumption | constructor; [intros [] | constructor] | ].
  intros x Hx [<- | []].
  apply existsb_eqb_In in Hx. congruence.
Qed.

Lemma dict_set_well_keyed d value :
  well_keyed d -> well_keyed (dict_set d (result_id value) value).
Proof.
  unfold well_keyed. induction 1 as [| [k v] d Hk Hd IH]; simpl.
  - repeat constructor.
  - destruct (String.eqb_spec k (result_id value)) as [-> | Hne].
    + constructor; [reflexivity | assumption].
    + constructor; assumption.
Qed.

Lemma dict_get_set d key value key' :
  dict_get (dict_set d key value) key'
  = if String.eqb key key' then Some value else dict_get d key'.
Proof.
  unfold dict_get. induction d as [| [k v] d IH]; simpl.
  - destruct (String.eqb key key'); reflexivity.
  - destruct (String.eqb_spec k key) as [-> | Hne]; simpl.
    + destruct (String.eqb key key'); reflexivity.
    + destruct (String.eqb_spec k key') as [-> | Hne'].
      * destruct (String.eqb_spec key key'); [congruence | reflexivity].
      * exact IH.
Qed.

Lemma build_invariant retrievals d :
  NoDup (map fst d) -> well_keyed d ->
  NoDup (map fst (build retrievals d)) /\ well_keyed (build retrievals d).
Proof.
  revert d. induction retrievals as [| r rest IH]; intros d Hn Hw; simpl.
  - split; assumption.
  - apply IH; [now apply dict_set_NoDup | now apply dict_set_well_keyed].
Qed.

Lemma build_get retrievals d id :
  dict_get (build retrievals d) id
  = match last_occurrence id retrievals with
    | Some r => Some r
    | None => dict_get d id
    end.
Proof.
  revert d. induction retrievals as [| r rest IH]; intros d; simpl.
  - reflexivity.
  - rewrite IH. destruct (last_occurrence id rest); [reflexivity | ].
    rewrite dict_get_set. unfold result_id.
    destruct (String.eqb (chunk_id (payload r)) id); reflexivity.
Qed.

Lemma build_keys retrievals d id :
  In id (map fst (build retrievals d))
  <-> In id (map fst d) \/ In id (map result_id retrievals).
Proof.
  revert d. induction retrievals as [| r rest IH]; intros d; simpl.
  - tauto.
  - rewrite IH, dict_set_keys.
    fold (result_id r).
    destruct (existsb (String.eqb (result_id r)) (map fst d)) eqn:E.
    + apply existsb_eqb_In in E. split; [tauto | ].
      intros [H | [<- | H]]; auto.
    + rewrite in_app_iff. simpl. tauto.
Qed.

Lemma values_get d r :
  NoDup (map fst d) -> well_keyed d ->
  (In r (map snd d) <-> dict_get d (result_id r) = Some r).
Proof.
  unfold dict_get, well_keyed.
  induction d as [| [k v] d IH]; intros Hn Hw; simpl.
  - split; [intros [] | discriminate].
  - inversion Hn as [| ? ? Hk Hn']; subst.
    inversion Hw as [| ? ? Hkv Hw']; subst. simpl in Hkv.
    destruct (String.eqb_spec k (result_id r)) as [E | Hne]; simpl.
    + split; [ | intros [= ->]; now left].
      intros [-> | Hin]; [reflexivity | exfalso].
      apply Hk. rewrite E. apply in_map_iff in Hin.
      destruct Hin as ([k' v'] & <- & Hin).
      rewrite Forall_forall in Hw'. rewrite <- (Hw' _ Hin).
      apply in_map_iff. now exists (k', v').
    + rewrite <- (IH Hn' Hw'). split; [ | now right].
      intros [-> | Hin]; [congruence | assumption].
Qed.

Lemma last_occurrence_In id l r :
  last_occurrence id l = Some r -> In r l /\ result_id r = id.
Proof.
  induction l as [| x rest IH]; simpl; [discriminate | ].
  destruct (last_occurrence id rest) as [r' |].
  - intros [= ->]. destruct (IH eq_refl). auto.
  - destruct (String.eqb_spec (result_id x) id); [ | discriminate].
    intros [= ->]. auto.
Qed.

Lemma last_occurrence_app id l1 l2 :
  last_occurrence id (l1 ++ l2)
  = match last_occurrence id l2 with
    | Some r => Some r
    | None => last_occurrence id l1
    end.
Proof.
  induction l1 as [| x rest IH]; simpl.
  - destruct (last_occurrence id l2); reflexivity.
  - rewrite IH. destruct (last_occurrence id l2); reflexivity.
Qed.

Lemma last_occurrence_Some id l :
  In id (map result_id l) -> exists r, last_occurrence id l = Some r.
Proof.
  induction l as [| x rest IH]; simpl; [intros [] | ].
  intros [E | Hin].
  - destruct (last_occurrence id rest); eauto.
    rewrite E, String.eqb_refl. eauto.
  - destruct (IH Hin) as (r & ->). eauto.
Qed.

Lemma dedupe_spec retrievals r :
  In r (dedupe retrievals)
  <-> last_occurrence (result_id r) retrievals = Some r.
Proof.
  unfold dedupe. fold (build retrievals []).
  destruct (build_invariant retrievals []) as [Hn Hw];
    [constructor | constructor | ].
  rewrite (values_get _ _ Hn Hw), build_get.
  destruct (last_occurrence (result_id r) retrievals); simpl;
    [tauto | split; discriminate].
Qed.

Lemma dedupe_ids retrievals :
  map result_id (dedupe retrievals) = map fst (build retrievals []).
Proof.
  unfold dedupe. fold (build retrievals []).
  destruct (build_invariant retrievals []) as [_ Hw];
    [constructor | constructor | ].
  rewrite map_map. apply map_ext_in. intros kv Hin.
  unfold well_keyed in Hw. rewrite Forall_forall in Hw.
  symmetry. now apply Hw.
Qed.

End FusionFacts.

(** C4: the hybrid orchestrator hands the reranker the sparse results
    followed by the dense results, deduplicated by [chunk_id]: every
    [chunk_id] of either list is kept exactly once, the surviving entry is
    the last one of the concatenation with that id, hence the dense copy
    whenever the dense engine returned one.  For sparse results A, B, C and
    dense results B, D the fused list is A, B, C, D with the dense B. *)
Theorem hybrid_fusion_later_copy_wins (sparse dense : list SearchResult) :
  let fused := dedupe (sparse ++ dense) in
  NoDup (map result_id fused)
  /\ (forall id,
         In id (map result_id fused)
         <-> In id (map result_id sparse) \/ In id (map result_id dense))
  /\ (forall r,
         In r fused
         <-> last_occurrence (result_id r) (sparse ++ dense) = Some r)
  /\ (forall r,
         In r fused -> In (result_id r) (map result_id dense) ->
         In r dense /\ last_occurrence (result_id r) dense = Some r)
  /\ (forall reranker query top_k top_n breadth final log,
         HybridRetrieverWithReranker_derive top_k top_n
         = inr (breadth, final) ->
         HybridRetrieverWithReranker_invoke
           (fun _ _ => ret sparse) (fun _ _ => ret dense) reranker
           query top_k top_n log
         = reranker query fused final log)
  /\ dedupe (Fixtures.sparse_ABC ++ Fixtures.dense_BD)
     = [Fixtures.hit (9 # 10) "A"; Fixtures.hit (95 # 100) "B";
        Fixtures.hit (7 # 10) "C"; Fixtures.hit (6 # 10) "D"].
Proof.
  intros fused. subst fused.
  assert (Hdense : forall r,
             In r (dedupe (sparse ++ dense)) ->
             In (result_id r) (map result_id dense) ->
             last_occurrence (result_id r) dense = Some r).
  { intros r Hin Hid. apply dedupe_spec in Hin.
    rewrite last_occurrence_app in Hin.
    destruct (last_occurrence_Some _ _ Hid) as (r' & E).
    rewrite E in Hin. congruence. }
  split; [ | split; [ | split; [ | split; [ | split]]]].
  - rewrite dedupe_ids.
    apply (build_invariant (sparse ++ dense) []); constructor.
  - intros id.
    rewrite dedupe_ids, build_keys, map_app, in_app_iff. simpl. tauto.
  - intros r. apply dedupe_spec.
  - intros r Hin Hid. pose proof (Hdense r Hin Hid) as E.
    split; [ | exact E]. now apply last_occurrence_In in E.
  - intros reranker query top_k top_n breadth final log H.
    now rewrite (HybridRetrieverWithReranker_invoke_run _ _ _ _ _ _ _ _ _ H).
  - reflexivity.
Qed.

(** The fusion of A, B, C with B, D, as the reranker receives it. *)
Lemma hybrid_fusion_later_copy_wins_witness :
  fst (HybridRetrieverWithReranker_invoke
         (fun _ _ => ret Fixtures.sparse_ABC)
         (fun _ _ => ret Fixtures.dense_BD)
         (fun _ documents _ => ret documents) "query" (Some 5) None [])
  = inr [Fixtures.hit (9 # 10) "A"; Fixtures.hit (95 # 100) "B";
         Fixtures.hit (7 # 10) "C"; Fixtures.hit (6 # 10) "D"].
Proof.
  destruct (hybrid_fusion_later_copy_wins Fixtures.sparse_ABC
              Fixtures.dense_BD) as (_ & _ & _ & _ & H & E).
  rewrite (H (fun _ documents _ => ret documents) "query"%string
             (Some 5) None (Some 10) (Some 5) [] eq_refl).
  cbv zeta in E. unfold ret. cbn [fst]. now rewrite E.
Defined.

(* ------------------------------------------------------------------ *)
(** * Properties of [batch_embed] *)

Section BatchEmbedFacts.

Variable embed_provider : nat -> list string -> string -> result (list vec).
Variables (docs : list string) (input_type : string) (batch_size : Z).

(** One pass through the loop body sends exactly one request, the one for
    the batch at [i], whatever the provider answers. *)
Lemma batch_embed_body_requests (v : embed_vars) (log : list event) :
  filter is_embed
    (snd (batch_embed_body embed_provider docs input_type batch_size v log))
  = (filter is_embed log ++ [request docs input_type batch_size (i v)])%list.
Proof.
  unfold request, batch_embed_body, try_except, bind, pc_inference_embed,
    time_sleep, emit, ret, raise.
  destruct (embed_provider _ _ _) as [e | embeddings]; simpl.
  - destruct (is_rate_limit e); simpl;
      rewrite ?filter_app; simpl; rewrite ?app_nil_r; reflexivity.
  - rewrite !filter_app. simpl. rewrite app_nil_r. reflexivity.
Qed.

(** The loop sends the requests of an initial segment of the batches, each
    of them once: no batch is requested a second time. *)
Lemma for_each_requests (starts : list Z) (v : embed_vars)
    (log : list event) :
  exists n,
    filter is_embed
      (snd (for_each starts
              (batch_embed_body embed_provider docs input_type batch_size)
              v log))
    = (filter is_embed log
       ++ map (request docs input_type batch_size) (firstn n starts))%list.
Proof.
  revert v log. induction starts as [| next rest IH]; intros v log; simpl.
  - exists 0%nat. simpl. now rewrite app_nil_r.
  - unfold bind.
    pose proof (batch_embed_body_requests
                  (mkVars next (all_embeddings v)) log) as Hb.
    destruct (batch_embed_body embed_provider docs input_type batch_size
                (mkVars next (all_embeddings v)) log)
      as [[e | v'] log'] eqn:E; simpl in Hb.
    + exists 1%nat. simpl. exact Hb.
    + destruct (IH v' log') as (n & Hn). exists (S n).
      rewrite Hn, Hb. simpl. now rewrite <- app_assoc.
Qed.

(** A failure that is not a rate limit ends the loop at once. *)
Lemma batch_embed_body_propagates (v : embed_vars) (log : list event)
    (e : exn) :
  embed_provider (count_embeds log)
    (slice docs (i v) (i v + batch_size)) input_type = inl e ->
  is_rate_limit e = false ->
  batch_embed_body embed_provider docs input_type batch_size v log
  = (inl e, (log ++ [request docs input_type batch_size (i v)])%list).
Proof.
  intros He Hr.
  unfold request, batch_embed_body, try_except, bind, pc_inference_embed.
  rewrite He, Hr. reflexivity.
Qed.

(** After a rate limit the pass sleeps and ends without a second request
    and without any embedding for its batch. *)
Lemma batch_embed_body_rate_limited (v : embed_vars) (log : list event)
    (e : exn) :
  embed_provider (count_embeds log)
    (slice docs (i v) (i v + batch_size)) input_type = inl e ->
  is_rate_limit e = true ->
  batch_embed_body embed_provider docs input_type batch_size v log
  = (inr (mkVars (i v - batch_size) (all_embeddings v)),
     (log ++ [request docs input_type batch_size (i v);
              EvSleep 60000])%list).
Proof.
  intros He Hr.
  unfold request, batch_embed_body, try_except, bind, pc_inference_embed,
    time_sleep, emit, ret.
  rewrite He, Hr. rewrite <- app_assoc. reflexivity.
Qed.

End BatchEmbedFacts.

(** C2 (the code departs from it): three documents in batches of two, the
    provider signalling a rate limit on the first request.  [batch_embed]
    sleeps 60 s and goes on with the second batch: the first batch is never
    requested again and the result holds one row for three documents.  For
    any provider and input, the loop sends the requests of an initial
    segment of the batches, each of them once; a failure that is not a rate
    limit ends the pass with that failure, after the one request. *)
Theorem batch_embed_drops_rate_limited_batch :
  batch_embed Fixtures.rate_limited_first
    ["a"; "bb"; "ccc"]%string "passage" 2 []
  = (inr [[3 # 1]],
     [EvEmbed ["a"; "bb"]%string "passage"; EvSleep 60000;
      EvEmbed ["ccc"%string] "passage"; EvSleep 500])
  /\ (forall embed_provider docs input_type batch_size starts v log,
         exists n,
           filter is_embed
             (snd (for_each starts
                     (batch_embed_body embed_provider docs input_type
                        batch_size) v log))
           = (filter is_embed log
              ++ map (request docs input_type batch_size)
                   (firstn n starts))%list)
  /\ (forall embed_provider docs input_type batch_size v log e,
         embed_provider (count_embeds log)
           (slice docs (i v) (i v + batch_size)) input_type = inl e ->
         is_rate_limit e = false ->
         batch_embed_body embed_provider docs input_type batch_size v log
         = (inl e,
            (log ++ [request docs input_type batch_size (i v)])%list)).
Proof.
  split; [reflexivity | split].
  - intros. apply for_each_requests.
  - intros. now apply batch_embed_body_propagates.
Qed.

(* ------------------------------------------------------------------ *)
(** * Properties of the token packer *)

Section JoinFacts.

Lemma append_empty_r (s : string) : (s ++ "")%string = s.
Proof. induction s as [| c s IH]; simpl; [reflexivity | now rewrite IH]. Qed.

Lemma append_assoc (a b c : string) :
  ((a ++ b) ++ c)%string = (a ++ (b ++ c))%string.
Proof. induction a as [| x a IH]; simpl; [reflexivity | now rewrite IH]. Qed.




End JoinFacts.

Section PackerFacts.

Variable sent_tokenize : string -> list string.
Variable tokenize_text : string -> string -> list string.
Variables (chunk_size : Z) (model : string).

Lemma tok_app (g1 g2 : list string) : tokens_of tokenize_text model (g1 ++ g2)
  = (tokens_of tokenize_text model g1
     ++ tokens_of tokenize_text model g2)%list.
Proof. unfold tokens_of. apply flat_map_app. Qed.

Lemma tok_single (sentence : string) :
  tokens_of tokenize_text model [sentence] = tokenize_text sentence model.
Proof. unfold tokens_of. simpl. apply app_nil_r. Qed.

Lemma within_budget_single (sentence : string) :
  within_budget tokenize_text model chunk_size [sentence].
Proof.
  unfold within_budget. fold (tokens_of tokenize_text model [sentence]).
  rewrite tok_single.
  destruct (Z_le_gt_dec
              (Z.of_nat (List.length (tokenize_text sentence model)))
              chunk_size) as [Hle | Hgt]; [now left | right].
  exists sentence. repeat split; [now left | lia].
Qed.

Lemma packed_step (seen : list string) (v : packer_vars) (sentence : string) :
  packed tokenize_text chunk_size model seen v ->
  packed tokenize_text chunk_size model (seen ++ [sentence])
    (chunk_simple_step tokenize_text chunk_size model v sentence).
Proof.
  intros (groups & current & Hseen & Hchunks & Htokens & Hcur & Hlen
          & Hgroups & Hcurrent).
  unfold chunk_simple_step.
  set (words := tokenize_text sentence model).
  destruct ((current_length v + Z.of_nat (List.length words) >? chunk_size)
            && negb (Nat.eqb (List.length (current_chunk v)) 0))%bool eqn:E.
  - (* the running chunk is flushed and the sentence starts the next one *)
    apply andb_true_iff in E. destruct E as [_ Hne].
    exists (groups ++ [current])%list, [sentence].
    cbn [chunks current_chunk current_length].
    repeat split.
    + rewrite concat_app. simpl. rewrite app_nil_r, Hseen. reflexivity.
    + rewrite map_app, Hchunks, Hcur. reflexivity.
    + apply Forall_app. split; [assumption | ].
      constructor; [ | constructor].
      unfold has_tokens. fold (tokens_of tokenize_text model current).
      now rewrite <- Hcur.
    + now rewrite tok_single.
    + rewrite tok_single. reflexivity.
    + apply Forall_app. split; [assumption | ].
      constructor; [ | constructor].
      destruct Hcurrent as [Hnil | Hok]; [ | exact Hok].
      rewrite Hcur, Hnil in Hne. discriminate.
    + right. apply within_budget_single.
  - (* the sentence joins the running chunk *)
    exists groups, (current ++ [sentence])%list.
    cbn [chunks current_chunk current_length].
    repeat split; try assumption.
    + rewrite app_assoc, Hseen. reflexivity.
    + rewrite tok_app, tok_single, Hcur. reflexivity.
    + rewrite tok_app, tok_single, length_app, Hlen. fold words. lia.
    + right. apply andb_false_iff in E. unfold within_budget.
      fold (tokens_of tokenize_text model (current ++ [sentence])).
      rewrite tok_app, tok_single, length_app. fold words.
      destruct E as [E | E].
      * left. rewrite Z.gtb_ltb, Z.ltb_ge, Hlen in E. lia.
      * apply negb_false_iff, Nat.eqb_eq in E. rewrite Hcur in E.
        apply length_zero_iff_nil in E. rewrite E. simpl.
        destruct (Z_le_gt_dec (Z.of_nat (List.length words)) chunk_size)
          as [Hle | Hgt]; [now left | right].
        exists sentence.
        split; [apply in_or_app; right; now left | ].
        split; [reflexivity | subst words; lia].
Qed.

Lemma packed_fold (rest seen : list string) (v : packer_vars) :
  packed tokenize_text chunk_size model seen v ->
  packed tokenize_text chunk_size model (seen ++ rest)
    (fold_left (chunk_simple_step tokenize_text chunk_size model) rest v).
Proof.
  revert seen v. induction rest as [| sentence rest IH]; intros seen v H.
  - now rewrite app_nil_r.
  - simpl. replace (seen ++ sentence :: rest)%list
      with ((seen ++ [sentence]) ++ rest)%list
      by (rewrite <- app_assoc; reflexivity).
    apply IH. now apply packed_step.
Qed.

Lemma packed_start :
  packed tokenize_text chunk_size model [] (mkPacker [] [] 0).
Proof.
  exists [], []. simpl. repeat split; try constructor. reflexivity.
Qed.

Lemma filter_all (A : Type) (f : A -> bool) (l : list A) :
  Forall (fun x => f x = true) l -> filter f l = l.
Proof.
  induction 1 as [| x l Hx Hl IH]; simpl; [reflexivity | ].
  now rewrite Hx, IH.
Qed.





(** The result of [chunk_simple] in terms of the groups its loop formed. *)
Lemma chunk_simple_groups (content : string) :
  exists groups : list (list string),
    List.concat groups = sent_tokenize content
    /\ chunk_simple sent_tokenize tokenize_text content chunk_size model
       = map (render tokenize_text model)
           (filter (has_tokens tokenize_text model) groups)
    /\ Forall (within_budget tokenize_text model chunk_size)
         (filter (has_tokens tokenize_text model) groups).
Proof.
  destruct (packed_fold (sent_tokenize content) [] _ packed_start)
    as (groups & current & Hseen & Hchunks & Htokens & Hcur & _
        & Hgroups & Hcurrent).
  simpl in Hseen.
  exists (groups ++ [current])%list.
  rewrite concat_app, filter_app, (filter_all _ _ _ Htokens). simpl.
  rewrite app_nil_r. split; [exact Hseen | ].
  unfold chunk_simple. rewrite Hchunks, Hcur.
  fold (has_tokens tokenize_text model current).
  destruct (has_tokens tokenize_text model current) eqn:E.
  - split; [now rewrite map_app | ].
    apply Forall_app. split; [assumption | ].
    constructor; [ | constructor].
    destruct Hcurrent as [Hnil | Hok]; [ | exact Hok].
    unfold has_tokens in E. rewrite Hnil in E. discriminate.
  - rewrite !app_nil_r. split; [reflexivity | assumption].
Qed.

End PackerFacts.




Example chunk_simple_fills_budget :
  chunk_simple Fixtures.stop_sentences Fixtures.chars_tokenizer
    "Hi. Yo. Hello there. Ok." 8 "gpt-4o-mini"
  = ["Hi. Yo."; " Hello there."; " Ok."]%string.
Proof. reflexivity. Qed.

(* ------------------------------------------------------------------ *)
(** * Properties of [chunk_dataset] *)

Section DatasetFacts.

Variable sent_tokenize : string -> list string.
Variable tokenize_text : string -> string -> list string.
Variable md5_hexdigest : string -> string.
Variable parse_markdown : string -> list Node.
Variable read_notebook : string -> string.
Variable markdown_markdown : string -> string.
Variable mdify : string -> string.
Variable HashSeed : Type.
Variable chunk_source_code : HashSeed -> string -> Z -> list string.
Variable convert_contents_to_text : string -> string -> string.

Local Notation document_chunks :=
  (chunk_document sent_tokenize tokenize_text md5_hexdigest parse_markdown
     read_notebook markdown_markdown mdify HashSeed chunk_source_code
     convert_contents_to_text).

Local Notation dataset_chunks :=
  (chunk_dataset sent_tokenize tokenize_text md5_hexdigest parse_markdown
     read_notebook markdown_markdown mdify HashSeed chunk_source_code
     convert_contents_to_text).

Lemma fold_left_append (A B : Type) (f : A -> list B) (l : list A)
    (acc : list B) :
  fold_left (fun all x => (all ++ f x)%list) l acc
  = (acc ++ flat_map f l)%list.
Proof.
  revert acc. induction l as [| x l IH]; intros acc; simpl.
  - now rewrite app_nil_r.
  - now rewrite IH, app_assoc.
Qed.

Lemma chunk_dataset_flat_map seed ds chunk_size :
  dataset_chunks seed ds chunk_size
  = flat_map (fun doc => document_chunks seed doc chunk_size) ds.
Proof. unfold chunk_dataset. now rewrite fold_left_append. Qed.

Lemma enumerate_numbers (A : Type) (l : list A) :
  map fst (enumerate l) = map Z.of_nat (seq 0 (List.length l)).
Proof.
  unfold enumerate.
  assert (H : forall (n : list Z), List.length n = List.length l ->
                map fst (combine n l) = n).
  { induction l as [| x l IH]; intros [| z n] Hlen; simpl in *;
      try reflexivity; try discriminate.
    f_equal. apply IH. now injection Hlen. }
  apply H. now rewrite length_map, length_seq.
Qed.

Lemma enumerate_values (A : Type) (l : list A) : map snd (enumerate l) = l.
Proof.
  unfold enumerate.
  assert (H : forall (n : list Z), List.length n = List.length l ->
                map snd (combine n l) = l).
  { induction l as [| x l IH]; intros [| z n] Hlen; simpl in *;
      try reflexivity; try discriminate.
    f_equal. apply IH. now injection Hlen. }
  apply H. now rewrite length_map, length_seq.
Qed.

(** The identifiers of a document's chunks: the digest of the content, the
    digest of each chunk and its rank. *)
Lemma chunk_document_ids seed doc chunk_size :
  exists chunks : list string,
    map chunk_ids (document_chunks seed doc chunk_size)
    = map (fun '(number, chunk) =>
             (make_id md5_hexdigest (content doc),
              make_id md5_hexdigest chunk, number))
        (enumerate chunks)
    /\ chunks
       = (if String.eqb (file_type doc) "python"
          then chunk_source_code seed (content doc) chunk_size
          else if String.eqb (file_type doc) "notebook"
          then chunk_notebook sent_tokenize tokenize_text parse_markdown
                 read_notebook markdown_markdown mdify (content doc)
                 chunk_size
          else if String.eqb (file_type doc) "pdf"
          then chunk_pdf sent_tokenize tokenize_text (content doc) chunk_size
          else chunk_markdown sent_tokenize tokenize_text parse_markdown
                 (content doc) chunk_size).
Proof.
  unfold chunk_document.
  destruct (String.eqb (file_type doc) "python");
    [ | destruct (String.eqb (file_type doc) "notebook");
        [ | destruct (String.eqb (file_type doc) "pdf")]];
    eexists; (split; [ | reflexivity]);
    rewrite map_map; apply map_ext; intros [number chunk]; reflexivity.
Qed.

(** Documents that agree on content and file type get the same
    identifiers, whatever else they carry. *)
Lemma chunk_document_ids_stable seed doc doc' chunk_size :
  chunked_part doc = chunked_part doc' ->
  map chunk_ids (document_chunks seed doc chunk_size)
  = map chunk_ids (document_chunks seed doc' chunk_size).
Proof.
  unfold chunked_part. intros [= Hc Hf].
  destruct (chunk_document_ids seed doc chunk_size) as (l & -> & ->).
  destruct (chunk_document_ids seed doc' chunk_size) as (l' & -> & ->).
  now rewrite Hc, Hf.
Qed.

Lemma chunk_dataset_ids_stable seed ds ds' chunk_size :
  map chunked_part ds = map chunked_part ds' ->
  map chunk_ids (dataset_chunks seed ds chunk_size)
  = map chunk_ids (dataset_chunks seed ds' chunk_size).
Proof.
  rewrite !chunk_dataset_flat_map.
  revert ds'. induction ds as [| doc ds IH]; intros [| doc' ds'] H;
    cbn [map flat_map] in *; try reflexivity; try discriminate.
  injection H as Hc Hf Hrest.
  assert (Hdoc : chunked_part doc = chunked_part doc')
    by (unfold chunked_part; congruence).
  rewrite !map_app, (IH ds' Hrest).
  now rewrite (chunk_document_ids_stable seed doc doc' chunk_size Hdoc).
Qed.

(** Two processes give a document the same identifiers when it is no
    python document, or when [chunk_source_code] cuts it alike in both. *)
Lemma chunk_document_ids_across seed1 seed2 doc doc' chunk_size :
  chunked_part doc = chunked_part doc' ->
  (file_type doc = "python"%string ->
   chunk_source_code seed1 (content doc) chunk_size
   = chunk_source_code seed2 (content doc) chunk_size) ->
  map chunk_ids (document_chunks seed1 doc chunk_size)
  = map chunk_ids (document_chunks seed2 doc' chunk_size).
Proof.
  unfold chunked_part. intros [= Hc Hf] Hsame.
  destruct (chunk_document_ids seed1 doc chunk_size) as (l & -> & ->).
  destruct (chunk_document_ids seed2 doc' chunk_size) as (l' & -> & ->).
  rewrite <- Hc, <- Hf.
  destruct (String.eqb (file_type doc) "python") eqn:E; [ | reflexivity].
  apply String.eqb_eq in E. now rewrite (Hsame E).
Qed.

Lemma chunk_dataset_ids_across seed1 seed2 ds ds' chunk_size :
  map chunked_part ds = map chunked_part ds' ->
  (forall doc,
      In doc ds -> file_type doc = "python"%string ->
      chunk_source_code seed1 (content doc) chunk_size
      = chunk_source_code seed2 (content doc) chunk_size) ->
  map chunk_ids (dataset_chunks seed1 ds chunk_size)
  = map chunk_ids (dataset_chunks seed2 ds' chunk_size).
Proof.
  rewrite !chunk_dataset_flat_map.
  revert ds'. induction ds as [| doc ds IH]; intros [| doc' ds'] H Hsame;
    cbn [map flat_map] in *; try reflexivity; try discriminate.
  injection H as Hc Hf Hrest.
  assert (Hdoc : chunked_part doc = chunked_part doc')
    by (unfold chunked_part; congruence).
  rewrite !map_app. f_equal.
  - apply chunk_document_ids_across; [exact Hdoc | ].
    apply Hsame. now left.
  - apply IH; [exact Hrest | ].
    intros d Hd. apply Hsame. now right.
Qed.

(** Every chunk of a document carries the digest of the document's
    content as its [doc_id]. *)
Lemma chunk_document_doc_id seed doc chunk_size c :
  In c (document_chunks seed doc chunk_size) ->
  doc_id c = make_id md5_hexdigest (content doc).
Proof.
  intros Hin. apply (in_map chunk_ids) in Hin.
  destruct (chunk_document_ids seed doc chunk_size) as (l & E & _).
  rewrite E in Hin. apply in_map_iff in Hin.
  destruct Hin as ([number chunk] & Hc & _).
  unfold chunk_ids in Hc. congruence.
Qed.

(** The chunks of a document are numbered 0, 1, 2, ... in order. *)
Lemma chunk_document_numbers seed doc chunk_size :
  let chunks := document_chunks seed doc chunk_size in
  map chunk_number chunks = map Z.of_nat (seq 0 (List.length chunks)).
Proof.
  intros chunks. subst chunks.
  destruct (chunk_document_ids seed doc chunk_size) as (l & E & _).
  assert (Hlen : List.length (document_chunks seed doc chunk_size)
                 = List.length l).
  { apply (f_equal (@List.length _)) in E. rewrite !length_map in E.
    rewrite E. rewrite <- (enumerate_values _ l) at 2.
    now rewrite length_map. }
  rewrite Hlen, <- enumerate_numbers.
  apply (f_equal (map snd)) in E. rewrite !map_map in E.
  etransitivity; [exact E | ].
  apply map_ext. now intros [number chunk].
Qed.

End DatasetFacts.

(** C9 (amended): the identifiers that [chunk_dataset] assigns are a
    function of the documents' contents and file types and, for python
    documents, of the order in which the interpreter process iterates its
    sets of strings.  Two runs in one process over datasets that agree on
    content and file type (the same dataset twice, or copies under other
    metadata) yield the same sequence of (doc_id, chunk_id, chunk_number),
    with the same count and order.  Two runs in different processes do so
    when [chunk_source_code] cuts every python document alike in both, in
    particular when the dataset holds no python document.  Every chunk's
    doc_id is the digest of its document's content, whatever the process,
    the file type and the chunk size; and the chunks of a document are
    numbered from 0 in emission order. *)
Theorem chunk_dataset_ids_deterministic
    (sent_tokenize : string -> list string)
    (tokenize_text : string -> string -> list string)
    (md5_hexdigest : string -> string)
    (parse_markdown : string -> list Node)
    (read_notebook markdown_markdown mdify : string -> string)
    (HashSeed : Type)
    (chunk_source_code : HashSeed -> string -> Z -> list string)
    (convert_contents_to_text : string -> string -> string)
    (seed other_seed : HashSeed) (ds ds' : list Document) (chunk_size : Z) :
  let run :=
    chunk_dataset sent_tokenize tokenize_text md5_hexdigest parse_markdown
      read_notebook markdown_markdown mdify HashSeed chunk_source_code
      convert_contents_to_text in
  let chunks_of :=
    chunk_document sent_tokenize tokenize_text md5_hexdigest parse_markdown
      read_notebook markdown_markdown mdify HashSeed chunk_source_code
      convert_contents_to_text in
  map chunked_part ds = map chunked_part ds' ->
  map chunk_ids (run seed ds chunk_size)
  = map chunk_ids (run seed ds' chunk_size)
  /\ ((forall doc,
          In doc ds -> file_type doc = "python"%string ->
          chunk_source_code seed (content doc) chunk_size
          = chunk_source_code other_seed (content doc) chunk_size) ->
      map chunk_ids (run seed ds chunk_size)
      = map chunk_ids (run other_seed ds' chunk_size))
  /\ (Forall (fun doc => file_type doc <> "python"%string) ds ->
      map chunk_ids (run seed ds chunk_size)
      = map chunk_ids (run other_seed ds' chunk_size))
  /\ (forall seed1 seed2 size1 size2 doc1 doc2 c1 c2,
         content doc1 = content doc2 ->
         In c1 (chunks_of seed1 doc1 size1) ->
         In c2 (chunks_of seed2 doc2 size2) ->
         doc_id c1 = doc_id c2
         /\ doc_id c1 = make_id md5_hexdigest (content doc1))
  /\ (forall doc,
         map chunk_number (chunks_of seed doc chunk_size)
         = map Z.of_nat
             (seq 0 (List.length (chunks_of seed doc chunk_size)))).
Proof.
  intros run chunks_of H. subst run chunks_of.
  split; [now apply chunk_dataset_ids_stable | ].
  split; [now apply chunk_dataset_ids_across | ].
  split; [ | split].
  - intros Hfree. apply chunk_dataset_ids_across; [exact H | ].
    intros doc Hin Hpy. rewrite Forall_forall in Hfree.
    now destruct (Hfree doc Hin).
  - intros seed1 seed2 size1 size2 doc1 doc2 c1 c2 Hc H1 H2.
    apply chunk_document_doc_id in H1, H2. split; congruence.
  - intros doc. apply chunk_document_numbers.
Qed.

(** Two datasets with the same contents under different metadata, chunked
    in one process. *)
Lemma chunk_dataset_ids_deterministic_witness :
  let run := chunk_dataset Fixtures.stop_sentences Fixtures.chars_tokenizer
               Fixtures.toy_digest Fixtures.one_heading
               (fun notebook => notebook) (fun md => md) (fun html => html)
               bool Fixtures5.seeded_chunk_source_code Fixtures.plain_text in
  map chunk_ids (run true Fixtures.dataset_a 6)
  = map chunk_ids (run true Fixtures.dataset_b 6).
Proof.
  destruct (chunk_dataset_ids_deterministic Fixtures.stop_sentences
              Fixtures.chars_tokenizer Fixtures.toy_digest
              Fixtures.one_heading
              (fun notebook => notebook) (fun md => md) (fun html => html)
              bool Fixtures5.seeded_chunk_source_code Fixtures.plain_text
              true false Fixtures.dataset_a Fixtures.dataset_b 6)
    as (H & _).
  - reflexivity.
  - exact H.
Defined.

(** C9, as stated, fails across runs: the module [A = 1; B = 2;
    def total(): return A + B] is chunked in two interpreter processes that
    iterate the set of identifiers {A, B} in opposite orders.  The chunk of
    [total] lists the module variables as A, B in one and as B, A in the
    other, so the same content gets two different chunk ids; the doc ids
    agree. *)
Lemma chunk_ids_depend_on_hash_seed :
  let chunk_in seed :=
    CodeChunker.chunk_source_code Fixtures.stop_sentences
      Fixtures.chars_tokenizer (Fixtures5.seeded_iter seed)
      Fixtures5.parse_two_globals Fixtures5.two_globals_source 500 in
  let run :=
    chunk_dataset Fixtures.stop_sentences Fixtures.chars_tokenizer
      Fixtures.toy_digest Fixtures.one_heading
      (fun notebook => notebook) (fun md => md) (fun html => html)
      bool Fixtures5.seeded_chunk_source_code Fixtures.plain_text in
  chunk_in true
  = inr [("A" ++ nl ++ "B" ++ nl ++ nl ++ "    def total():" ++ nl
          ++ "    return A + B")%string]
  /\ chunk_in false
     = inr [("B" ++ nl ++ "A" ++ nl ++ nl ++ "    def total():" ++ nl
             ++ "    return A + B")%string]
  /\ map chunk_chunk_id (run true Fixtures5.python_dataset 500)
     <> map chunk_chunk_id (run false Fixtures5.python_dataset 500)
  /\ map chunk_ids (run true Fixtures5.python_dataset 500)
     <> map chunk_ids (run false Fixtures5.python_dataset 500)
  /\ map doc_id (run true Fixtures5.python_dataset 500)
     = map doc_id (run false Fixtures5.python_dataset 500).
Proof.
  vm_compute. repeat split; discriminate.
Qed.

(* ------------------------------------------------------------------ *)
(** * Properties of [round(x, 4)] *)

Section RoundingFacts.

(** The rounded value is within half a unit of the input; it is even when
    the input lies exactly half way. *)
Lemma round_half_even_spec (n : Z) (d : positive) :
  let r := round_half_even n d in
  2 * Zpos d * r - Zpos d <= 2 * n <= 2 * Zpos d * r + Zpos d
  /\ (2 * n = 2 * Zpos d * r + Zpos d -> Z.even r = true)
  /\ (2 * n = 2 * Zpos d * r - Zpos d -> Z.even r = true).
Proof.
  unfold round_half_even.
  pose proof (Z.div_mod n (Zpos d) ltac:(lia)) as Hdm.
  pose proof (Z.mod_pos_bound n (Zpos d) ltac:(lia)) as Hm.
  set (q := n / Zpos d) in *. set (m := n mod Zpos d) in *.
  destruct (Z.compare_spec (2 * m) (Zpos d)) as [E | L | G].
  - destruct (Z.even q) eqn:Hq; cbv zeta.
    + repeat split; intros; try lia; assumption.
    + repeat split; intros; try lia.
      rewrite Z.even_add, Hq. reflexivity.
  - cbv zeta. repeat split; intros; lia.
  - cbv zeta. repeat split; intros; lia.
Qed.

Lemma round_half_even_mono (n1 n2 : Z) (d1 d2 : positive) :
  n1 * Zpos d2 <= n2 * Zpos d1 ->
  round_half_even n1 d1 <= round_half_even n2 d2.
Proof.
  intros H.
  destruct (round_half_even_spec n1 d1) as ((L1 & _) & _ & T1).
  destruct (round_half_even_spec n2 d2) as ((_ & U2) & T2 & _).
  cbv zeta in *.
  set (r1 := round_half_even n1 d1) in *.
  set (r2 := round_half_even n2 d2) in *.
  destruct (Z_le_gt_dec r1 r2) as [Hle | Hgt]; [exact Hle | exfalso].
  set (D1 := Zpos d1) in *. set (D2 := Zpos d2) in *.
  assert (HD1 : 0 < D1) by (subst D1; lia).
  assert (HD2 : 0 < D2) by (subst D2; lia).
  assert (HP : 0 < D1 * D2) by nia.
  assert (A : (2 * r1 - 1) * (D1 * D2) <= 2 * (n1 * D2)) by nia.
  assert (B : 2 * (n2 * D1) <= (2 * r2 + 1) * (D1 * D2)) by nia.
  assert (C : (2 * r1 - 1) * (D1 * D2) <= (2 * r2 + 1) * (D1 * D2)) by lia.
  assert (Hr : r1 = r2 + 1) by nia.
  assert (E1 : 2 * n1 = 2 * D1 * r1 - D1) by nia.
  assert (E2 : 2 * n2 = 2 * D2 * r2 + D2) by nia.
  specialize (T1 E1). specialize (T2 E2).
  rewrite Hr, Z.even_add, T2 in T1. discriminate.
Qed.

(** A multiple of the unit is left unchanged. *)
Lemma round_half_even_exact (k : Z) (d : positive) :
  round_half_even (k * Zpos d) d = k.
Proof.
  unfold round_half_even.
  rewrite Z.div_mul, Z.mod_mul by lia. reflexivity.
Qed.

Lemma round4_mono (x y : Q) : (x <= y)%Q -> (round4 x <= round4 y)%Q.
Proof.
  unfold Qle, round4. simpl. intros H.
  apply Z.mul_le_mono_nonneg_r; [lia | ].
  apply round_half_even_mono. nia.
Qed.

(** [round4] fixes the multiples of 1/10000. *)
Lemma round4_exact (k : Z) : (round4 (k # 10000) == k # 10000)%Q.
Proof.
  unfold round4, Qeq. simpl.
  change (k * 10000) with (k * Zpos 10000).
  now rewrite round_half_even_exact.
Qed.

Lemma round4_inject_Z (k : Z) : (round4 (inject_Z k) == inject_Z k)%Q.
Proof.
  unfold round4, Qeq, inject_Z. simpl.
  replace (k * 10000) with ((k * 10000) * Zpos 1) at 1 by lia.
  rewrite round_half_even_exact. lia.
Qed.

Lemma round4_between (a b : Z) (x : Q) :
  (inject_Z a <= x <= inject_Z b)%Q ->
  (inject_Z a <= round4 x <= inject_Z b)%Q.
Proof.
  intros [Ha Hb]. split.
  - apply Qle_trans with (round4 (inject_Z a)).
    + apply Qle_lteq. right. symmetry. apply round4_inject_Z.
    + now apply round4_mono.
  - apply Qle_trans with (round4 (inject_Z b)).
    + now apply round4_mono.
    + apply Qle_lteq. right. apply round4_inject_Z.
Qed.

(** The error of [round4] is at most half of 1/10000. *)
Lemma round4_error (x : Q) :
  (round4 x - (1 # 20000) <= x <= round4 x + (1 # 20000))%Q.
Proof.
  destruct x as [n d].
  destruct (round_half_even_spec (n * 10000) d) as ((L & U) & _).
  cbv zeta in *. unfold round4, Qle, Qminus, Qplus, Qopp. simpl.
  set (r := round_half_even (n * 10000) d) in *.
  split; nia.
Qed.

(** Rounding the similarity [1 - d] reverses the order of the distances. *)
Lemma similarity_antitone (d1 d2 : Q) :
  (d1 <= d2)%Q -> (round4 (1 - d2) <= round4 (1 - d1))%Q.
Proof.
  intros H. apply round4_mono.
  unfold Qminus. apply Qplus_le_compat; [apply Qle_refl | ].
  now apply Qopp_le_compat.
Qed.

End RoundingFacts.

(* ------------------------------------------------------------------ *)
(** * Properties of the search engines *)

Section EngineFacts.

Variable embed_provider : nat -> list string -> string -> result (list vec).
Variable cosine_distance : vec -> vec -> pyfloat.
Variable argsort : list pyfloat -> list nat.

(** What [collect] returns, when it returns. *)
Lemma collect_scored (cosine_distances : list pyfloat) (data : list Doc)
    (indices : list nat) (output : list SearchResult) :
  collect cosine_distances data indices = inr output ->
  Forall2 (scored_from cosine_distances data) indices output.
Proof.
  revert output. induction indices as [| idx rest IH]; simpl; intros output.
  - intros [= <-]. constructor.
  - destruct (nth_error cosine_distances idx) as [d |] eqn:Ed;
      [ | discriminate].
    destruct (nth_error data idx) as [doc |] eqn:Edoc; [ | discriminate].
    destruct (collect cosine_distances data rest) as [e | out];
      [discriminate | ].
    intros [= <-]. constructor; [ | now apply IH].
    split; [exact Edoc | ]. exists d. split; [exact Ed | reflexivity].
Qed.

(** [collect] returns when every index is a position of both lists. *)
Lemma collect_total (cosine_distances : list pyfloat) (data : list Doc)
    (indices : list nat) :
  Forall (fun idx => (idx < List.length cosine_distances)%nat
                     /\ (idx < List.length data)%nat) indices ->
  exists output, collect cosine_distances data indices = inr output.
Proof.
  induction 1 as [| idx rest [Hd Hdoc] _ IH]; simpl; [eauto | ].
  apply nth_error_Some in Hd, Hdoc.
  destruct (nth_error cosine_distances idx); [ | congruence].
  destruct (nth_error data idx); [ | congruence].
  destruct IH as (out & ->). eauto.
Qed.

Lemma scored_scores (cosine_distances : list pyfloat) (data : list Doc)
    (indices : list nat) (output : list SearchResult) :
  Forall2 (scored_from cosine_distances data) indices output ->
  map score output
  = map (fun idx => similarity (nth idx cosine_distances NaN)) indices.
Proof.
  induction 1 as [| idx r indices output (_ & d & Hd & Hs) _ IH]; simpl;
    [reflexivity | ].
  rewrite IH, Hs. f_equal.
  now rewrite (nth_error_nth _ _ _ Hd).
Qed.

(** After a [nan] only [nan] follows. *)
Lemma nan_tail (distances : list pyfloat) :
  Forall (float_le NaN) distances ->
  map similarity distances = repeat NaN (List.length distances).
Proof.
  induction 1 as [| d rest Hd _ IH]; [reflexivity | ].
  destruct d as [q |]; [destruct Hd | ].
  cbn [map similarity List.length repeat]. now rewrite IH.
Qed.

(** Ascending distances with [nan] last give numbers that never increase,
    followed by the [nan] scores. *)
Lemma ascending_similarities (distances : list pyfloat) :
  StronglySorted float_le distances ->
  numbers_then_nan (map similarity distances).
Proof.
  unfold numbers_then_nan, non_increasing.
  induction 1 as [| d rest Hrest IH Hd].
  - exists [], 0%nat. split; [reflexivity | constructor].
  - destruct d as [q |].
    + destruct IH as (numbers & k & E & Hsorted).
      exists (round4 (1 - q) :: numbers), k. split.
      * cbn [map similarity app]. now rewrite E.
      * constructor; [exact Hsorted | ].
        rewrite Forall_forall in *. intros n Hn.
        assert (Hin : In (Finite n) (map similarity rest)).
        { rewrite E. apply in_or_app. left. now apply in_map. }
        apply in_map_iff in Hin. destruct Hin as (d' & Hs & Hd').
        specialize (Hd d' Hd'). destruct d' as [q' |]; [ | discriminate].
        cbn [similarity] in Hs. injection Hs as <-.
        now apply similarity_antitone.
    + exists [], (S (List.length rest)). split; [ | constructor].
      cbn [map similarity app repeat]. now rewrite (nan_tail rest Hd).
Qed.

Lemma ascending_distances_scores (values : list pyfloat)
    (indices : list nat) :
  StronglySorted float_le (map (fun idx => nth idx values NaN) indices) ->
  numbers_then_nan
    (map (fun idx => similarity (nth idx values NaN)) indices).
Proof.
  intros H. apply ascending_similarities in H.
  now rewrite map_map in H.
Qed.

(** Without a [nan] score, a sequence of numbers then [nan] is a sequence
    of numbers. *)
Lemma numbers_only (scores : list pyfloat) :
  numbers_then_nan scores ->
  ~ In NaN scores ->
  exists numbers, scores = map Finite numbers /\ non_increasing numbers.
Proof.
  intros (numbers & k & -> & Hsorted) Hfree.
  exists numbers. split; [ | exact Hsorted].
  destruct k as [| k]; [now rewrite app_nil_r | ].
  exfalso. apply Hfree. apply in_or_app. right. now left.
Qed.

Lemma similarity_nan (d : pyfloat) : similarity d = NaN <-> d = NaN.
Proof. destruct d; split; intros H; try discriminate; reflexivity. Qed.

Lemma firstn_In (A : Type) (l : list A) (n : nat) (x : A) :
  In x (firstn n l) -> In x l.
Proof.
  intros H. rewrite <- (firstn_skipn n l). apply in_or_app. now left.
Qed.

Lemma firstn_sorted (A : Type) (R : A -> A -> Prop) (l : list A) (n : nat) :
  StronglySorted R l -> StronglySorted R (firstn n l).
Proof.
  revert n. induction l as [| x l IH]; intros n H.
  - rewrite firstn_nil. constructor.
  - destruct n as [| n]; simpl; [constructor | ].
    inversion H as [| ? ? Hl Hx]; subst.
    constructor; [now apply IH | ].
    rewrite Forall_forall in *. intros y Hy. apply Hx.
    now apply (firstn_In _ l n).
Qed.

Lemma slice_to_firstn (A : Type) (l : list A) (k : Z) :
  exists n, slice_to l k = firstn n l.
Proof. unfold slice_to. destruct (0 <=? k); eauto. Qed.

Lemma argsort_in_range (values : list pyfloat) (indices : list nat) :
  is_argsort values indices ->
  Forall (fun idx => (idx < List.length values)%nat) indices.
Proof.
  intros [Hperm _]. rewrite Forall_forall. intros idx Hin.
  apply (Permutation_in _ Hperm), in_seq in Hin. lia.
Qed.

(** The selected indices of a search: the first entries of an argsort. *)
Lemma selection_facts (values : list pyfloat) (top_k : Z) :
  is_argsort values (argsort values) ->
  let top_k_indices := slice_to (argsort values) top_k in
  Forall (fun idx => (idx < List.length values)%nat) top_k_indices
  /\ StronglySorted float_le
       (map (fun idx => nth idx values NaN) top_k_indices).
Proof.
  intros Hsort top_k_indices. subst top_k_indices.
  destruct (slice_to_firstn _ (argsort values) top_k) as (n & ->).
  split.
  - pose proof (argsort_in_range _ _ Hsort) as Hr.
    rewrite Forall_forall in *. intros idx Hin. apply Hr.
    now apply (firstn_In _ _ n).
  - rewrite <- firstn_map. apply firstn_sorted. apply Hsort.
Qed.

(** A search over distances and documents, as both the TF-IDF and the dense
    engine run it. *)
Lemma ranked_search (cosine_distances : list pyfloat) (data : list Doc)
    (top_k : Z) :
  is_argsort cosine_distances (argsort cosine_distances) ->
  (List.length cosine_distances <= List.length data)%nat ->
  exists output,
    collect cosine_distances data
      (slice_to (argsort cosine_distances) top_k) = inr output
    /\ numbers_then_nan (map score output)
    /\ Forall2 (scored_from cosine_distances data)
         (slice_to (argsort cosine_distances) top_k) output.
Proof.
  intros Hsort Hlen.
  destruct (selection_facts cosine_distances top_k Hsort) as [Hr Hs].
  destruct (collect_total cosine_distances data
              (slice_to (argsort cosine_distances) top_k)) as (output & E).
  { rewrite Forall_forall in *. intros idx Hin.
    specialize (Hr idx Hin). lia. }
  exists output. pose proof (collect_scored _ _ _ _ E) as Hsc.
  repeat split; [exact E | | exact Hsc].
  rewrite (scored_scores _ _ _ _ Hsc).
  now apply ascending_distances_scores.
Qed.

(** One query, one batch: [batch_embed] sends one request and sleeps
    once. *)
Lemma batch_embed_single (query input_type : string) (v : vec)
    (log : list event) :
  embed_provider (count_embeds log) [query] input_type = inr [v] ->
  batch_embed embed_provider [query] input_type 25 log
  = (inr [v], (log ++ [EvEmbed [query] input_type; EvSleep 500])%list).
Proof.
  intros H.
  unfold batch_embed, bind, lift.
  change (range0 (Z.of_nat (List.length [query])) 25) with (@inr exn _ [0]).
  cbn [for_each]. unfold bind.
  unfold batch_embed_body, try_except, bind, pc_inference_embed.
  cbn [i all_embeddings].
  change (slice [query] 0 (0 + 25)) with [query].
  rewrite H. unfold time_sleep, emit, ret. cbn [app all_embeddings np_stack].
  now rewrite <- app_assoc.
Qed.

End EngineFacts.

(** The insertion sort of the worked examples meets [is_argsort]. *)
Section StableArgsortFacts.

Variable values : list pyfloat.

Lemma float_leb_le (a b : pyfloat) : float_leb a b = true <-> float_le a b.
Proof.
  destruct a as [x |], b as [y |]; cbn; try tauto.
  - apply Qle_bool_iff.
  - split; [discriminate | tauto].
Qed.

Lemma float_le_total (a b : pyfloat) :
  float_leb a b = false -> float_le b a.
Proof.
  destruct a as [x |], b as [y |]; cbn; try discriminate; try tauto.
  intros H. apply Qlt_le_weak, Qnot_le_lt. intros Hle.
  apply Qle_bool_iff in Hle. congruence.
Qed.

Lemma float_le_trans (a b c : pyfloat) :
  float_le a b -> float_le b c -> float_le a c.
Proof.
  destruct a as [x |], b as [y |], c as [z |]; cbn; try tauto.
  apply Qle_trans.
Qed.

Lemma insert_index_perm (idx : nat) (sorted : list nat) :
  Permutation (Fixtures.insert_index values idx sorted) (idx :: sorted).
Proof.
  induction sorted as [| j rest IH]; simpl; [reflexivity | ].
  destruct (float_leb _ _); [reflexivity | ].
  apply perm_trans with (j :: idx :: rest); [now apply perm_skip | ].
  apply perm_swap.
Qed.

Lemma insert_index_sorted (idx : nat) (sorted : list nat) :
  StronglySorted float_le (map (fun k => nth k values NaN) sorted) ->
  StronglySorted float_le
    (map (fun k => nth k values NaN)
       (Fixtures.insert_index values idx sorted)).
Proof.
  induction sorted as [| j rest IH]; simpl; intros H.
  - repeat constructor.
  - inversion H as [| ? ? Hrest Hj]; subst.
    destruct (float_leb (nth idx values NaN) (nth j values NaN)) eqn:E.
    + apply float_leb_le in E. simpl.
      constructor; [exact H | ].
      constructor; [exact E | ].
      rewrite Forall_forall in *. intros x Hx.
      apply float_le_trans with (nth j values NaN); auto.
    + apply float_le_total in E.
      simpl. constructor; [now apply IH | ].
      apply (Permutation_Forall
               (Permutation_sym
                  (Permutation_map (fun k => nth k values NaN)
                     (insert_index_perm idx rest)))).
      simpl. constructor; assumption.
Qed.

Lemma stable_argsort_spec : is_argsort values (Fixtures.stable_argsort values).
Proof.
  unfold is_argsort, Fixtures.stable_argsort.
  generalize (seq 0 (List.length values)) as l.
  induction l as [| idx l [IHp IHs]]; simpl.
  - split; constructor.
  - split.
    + apply perm_trans with (idx :: fold_right
                                      (Fixtures.insert_index values) [] l);
        [apply insert_index_perm | now apply perm_skip].
    + now apply insert_index_sorted.
Qed.

End StableArgsortFacts.

Section SearchFacts.

Variable embed_provider : nat -> list string -> string -> result (list vec).
Variable cosine_distance : vec -> vec -> pyfloat.
Variable argsort : list pyfloat -> list nat.
Variable Vectorizer : Type.
Variable fit_transform : list string -> Vectorizer * list vec.
Variable transform : Vectorizer -> string -> vec.
Variable BM25 : Type.
Variable bm25_new : BM25.
Variable bm25_index : BM25 -> list string -> BM25.
Variable bm25_retrieve :
  BM25 -> string -> list Doc -> Z -> result (list (Doc * Q)).
Variable store_query : vec -> Z -> result (list (Doc * Q)).

(** A result scored from a row of distances was scored against a row of
    the index. *)
Lemma scored_against_row (query_vec : vec) (index : list vec)
    (data : list Doc) (indices : list nat) (output : list SearchResult) :
  Forall2 (scored_from (cdist_row cosine_distance query_vec index) data)
    indices output ->
  Forall (fun r => In (payload r) data
                   /\ exists row, In row index
                                  /\ score r
                                     = similarity
                                         (cosine_distance query_vec row))
    output.
Proof.
  induction 1 as [| idx r indices output (Hdoc & d & Hd & Hs) _ IH];
    constructor; [ | exact IH].
  split; [now apply nth_error_In in Hdoc | ].
  unfold cdist_row in Hd. rewrite nth_error_map in Hd.
  destruct (nth_error index idx) as [row |] eqn:E; [ | discriminate].
  injection Hd as <-. exists row. split; [ | exact Hs].
  now apply nth_error_In in E.
Qed.

(** The search over the distances between a query vector and an index no
    longer than the corpus: it returns; the scores are numbers that never
    increase, followed by the [nan] scores; and there is no [nan] score
    when no distance is [nan]. *)
Lemma distance_search (query_vec : vec) (index : list vec)
    (data : list Doc) (top_k : Z) :
  (forall values, is_argsort values (argsort values)) ->
  (List.length index <= List.length data)%nat ->
  exists output,
    collect (cdist_row cosine_distance query_vec index) data
      (slice_to (argsort (cdist_row cosine_distance query_vec index)) top_k)
    = inr output
    /\ numbers_then_nan (map score output)
    /\ ((forall row, In row index -> cosine_distance query_vec row <> NaN) ->
        exists numbers,
          map score output = map Finite numbers
          /\ non_increasing numbers).
Proof.
  intros Hsort Hlen.
  destruct (ranked_search argsort
              (cdist_row cosine_distance query_vec index) data top_k
              (Hsort _)) as (output & E & Hs & Hsc).
  { unfold cdist_row. rewrite length_map. lia. }
  exists output. split; [exact E | split; [exact Hs | ]].
  intros Hfree. apply numbers_only; [exact Hs | ].
  intros Hin. apply in_map_iff in Hin. destruct Hin as (r & Hr & Hin).
  apply scored_against_row in Hsc. rewrite Forall_forall in Hsc.
  destruct (Hsc r Hin) as (_ & row & Hrow & Hscore).
  rewrite Hscore in Hr. apply (proj1 (similarity_nan _)) in Hr.
  exact (Hfree row Hrow Hr).
Qed.

(** The TF-IDF engine after [fit]. *)
Lemma TfidfSearchEngine_search_fitted (data : list Doc) (query : string)
    (top_k : Z) (log : list event) :
  (forall values, is_argsort values (argsort values)) ->
  (forall docs, List.length (snd (fit_transform docs)) = List.length docs) ->
  exists output,
    TfidfSearchEngine_search cosine_distance argsort Vectorizer transform
      (TfidfSearchEngine_fit Vectorizer fit_transform
         (TfidfSearchEngine_init Vectorizer) data) query top_k log
    = (inr output, log)
    /\ numbers_then_nan (map score output)
    /\ ((forall row,
            In row (snd (fit_transform (map text data))) ->
            cosine_distance
              (transform (fst (fit_transform (map text data))) query) row
            <> NaN) ->
        exists numbers,
          map score output = map Finite numbers
          /\ non_increasing numbers).
Proof.
  intros Hsort Hrows. unfold TfidfSearchEngine_fit.
  pose proof (Hrows (map text data)) as Hlen.
  destruct (fit_transform (map text data)) as [vectorizer index].
  simpl in Hlen. rewrite length_map in Hlen.
  unfold TfidfSearchEngine_search, lift. simpl.
  destruct (distance_search (transform vectorizer query) index data top_k
              Hsort) as (output & E & Hs & Hfree); [lia | ].
  exists output. now rewrite E.
Qed.

Lemma TfidfSearchEngine_search_scores (self : TfidfSearchEngine Vectorizer)
    (query : string) (top_k : Z) (log log' : list event)
    (output : list SearchResult) :
  TfidfSearchEngine_search cosine_distance argsort Vectorizer transform
    self query top_k log = (inr output, log') ->
  exists vectorizer index data,
    tfidf_vectorizer Vectorizer self = Some vectorizer
    /\ tfidf_index Vectorizer self = Some index
    /\ tfidf_data Vectorizer self = Some data
    /\ Forall (fun r => In (payload r) data
                        /\ exists row,
                             In row index
                             /\ score r
                                = similarity
                                    (cosine_distance
                                       (transform vectorizer query) row))
         output.
Proof.
  unfold TfidfSearchEngine_search, raise, lift.
  destruct (tfidf_index Vectorizer self) as [index |]; [ | discriminate].
  destruct (tfidf_data Vectorizer self) as [data |]; [ | discriminate].
  destruct (tfidf_vectorizer Vectorizer self) as [vectorizer |];
    [ | discriminate].
  intros [= E _]. exists vectorizer, index, data. repeat split.
  apply collect_scored in E. now apply scored_against_row in E.
Qed.

(** The dense engine with an index no longer than its corpus, once the
    provider has embedded the query. *)
Lemma DenseSearchEngine_search_indexed (index : list vec) (data : list Doc)
    (query : string) (top_k : Z) (log : list event) (v : vec) :
  (forall values, is_argsort values (argsort values)) ->
  (List.length index <= List.length data)%nat ->
  embed_provider (count_embeds log) [query] "query" = inr [v] ->
  exists output,
    DenseSearchEngine_search embed_provider cosine_distance argsort
      (mkDense (Some index) (Some data)) query top_k log
    = (inr output, (log ++ [EvEmbed [query] "query"; EvSleep 500])%list)
    /\ numbers_then_nan (map score output)
    /\ ((forall row, In row index -> cosine_distance v row <> NaN) ->
        exists numbers,
          map score output = map Finite numbers
          /\ non_increasing numbers).
Proof.
  intros Hsort Hlen Hembed.
  unfold DenseSearchEngine_search, bind, lift. cbn [dense_index dense_data].
  rewrite (batch_embed_single embed_provider query "query" v log Hembed).
  cbn [hd].
  destruct (distance_search v index data top_k Hsort Hlen)
    as (output & E & Hs & Hfree).
  exists output. now rewrite E.
Qed.

Lemma DenseSearchEngine_search_scores (self : DenseSearchEngine)
    (query : string) (top_k : Z) (log log' : list event)
    (output : list SearchResult) :
  DenseSearchEngine_search embed_provider cosine_distance argsort
    self query top_k log = (inr output, log') ->
  exists index query_vec,
    dense_index self = Some index
    /\ Forall (fun r => exists row,
                   In row index
                   /\ score r
                      = similarity (cosine_distance query_vec row)) output.
Proof.
  unfold DenseSearchEngine_search, bind, raise, lift, ret.
  destruct (dense_index self) as [index |]; [ | discriminate].
  destruct (batch_embed embed_provider [query] "query" 25 log)
    as [[e | query_embedding] log1]; [discriminate | ].
  intros H. exists index, (hd [] query_embedding). split; [reflexivity | ].
  destruct (dense_data self) as [data |].
  - injection H as E _. apply collect_scored, scored_against_row in E.
    rewrite Forall_forall in *. intros r Hr. now apply E.
  - destruct (slice_to _ top_k); [ | discriminate].
    injection H as <- _. constructor.
Qed.

(** The BM25 engine hands back what the library retrieved, each score
    rounded. *)
Lemma BM25SearchEngine_search_scores (self : BM25SearchEngine BM25)
    (query : string) (top_k : Z) (log : list event) :
  BM25SearchEngine_search BM25 bm25_retrieve self query top_k log
  = match bm25_data BM25 self with
    | None => (inl (Exn AssertionError "Data is not set"), log)
    | Some data =>
        match bm25_retrieve (bm25_self_index BM25 self) query data top_k with
        | inl e => (inl e, log)
        | inr retrieved =>
            (inr (map (fun p => mkResult (round4 (snd p)) (fst p)) retrieved),
             log)
        end
    end.
Proof.
  unfold BM25SearchEngine_search, bind, lift, raise, ret.
  destruct (bm25_data BM25 self) as [data |]; [ | reflexivity].
  destruct (bm25_retrieve _ query data top_k) as [e | retrieved];
    [reflexivity | ].
  f_equal. f_equal. apply map_ext. now intros [doc s].
Qed.

(** The vector-store engine, loaded, once the provider has embedded the
    query: the matches of the remote index, each score rounded. *)
Lemma VectorStoreSearchEngine_search_scores (query : string) (top_k : Z)
    (log : list event) (v : vec) :
  embed_provider (count_embeds log) [query] "query" = inr [v] ->
  VectorStoreSearchEngine_search embed_provider store_query
    (mkStore (Some tt)) query top_k log
  = match store_query v top_k with
    | inl e =>
        (inl e, (log ++ [EvEmbed [query] "query"; EvSleep 500;
                         EvStoreQuery v top_k])%list)
    | inr matches =>
        (inr (map (fun p => mkResult (round4 (snd p)) (fst p)) matches),
         (log ++ [EvEmbed [query] "query"; EvSleep 500;
                  EvStoreQuery v top_k])%list)
    end.
Proof.
  intros Hembed.
  unfold VectorStoreSearchEngine_search, bind, lift, ret, emit.
  rewrite (batch_embed_single embed_provider query "query" v log Hembed).
  cbn [store_index hd]. rewrite <- app_assoc. cbn [app].
  destruct (store_query v top_k) as [e | matches]; [reflexivity | ].
  f_equal. f_equal. apply map_ext. now intros [doc s].
Qed.

(** Rounding keeps a score sequence in order. *)
Lemma rounded_non_increasing (A : Type) (f : A -> Q) (l : list A) :
  non_increasing (map f l) ->
  non_increasing (map (fun x => round4 (f x)) l).
Proof.
  unfold non_increasing.
  induction l as [| x l IH]; simpl; intros H; [constructor | ].
  inversion H as [| ? ? Hl Hx]; subst.
  constructor; [now apply IH | ].
  rewrite Forall_map in *. rewrite Forall_forall in *.
  intros y Hy. apply round4_mono. now apply Hx.
Qed.

End SearchFacts.

(** A provider that fails with another error: the pass ends with that
    error after its one request, without sleeping. *)
Lemma batch_embed_drops_rate_limited_batch_witness :
  batch_embed_body Fixtures.failing_provider ["a"; "bb"; "ccc"]%string
    "passage" 2 (mkVars 0 []) []
  = (inl (Exn ProviderError "Service unavailable"),
     [EvEmbed ["a"; "bb"]%string "passage"]).
Proof.
  destruct batch_embed_drops_rate_limited_batch as (_ & _ & H).
  apply (H Fixtures.failing_provider ["a"; "bb"; "ccc"]%string
           "passage"%string 2 (mkVars 0 []) []
           (Exn ProviderError "Service unavailable"));
    reflexivity.
Defined.

(** C7 (the code departs from it): before [fit], the TF-IDF and the BM25
    engine fail their assertion and call nothing; the dense engine has no
    check and raises the [AttributeError] of [None.shape]; the vector-store
    engine has none either: it first sends the query to the embedding
    provider, sleeps, and then raises the [AttributeError] of
    [None.query]. *)
Theorem search_before_fit :
  (forall cosine_distance argsort Vectorizer transform query top_k log,
      TfidfSearchEngine_search cosine_distance argsort Vectorizer transform
        (TfidfSearchEngine_init Vectorizer) query top_k log
      = (inl (Exn AssertionError "Index is not set"), log))
  /\ (forall BM25 bm25_new bm25_retrieve query top_k log,
         BM25SearchEngine_search BM25 bm25_retrieve
           (BM25SearchEngine_init BM25 bm25_new) query top_k log
         = (inl (Exn AssertionError "Data is not set"), log))
  /\ (forall embed_provider cosine_distance argsort query top_k log,
         DenseSearchEngine_search embed_provider cosine_distance argsort
           DenseSearchEngine_init query top_k log
         = (inl (Exn AttributeError
                   "'NoneType' object has no attribute 'shape'"), log))
  /\ (forall embed_provider store_query query top_k log v,
         embed_provider (count_embeds log) [query] "query"%string
         = inr [v] ->
         VectorStoreSearchEngine_search embed_provider store_query
           VectorStoreSearchEngine_init query top_k log
         = (inl (Exn AttributeError
                   "'NoneType' object has no attribute 'query'"),
            (log ++ [EvEmbed [query] "query"; EvSleep 500])%list)).
Proof.
  split; [reflexivity | split; [reflexivity | split; [reflexivity | ]]].
  intros embed_provider store_query query top_k log v Hembed.
  unfold VectorStoreSearchEngine_search, bind.
  now rewrite (batch_embed_single embed_provider query "query" v log Hembed).
Qed.

(** A vector-store engine that was never fitted nor loaded, asked once. *)
Lemma search_before_fit_witness :
  VectorStoreSearchEngine_search Fixtures.steady_provider
    Fixtures.empty_store VectorStoreSearchEngine_init "query" 5 []
  = (inl (Exn AttributeError "'NoneType' object has no attribute 'query'"),
     [EvEmbed ["query"%string] "query"; EvSleep 500]).
Proof.
  destruct search_before_fit as (_ & _ & _ & H).
  apply (H Fixtures.steady_provider Fixtures.empty_store "query"%string 5 []
           [5 # 1]).
  reflexivity.
Defined.

(** C8 (amended): whatever order [argsort] gives to equal distances, the
    TF-IDF engine after [fit] and the dense engine over an index no longer
    than its corpus return results whose scores are numbers that never
    increase, followed by the results whose score is [nan]: a cosine
    distance is [nan] when the query vector or the row of the index is a
    zero vector, and [argsort] puts [nan] last.  When no distance is [nan]
    the scores are all numbers, in non-increasing order.  The BM25 and the
    vector-store engine keep the order in which the library or the remote
    index returned the results, so their scores are non-increasing whenever
    the returned ones are.  The order among results of equal score is not
    promised. *)
Theorem search_results_ordered
    (embed_provider : nat -> list string -> string -> result (list vec))
    (cosine_distance : vec -> vec -> pyfloat)
    (argsort : list pyfloat -> list nat)
    (Vectorizer : Type)
    (fit_transform : list string -> Vectorizer * list vec)
    (transform : Vectorizer -> string -> vec)
    (BM25 : Type) (bm25_new : BM25)
    (bm25_index : BM25 -> list string -> BM25)
    (bm25_retrieve :
       BM25 -> string -> list Doc -> Z -> result (list (Doc * Q)))
    (store_query : vec -> Z -> result (list (Doc * Q))) :
  (forall values, is_argsort values (argsort values)) ->
  (forall docs, List.length (snd (fit_transform docs)) = List.length docs) ->
  (forall data query top_k log,
      exists output,
        TfidfSearchEngine_search cosine_distance argsort Vectorizer
          transform
          (TfidfSearchEngine_fit Vectorizer fit_transform
             (TfidfSearchEngine_init Vectorizer) data) query top_k log
        = (inr output, log)
        /\ numbers_then_nan (map score output)
        /\ ((forall row,
                In row (snd (fit_transform (map text data))) ->
                cosine_distance
                  (transform (fst (fit_transform (map text data))) query)
                  row <> NaN) ->
            exists numbers,
              map score output = map Finite numbers
              /\ non_increasing numbers))
  /\ (forall index data query top_k log v,
         (List.length index <= List.length data)%nat ->
         embed_provider (count_embeds log) [query] "query"%string = inr [v] ->
         exists output,
           DenseSearchEngine_search embed_provider cosine_distance argsort
             (mkDense (Some index) (Some data)) query top_k log
           = (inr output,
              (log ++ [EvEmbed [query] "query"; EvSleep 500])%list)
           /\ numbers_then_nan (map score output)
           /\ ((forall row, In row index -> cosine_distance v row <> NaN) ->
               exists numbers,
                 map score output = map Finite numbers
                 /\ non_increasing numbers))
  /\ (forall data query top_k log retrieved,
         bm25_retrieve (bm25_index bm25_new (map text data)) query data
           top_k = inr retrieved ->
         exists output,
           BM25SearchEngine_search BM25 bm25_retrieve
             (BM25SearchEngine_fit BM25 bm25_index
                (BM25SearchEngine_init BM25 bm25_new) data) query top_k log
           = (inr output, log)
           /\ map payload output = map fst retrieved
           /\ exists numbers,
                map score output = map Finite numbers
                /\ (non_increasing (map snd retrieved) ->
                    non_increasing numbers))
  /\ (forall query top_k log v matches,
         embed_provider (count_embeds log) [query] "query"%string = inr [v] ->
         store_query v top_k = inr matches ->
         exists output,
           VectorStoreSearchEngine_search embed_provider store_query
             (mkStore (Some tt)) query top_k log
           = (inr output,
              (log ++ [EvEmbed [query] "query"; EvSleep 500;
                       EvStoreQuery v top_k])%list)
           /\ map payload output = map fst matches
           /\ exists numbers,
                map score output = map Finite numbers
                /\ (non_increasing (map snd matches) ->
                    non_increasing numbers)).
Proof.
  intros Hsort Hrows. split; [ | split; [ | split]].
  - intros data query top_k log.
    now apply TfidfSearchEngine_search_fitted.
  - intros index data query top_k log v Hlen Hembed.
    now apply DenseSearchEngine_search_indexed.
  - intros data query top_k log retrieved Hr.
    rewrite BM25SearchEngine_search_scores. simpl. rewrite Hr.
    eexists. split; [reflexivity | ].
    rewrite !map_map. simpl. split; [reflexivity | ].
    exists (map (fun p => round4 (snd p)) retrieved).
    rewrite map_map. split; [reflexivity | ].
    apply rounded_non_increasing.
  - intros query top_k log v matches Hembed Hq.
    rewrite (VectorStoreSearchEngine_search_scores _ _ _ _ _ v Hembed), Hq.
    eexists. split; [reflexivity | ].
    rewrite !map_map. simpl. split; [reflexivity | ].
    exists (map (fun p => round4 (snd p)) matches).
    rewrite map_map. split; [reflexivity | ].
    apply rounded_non_increasing.
Qed.

Lemma table_fit_transform_rows (docs : list string) :
  List.length (snd (Fixtures.table_fit_transform docs)) = List.length docs.
Proof. simpl. apply length_map. Qed.

(** The TF-IDF engine over a corpus whose first document is a zero row:
    the two numeric scores come first, the [nan] score last. *)
Lemma search_results_ordered_witness :
  exists output,
    TfidfSearchEngine_search Fixtures.cosine_distance_exact
      Fixtures.stable_argsort unit Fixtures.table_transform
      (TfidfSearchEngine_fit unit Fixtures.table_fit_transform
         (TfidfSearchEngine_init unit) Fixtures.zero_row_corpus) "query" 5 []
    = (inr output, [])
    /\ numbers_then_nan (map score output).
Proof.
  destruct (search_results_ordered Fixtures.table_provider
              Fixtures.cosine_distance_exact Fixtures.stable_argsort
              unit Fixtures.table_fit_transform Fixtures.table_transform
              unit tt (fun index _ => index) Fixtures.flat_bm25_retrieve
              Fixtures.one_match_store stable_argsort_spec
              table_fit_transform_rows) as [H _].
  destruct (H Fixtures.zero_row_corpus "query"%string 5 [])
    as (output & E & Hs & _).
  exists output. split; [exact E | exact Hs].
Defined.

(** C8, as stated, fails on ties: the corpus holds [near] before [nearer];
    their cosine distances to the query, 1/20201 and 1/80401, differ, both
    scores round to 1.0000, and the dense engine, even with a stable
    [argsort], returns [nearer] first. *)
Lemma equal_scores_not_in_corpus_order :
  let run :=
    (engine <- DenseSearchEngine_fit Fixtures.table_provider
                 DenseSearchEngine_init Fixtures.near_corpus ;;
     DenseSearchEngine_search Fixtures.table_provider
       Fixtures.cosine_distance_exact Fixtures.stable_argsort engine
       "query" 5) [] in
  exists first second,
    fst run = inr [first; second]
    /\ score first = score second
    /\ position (chunk_id (payload first)) Fixtures.near_corpus = Some 1%nat
    /\ position (chunk_id (payload second)) Fixtures.near_corpus
       = Some 0%nat.
Proof.
  vm_compute. do 2 eexists. repeat split.
Qed.

(** A zero vector in the index or as the query makes scores [nan]: over a
    corpus whose first document is a zero row the TF-IDF engine returns the
    scores 1.0000, -1.0000 and [nan], in this order; and a query outside
    the vocabulary scores every document [nan]. *)
Lemma zero_vector_scores_nan :
  (let run :=
     TfidfSearchEngine_search Fixtures.cosine_distance_exact
       Fixtures.stable_argsort unit Fixtures.table_transform
       (TfidfSearchEngine_fit unit Fixtures.table_fit_transform
          (TfidfSearchEngine_init unit) Fixtures.zero_row_corpus)
       "query" 5 [] in
   exists output,
     fst run = inr output
     /\ map score output
        = [Finite (10000 # 10000); Finite (-10000 # 10000); NaN]
     /\ map (fun r => chunk_id (payload r)) output
        = ["near"; "opposite"; "zebra"]%string)
  /\ (let run :=
        TfidfSearchEngine_search Fixtures.cosine_distance_exact
          Fixtures.stable_argsort unit Fixtures.table_transform
          (TfidfSearchEngine_fit unit Fixtures.table_fit_transform
             (TfidfSearchEngine_init unit) Fixtures.near_corpus)
          "zebra" 5 [] in
      exists output,
        fst run = inr output /\ map score output = [NaN; NaN]).
Proof.
  split; vm_compute; eexists; repeat split.
Qed.

Lemma similarity_bounds (d : Q) :
  ((0 <= d <= 1)%Q -> (0 <= round4 (1 - d) <= 1)%Q)
  /\ ((0 <= d <= 2)%Q -> (inject_Z (-1) <= round4 (1 - d) <= 1)%Q).
Proof.
  split; intros [H0 H1].
  - apply (round4_between 0 1). unfold inject_Z. split; lra.
  - apply (round4_between (-1) 1). unfold inject_Z. split; lra.
Qed.

(** C3 (amended): every score an engine returns is a number rounded to 4
    decimal digits, a multiple of 1/10000 within 1/20000 of the unrounded
    value, or [nan].  For the TF-IDF and the dense engine the score is the
    similarity to a row of the index: [nan] exactly when the cosine
    distance between the query vector and that row is [nan], as it is for
    a zero vector, and otherwise 1 - distance, rounded, so the score lies
    in [0,1] when the distance does, and in [-1,1] for a distance up to 2.
    For the BM25 engine it is the score the library retrieved, and for the
    vector-store engine the score of the remote match: rounded, and in
    [0,1] only when that score is. *)
Theorem search_scores_rounded
    (embed_provider : nat -> list string -> string -> result (list vec))
    (cosine_distance : vec -> vec -> pyfloat)
    (argsort : list pyfloat -> list nat)
    (Vectorizer : Type)
    (transform : Vectorizer -> string -> vec)
    (BM25 : Type)
    (bm25_retrieve :
       BM25 -> string -> list Doc -> Z -> result (list (Doc * Q)))
    (store_query : vec -> Z -> result (list (Doc * Q))) :
  (forall x,
      Qden (round4 x) = 10000%positive
      /\ (round4 x - (1 # 20000) <= x <= round4 x + (1 # 20000))%Q
      /\ ((0 <= x <= 1)%Q -> (0 <= round4 x <= 1)%Q))
  /\ (forall d,
         ((0 <= d <= 1)%Q -> (0 <= round4 (1 - d) <= 1)%Q)
         /\ ((0 <= d <= 2)%Q -> (inject_Z (-1) <= round4 (1 - d) <= 1)%Q))
  /\ (forall d,
         (similarity d = NaN <-> d = NaN)
         /\ (forall q, d = Finite q ->
                       similarity d = Finite (round4 (1 - q))))
  /\ (forall self query top_k log log' output,
         TfidfSearchEngine_search cosine_distance argsort Vectorizer
           transform self query top_k log = (inr output, log') ->
         exists vectorizer index,
           tfidf_vectorizer Vectorizer self = Some vectorizer
           /\ tfidf_index Vectorizer self = Some index
           /\ Forall (fun r =>
                        exists row,
                          In row index
                          /\ score r
                             = similarity
                                 (cosine_distance
                                    (transform vectorizer query) row))
                output)
  /\ (forall self query top_k log log' output,
         DenseSearchEngine_search embed_provider cosine_distance argsort
           self query top_k log = (inr output, log') ->
         exists index query_vec,
           dense_index self = Some index
           /\ Forall (fun r =>
                        exists row,
                          In row index
                          /\ score r
                             = similarity (cosine_distance query_vec row))
                output)
  /\ (forall self query top_k log log' output,
         BM25SearchEngine_search BM25 bm25_retrieve self query top_k log
         = (inr output, log') ->
         exists data retrieved,
           bm25_data BM25 self = Some data
           /\ bm25_retrieve (bm25_self_index BM25 self) query data top_k
              = inr retrieved
           /\ output
              = map (fun p => mkResult (round4 (snd p)) (fst p)) retrieved)
  /\ (forall self query top_k log log' output,
         VectorStoreSearchEngine_search embed_provider store_query self
           query top_k log = (inr output, log') ->
         exists vector matches,
           store_query vector top_k = inr matches
           /\ output
              = map (fun p => mkResult (round4 (snd p)) (fst p)) matches).
Proof.
  split; [ | split; [ | split; [ | split; [ | split; [ | split]]]]].
  - intros x. split; [reflexivity | ].
    split; [apply round4_error | apply (round4_between 0 1)].
  - apply similarity_bounds.
  - intros d. split; [apply similarity_nan | now intros q ->].
  - intros self query top_k log log' output H.
    destruct (TfidfSearchEngine_search_scores _ _ _ _ _ _ _ _ _ _ H)
      as (vectorizer & index & data & Hv & Hi & _ & Hs).
    exists vectorizer, index. repeat split; try assumption.
    rewrite Forall_forall in *. intros r Hr. now apply Hs.
  - intros self query top_k log log' output H.
    exact (DenseSearchEngine_search_scores _ _ _ _ _ _ _ _ _ H).
  - intros self query top_k log log' output H.
    rewrite BM25SearchEngine_search_scores in H.
    destruct (bm25_data BM25 self) as [data |]; [ | discriminate].
    destruct (bm25_retrieve _ query data top_k) as [e | retrieved] eqn:E;
      [discriminate | ].
    injection H as <- _. now exists data, retrieved.
  - intros self query top_k log log' output.
    unfold VectorStoreSearchEngine_search, bind, raise, lift, ret, emit.
    destruct (batch_embed embed_provider [query] "query" 25 log)
      as [[e | query_embedding] log1]; [discriminate | ].
    destruct (store_index self); [ | discriminate].
    destruct (store_query (hd [] query_embedding) top_k)
      as [e | matches] eqn:E; [discriminate | ].
    intros [= <- _]. exists (hd [] query_embedding), matches.
    split; [exact E | ]. apply map_ext. now intros [doc s].
Qed.

(** C3, as stated, fails: the BM25 engine returns the library's score 7/2
    as 3.5000, above 1; the dense engine scores a document whose embedding
    is opposite to the query's, at cosine distance 2, as -1.0000, below 0;
    and the TF-IDF engine, asked a query outside its vocabulary, scores
    its first result [nan], which is no number of [0,1]. *)
Lemma scores_outside_unit_interval :
  (let run :=
     BM25SearchEngine_search unit Fixtures.flat_bm25_retrieve
       (BM25SearchEngine_fit unit (fun index _ => index)
          (BM25SearchEngine_init unit tt) Fixtures.near_corpus)
       "query" 5 [] in
   exists r rest s,
     fst run = inr (r :: rest) /\ score r = Finite s /\ (1 < s)%Q)
  /\ (let run :=
        (engine <- DenseSearchEngine_fit Fixtures.table_provider
                     DenseSearchEngine_init Fixtures.opposite_corpus ;;
         DenseSearchEngine_search Fixtures.table_provider
           Fixtures.cosine_distance_exact Fixtures.stable_argsort engine
           "query" 5) [] in
      exists r rest s,
        fst run = inr (r :: rest) /\ score r = Finite s /\ (s < 0)%Q)
  /\ (let run :=
        TfidfSearchEngine_search Fixtures.cosine_distance_exact
          Fixtures.stable_argsort unit Fixtures.table_transform
          (TfidfSearchEngine_fit unit Fixtures.table_fit_transform
             (TfidfSearchEngine_init unit) Fixtures.near_corpus)
          "zebra" 5 [] in
      exists r rest, fst run = inr (r :: rest) /\ score r = NaN).
Proof.
  split; [ | split]; vm_compute.
  - do 3 eexists. repeat split.
  - do 3 eexists. repeat split.
  - do 2 eexists. repeat split.
Qed.

(** At the distance 1/20201 of the worked example the score lies in
    [0,1]. *)
Lemma search_scores_rounded_witness :
  (0 <= round4 (1 - (1 # 20201)) <= 1)%Q.
Proof.
  destruct (search_scores_rounded Fixtures.table_provider
              Fixtures.cosine_distance_exact Fixtures.stable_argsort unit
              Fixtures.table_transform unit Fixtures.flat_bm25_retrieve
              Fixtures.one_match_store) as (_ & H & _).
  apply (H (1 # 20201)). unfold Qle. simpl. lia.
Defined.

(* ------------------------------------------------------------------ *)
(** * Further properties of [batch_embed] *)

Section BatchEmbedSuccess.

Variable embed_provider : nat -> list string -> string -> result (list vec).
Variable embed : string -> vec.
Variables (docs : list string) (input_type : string) (batch_size : Z).

Hypothesis batch_size_pos : 0 < batch_size.
Hypothesis provider_answers :
  forall n inputs, embed_provider n inputs input_type = inr (map embed inputs).

Lemma firstn_add_skipn (A : Type) (n m : nat) (l : list A) :
  firstn (n + m) l = (firstn n l ++ firstn m (skipn n l))%list.
Proof.
  revert l. induction n as [| n IH]; intros l; [reflexivity | ].
  destruct l as [| x l]; simpl.
  - now rewrite firstn_nil.
  - now rewrite IH.
Qed.

Lemma slice_batch (a : nat) :
  slice docs (Z.of_nat a * batch_size) (Z.of_nat a * batch_size + batch_size)
  = firstn (Z.to_nat batch_size) (skipn (a * Z.to_nat batch_size) docs).
Proof.
  unfold slice. f_equal; [f_equal; lia | f_equal; nia].
Qed.

(** A pass over the batch number [a], the embeddings of the documents
    before it being collected: the batch's embeddings are added. *)
Lemma batch_embed_body_success (a : nat) (v : embed_vars) (log : list event) :
  i v = Z.of_nat a * batch_size ->
  all_embeddings v = map embed (firstn (a * Z.to_nat batch_size) docs) ->
  batch_embed_body embed_provider docs input_type batch_size v log
  = (inr (mkVars (i v)
            (map embed (firstn (S a * Z.to_nat batch_size) docs))),
     (log ++ [request docs input_type batch_size (i v); EvSleep 500])%list).
Proof.
  intros Hi Hall.
  unfold batch_embed_body, try_except, bind, pc_inference_embed, time_sleep,
    emit, ret, request.
  rewrite provider_answers, Hi, slice_batch, Hall, <- map_app.
  rewrite <- firstn_add_skipn, <- app_assoc.
  replace (a * Z.to_nat batch_size + Z.to_nat batch_size)%nat
    with (S a * Z.to_nat batch_size)%nat by lia.
  reflexivity.
Qed.

Lemma for_each_success (m a : nat) (v : embed_vars) (log : list event) :
  all_embeddings v = map embed (firstn (a * Z.to_nat batch_size) docs) ->
  exists v',
    for_each (map (fun j => Z.of_nat j * batch_size) (seq a m))
      (batch_embed_body embed_provider docs input_type batch_size) v log
    = (inr v',
       (log ++ flat_map
                 (fun start => [request docs input_type batch_size start;
                                EvSleep 500])
                 (map (fun j => Z.of_nat j * batch_size) (seq a m)))%list)
    /\ all_embeddings v'
       = map embed (firstn ((a + m) * Z.to_nat batch_size) docs).
Proof.
  revert a v log. induction m as [| m IH]; intros a v log Hall.
  - exists v. simpl. unfold ret. rewrite app_nil_r, Nat.add_0_r. auto.
  - cbn [seq map for_each flat_map]. unfold bind.
    rewrite (batch_embed_body_success a
               (mkVars (Z.of_nat a * batch_size) (all_embeddings v)) log
               eq_refl Hall).
    cbn [i].
    destruct (IH (S a)
                (mkVars (Z.of_nat a * batch_size)
                   (map embed (firstn (S a * Z.to_nat batch_size) docs)))
                (log ++ [request docs input_type batch_size
                           (Z.of_nat a * batch_size); EvSleep 500])%list
                eq_refl) as (v' & E & Hv').
    exists v'. rewrite E. split.
    + f_equal. rewrite <- app_assoc. reflexivity.
    + rewrite Hv'. do 2 f_equal. lia.
Qed.

Lemma np_stack_uniform (rows : list vec) :
  rows <> [] ->
  (forall r r', In r rows -> In r' rows -> List.length r = List.length r') ->
  np_stack rows = inr rows.
Proof.
  intros Hne Hlen. unfold np_stack.
  destruct rows as [| a rest]; [congruence | ].
  replace (forallb _ rest) with true; [reflexivity | ].
  symmetry. apply forallb_forall. intros b Hb. apply Nat.eqb_eq.
  apply Hlen; [now right | now left].
Qed.

Lemma batch_count_covers :
  (List.length docs
   <= Z.to_nat ((Z.of_nat (List.length docs) + batch_size - 1) / batch_size)
      * Z.to_nat batch_size)%nat.
Proof.
  set (n := Z.of_nat (List.length docs)).
  assert (H : n <= ((n + batch_size - 1) / batch_size) * batch_size).
  { pose proof (Z.div_mod (n + batch_size - 1) batch_size ltac:(lia)).
    pose proof (Z.mod_pos_bound (n + batch_size - 1) batch_size
                  batch_size_pos). nia. }
  assert (0 <= (n + batch_size - 1) / batch_size)
    by (apply Z.div_pos; lia).
  apply Nat2Z.inj_le. rewrite Nat2Z.inj_mul, !Z2Nat.id by lia. exact H.
Qed.

End BatchEmbedSuccess.

(** X1: when the provider answers every request with one vector per input
    text, all of one dimension, [batch_embed] over a non-empty list and a
    positive batch size returns the embeddings of all documents, in the
    order of the documents, after one request per batch, each followed by a
    sleep of 500 ms. *)
Theorem batch_embed_embeds_every_document
    (embed_provider : nat -> list string -> string -> result (list vec))
    (embed : string -> vec) (docs : list string) (input_type : string)
    (batch_size : Z) (log : list event) :
  0 < batch_size ->
  docs <> [] ->
  (forall n inputs,
      embed_provider n inputs input_type = inr (map embed inputs)) ->
  (forall t t', List.length (embed t) = List.length (embed t')) ->
  let batches :=
    Z.to_nat ((Z.of_nat (List.length docs) + batch_size - 1) / batch_size) in
  batch_embed embed_provider docs input_type batch_size log
  = (inr (map embed docs),
     (log ++ flat_map
               (fun start => [request docs input_type batch_size start;
                              EvSleep 500])
               (map (fun j => Z.of_nat j * batch_size) (seq 0 batches)))%list).
Proof.
  intros Hpos Hne Hanswer Hdim batches.
  unfold batch_embed, bind, lift, range0.
  destruct (Z.eqb_spec batch_size 0) as [E | _]; [lia | ].
  destruct (Z.ltb_spec batch_size 0) as [E | _]; [lia | ].
  fold batches.
  destruct (for_each_success embed_provider embed docs input_type batch_size
              Hpos Hanswer batches 0 (mkVars 0 []) log eq_refl)
    as (v' & E & Hv').
  rewrite E, Hv'. cbn [Nat.add].
  rewrite firstn_all2 by (apply batch_count_covers; exact Hpos).
  rewrite np_stack_uniform; [reflexivity | | ].
  - destruct docs; [congruence | discriminate].
  - intros r r' Hr Hr'. apply in_map_iff in Hr, Hr'.
    destruct Hr as (t & <- & _). destruct Hr' as (t' & <- & _). apply Hdim.
Qed.

Lemma batch_embed_embeds_every_document_witness :
  batch_embed Fixtures.steady_provider ["a"; "bb"; "ccc"]%string
    "passage" 2 []
  = (inr [[1 # 1]; [2 # 1]; [3 # 1]],
     [EvEmbed ["a"; "bb"]%string "passage"; EvSleep 500;
      EvEmbed ["ccc"%string] "passage"; EvSleep 500]).
Proof.
  apply (batch_embed_embeds_every_document Fixtures.steady_provider
           (fun t => [Z.of_nat (String.length t) # 1])
           ["a"; "bb"; "ccc"]%string "passage"%string 2 []);
    [lia | discriminate | reflexivity | reflexivity].
Defined.

(** X2: with nothing to embed, [batch_embed] raises [ValueError] without
    any request to the provider: an empty document list or a negative batch
    size leaves [np.stack] without rows, and a batch size of 0 is refused by
    [range]. *)
Theorem batch_embed_without_batches
    (embed_provider : nat -> list string -> string -> result (list vec))
    (docs : list string) (input_type : string) (batch_size : Z)
    (log : list event) :
  docs = [] \/ batch_size <= 0 ->
  exists msg,
    batch_embed embed_provider docs input_type batch_size log
    = (inl (Exn ValueError msg), log).
Proof.
  intros H. unfold batch_embed, bind, lift, range0.
  destruct (Z.eqb_spec batch_size 0) as [E0 | Hne0]; [eauto | ].
  destruct (Z.ltb_spec batch_size 0) as [Eneg | Hpos].
  - cbn [for_each]. unfold ret. cbn [all_embeddings np_stack]. eauto.
  - destruct H as [-> | H]; [ | lia].
    cbn [List.length Z.of_nat]. rewrite Z.div_small by lia.
    cbn [Z.to_nat seq map for_each]. unfold ret.
    cbn [all_embeddings np_stack]. eauto.
Qed.

Lemma batch_embed_without_batches_witness :
  exists msg,
    batch_embed Fixtures.steady_provider [] "passage" 25 []
    = (inl (Exn ValueError msg), []).
Proof.
  exact (batch_embed_without_batches Fixtures.steady_provider []
           "passage"%string 25 [] (or_introl eq_refl)).
Defined.

(** One query whose request fails: after a rate limit the loop sleeps 60 s
    and ends without any embedding, so [np.stack] raises; any other failure
    leaves [batch_embed] as it is. *)
Lemma batch_embed_single_failure
    (embed_provider : nat -> list string -> string -> result (list vec))
    (query input_type : string) (log : list event) (e : exn) :
  embed_provider (count_embeds log) [query] input_type = inl e ->
  batch_embed embed_provider [query] input_type 25 log
  = if is_rate_limit e
    then (inl (Exn ValueError "need at least one array to stack"),
          (log ++ [EvEmbed [query] input_type; EvSleep 60000])%list)
    else (inl e, (log ++ [EvEmbed [query] input_type])%list).
Proof.
  intros H.
  unfold batch_embed, bind, lift.
  change (range0 (Z.of_nat (List.length [query])) 25) with (@inr exn _ [0]).
  cbn [for_each]. unfold bind.
  unfold batch_embed_body, try_except, bind, pc_inference_embed.
  cbn [i all_embeddings].
  change (slice [query] 0 (0 + 25)) with [query].
  rewrite H. destruct (is_rate_limit e).
  - unfold time_sleep, emit, ret. cbn [all_embeddings np_stack].
    now rewrite <- app_assoc.
  - reflexivity.
Qed.

(** X3: when the embedding provider fails on the query, the dense engine
    (with an index) and the vector-store engine (in any state) raise without
    searching: after a rate limit they sleep 60 s, send no second request
    and raise the [ValueError] of [np.stack]; any other exception of the
    provider is raised as it is, at once. *)
Theorem search_when_embedding_fails
    (embed_provider : nat -> list string -> string -> result (list vec))
    (cosine_distance : vec -> vec -> pyfloat)
    (argsort : list pyfloat -> list nat)
    (store_query : vec -> Z -> result (list (Doc * Q)))
    (query : string) (top_k : Z) (log : list event) (e : exn) :
  embed_provider (count_embeds log) [query] "query"%string = inl e ->
  let outcome :=
    if is_rate_limit e
    then (inl (Exn ValueError "need at least one array to stack"),
          (log ++ [EvEmbed [query] "query"; EvSleep 60000])%list)
    else (inl e, (log ++ [EvEmbed [query] "query"])%list) in
  (forall index data,
      DenseSearchEngine_search embed_provider cosine_distance argsort
        (mkDense (Some index) data) query top_k log = outcome)
  /\ (forall self,
         VectorStoreSearchEngine_search embed_provider store_query self
           query top_k log = outcome).
Proof.
  intros H outcome. subst outcome. split.
  - intros index data.
    unfold DenseSearchEngine_search, bind. cbn [dense_index].
    rewrite (batch_embed_single_failure _ _ _ _ _ H).
    destruct (is_rate_limit e); reflexivity.
  - intros self. unfold VectorStoreSearchEngine_search, bind.
    rewrite (batch_embed_single_failure _ _ _ _ _ H).
    destruct (is_rate_limit e); reflexivity.
Qed.

Lemma search_when_embedding_fails_witness :
  DenseSearchEngine_search Fixtures.rate_limited_provider
    Fixtures.cosine_distance_exact Fixtures.stable_argsort
    (mkDense (Some [[1 # 1]]) (Some Fixtures.opposite_corpus)) "query" 5 []
  = (inl (Exn ValueError "need at least one array to stack"),
     [EvEmbed ["query"%string] "query"; EvSleep 60000]).
Proof.
  destruct (search_when_embedding_fails Fixtures.rate_limited_provider
              Fixtures.cosine_distance_exact Fixtures.stable_argsort
              Fixtures.empty_store "query"%string 5 []
              (Exn ProviderError "429: rate limit exceeded") eq_refl)
    as [H _].
  exact (H [[1 # 1]] (Some Fixtures.opposite_corpus)).
Defined.

(* ------------------------------------------------------------------ *)
(** * Properties of the reranker *)

Section RerankFacts.

Variable rerank_provider :
  string -> list string -> pyint -> result (list (nat * Q)).

Lemma set_score_length (documents : list SearchResult) (idx : nat) (s : Q) :
  List.length (set_score documents idx s) = List.length documents.
Proof.
  revert idx. induction documents as [| d rest IH]; intros [| n]; simpl;
    auto.
Qed.

Lemma set_score_nth (documents : list SearchResult) (idx j : nat) (s : Q) :
  nth_error (set_score documents idx s) j
  = if Nat.eqb idx j
    then option_map (fun d => mkResult s (payload d)) (nth_error documents j)
    else nth_error documents j.
Proof.
  revert idx j. induction documents as [| d rest IH]; intros idx j.
  - destruct idx, j; simpl; try reflexivity;
      destruct (Nat.eqb _ _); reflexivity.
  - destruct idx as [| idx], j as [| j]; simpl; try reflexivity.
    apply IH.
Qed.

(** The loop over the provider's answer, all of whose positions exist:
    every document ends under the score assigned to it last. *)
Lemma rerank_loop_spec (data : list (nat * Q))
    (documents : list SearchResult) (refs : list nat) :
  Forall (fun p => (fst p < List.length documents)%nat) data ->
  exists documents',
    rerank_loop documents data refs
    = inr (documents', (refs ++ map fst data)%list)
    /\ List.length documents' = List.length documents
    /\ forall j,
         nth_error documents' j
         = match last_score j data with
           | Some s => option_map (rescored s) (nth_error documents j)
           | None => nth_error documents j
           end.
Proof.
  revert documents refs. induction data as [| [idx s] rest IH];
    intros documents refs Hrange.
  - exists documents. simpl. rewrite app_nil_r. auto.
  - inversion Hrange as [| ? ? Hidx Hrest]; subst. simpl in Hidx.
    cbn [rerank_loop].
    apply Nat.ltb_lt in Hidx. rewrite Hidx.
    destruct (IH (set_score documents idx (round4 s)) (refs ++ [idx])%list)
      as (documents' & E & Hlen & Hnth).
    { rewrite set_score_length. exact Hrest. }
    exists documents'. rewrite E. split; [ | split].
    + rewrite <- app_assoc. reflexivity.
    + now rewrite Hlen, set_score_length.
    + intros j. rewrite Hnth. cbn [last_score].
      destruct (last_score j rest) as [s' |].
      * rewrite set_score_nth. destruct (Nat.eqb idx j); [ | reflexivity].
        destruct (nth_error documents j); reflexivity.
      * rewrite set_score_nth. destruct (Nat.eqb idx j); reflexivity.
Qed.

(** A position that does not exist ends the loop with [IndexError]. *)
Lemma rerank_loop_out_of_range (data : list (nat * Q))
    (documents : list SearchResult) (refs : list nat) :
  ~ Forall (fun p => (fst p < List.length documents)%nat) data ->
  rerank_loop documents data refs
  = inl (Exn IndexError "list index out of range").
Proof.
  revert documents refs. induction data as [| [idx s] rest IH];
    intros documents refs Hbad.
  - exfalso. apply Hbad. constructor.
  - cbn [rerank_loop].
    destruct (Nat.ltb_spec idx (List.length documents)) as [Hlt | Hge];
      [ | reflexivity].
    apply IH. rewrite set_score_length. intros Hrest. apply Hbad.
    now constructor.
Qed.

Lemma last_score_In (idx : nat) (s : Q) (data : list (nat * Q)) :
  In (idx, s) data -> exists s', last_score idx data = Some s'.
Proof.
  induction data as [| [j t] rest IH]; [intros [] | ].
  intros [E | Hin]; cbn [last_score].
  - injection E as -> ->. destruct (last_score idx rest); eauto.
    rewrite Nat.eqb_refl. eauto.
  - destruct (IH Hin) as (s' & ->). eauto.
Qed.

Lemma last_score_NoDup (idx : nat) (s : Q) (data : list (nat * Q)) :
  NoDup (map fst data) -> In (idx, s) data -> last_score idx data = Some s.
Proof.
  induction data as [| [j t] rest IH]; [intros _ [] | ].
  intros Hnd [E | Hin]; inversion Hnd as [| ? ? Hj Hrest]; subst;
    cbn [last_score].
  - injection E as -> ->.
    destruct (last_score idx rest) as [s' |] eqn:El.
    + exfalso. apply Hj.
      clear - El. induction rest as [| [j t] rest IH]; [discriminate | ].
      cbn [last_score] in El. simpl.
      destruct (last_score idx rest); [right; now apply IH | ].
      destruct (Nat.eqb_spec j idx); [now left | discriminate].
    + now rewrite Nat.eqb_refl.
  - now rewrite (IH Hrest Hin).
Qed.

End RerankFacts.

Lemma rerank_output_spec (documents documents' : list SearchResult)
    (answer data : list (nat * Q)) :
  (forall j,
      nth_error documents' j
      = match last_score j answer with
        | Some s => option_map (rescored s) (nth_error documents j)
        | None => nth_error documents j
        end) ->
  Forall (fun p => (fst p < List.length documents)%nat) data ->
  incl data answer ->
  Forall2
    (fun p r => exists d s,
         nth_error documents (fst p) = Some d
         /\ last_score (fst p) answer = Some s
         /\ r = rescored s d)
    data
    (flat_map (fun idx => match nth_error documents' idx with
                          | Some d => [d]
                          | None => []
                          end) (map fst data)).
Proof.
  intros Hnth. induction data as [| [idx s] rest IH]; intros Hrange Hincl.
  - constructor.
  - inversion Hrange as [| ? ? Hidx Hrest]; subst. simpl in Hidx.
    destruct (nth_error documents idx) as [d |] eqn:Ed;
      [ | apply nth_error_None in Ed; lia].
    destruct (last_score_In idx s answer) as (s' & Es);
      [apply Hincl; now left | ].
    cbn [map flat_map fst]. rewrite Hnth, Es, Ed. cbn [option_map app].
    constructor.
    + exists d, s'. auto.
    + apply IH; [exact Hrest | ].
      intros p Hp. apply Hincl. now right.
Qed.

Lemma rerank_output_nodup (documents : list SearchResult)
    (answer data : list (nat * Q)) (output : list SearchResult) :
  NoDup (map fst answer) ->
  incl data answer ->
  Forall2
    (fun p r => exists d s,
         nth_error documents (fst p) = Some d
         /\ last_score (fst p) answer = Some s
         /\ r = rescored s d) data output ->
  Forall2
    (fun p r => exists d,
         nth_error documents (fst p) = Some d /\ r = rescored (snd p) d)
    data output.
Proof.
  intros Hnd Hincl H. revert Hincl.
  induction H as [| [idx s] r data output (d & s' & Hd & Hs & ->) _ IH];
    intros Hincl; constructor.
  - cbn [fst snd] in *. exists d. split; [exact Hd | ].
    rewrite (last_score_NoDup idx s answer Hnd) in Hs
      by (apply Hincl; now left).
    now injection Hs as <-.
  - apply IH. intros p Hp. apply Hincl. now right.
Qed.

(** X4: what the reranker does with candidates it cannot rerank.  Without
    candidates [Reranker.invoke] raises [IndexError] before any call to the
    cross-encoder, so both orchestrators raise [IndexError] when their
    search engines find nothing; and a position in the cross-encoder's
    answer that is not one of the candidates raises [IndexError] too. *)
Theorem rerank_without_candidates
    (rerank_provider :
       string -> list string -> pyint -> result (list (nat * Q))) :
  (forall query top_n log,
      Reranker_invoke rerank_provider query [] top_n log
      = (inl (Exn IndexError "list index out of range"), log))
  /\ (forall search_engine query top_k top_n breadth final log log',
         RetrieverWithReranker_derive top_k top_n = inr (breadth, final) ->
         search_engine query breadth log = (inr [], log') ->
         RetrieverWithReranker_invoke search_engine
           (Reranker_invoke rerank_provider) query top_k top_n log
         = (inl (Exn IndexError "list index out of range"), log'))
  /\ (forall sparse dense query top_k top_n breadth final log log1 log2,
         HybridRetrieverWithReranker_derive top_k top_n
         = inr (breadth, final) ->
         sparse query breadth log = (inr [], log1) ->
         dense query breadth log1 = (inr [], log2) ->
         HybridRetrieverWithReranker_invoke sparse dense
           (Reranker_invoke rerank_provider) query top_k top_n log
         = (inl (Exn IndexError "list index out of range"), log2))
  /\ (forall query documents top_n log answer,
         documents <> [] ->
         rerank_provider query (map (fun doc => text (payload doc)) documents)
           top_n = inr answer ->
         ~ Forall (fun p => (fst p < List.length documents)%nat) answer ->
         Reranker_invoke rerank_provider query documents top_n log
         = (inl (Exn IndexError "list index out of range"),
            (log ++ [EvRerank query documents top_n])%list)).
Proof.
  split; [reflexivity | split; [ | split]].
  - intros search_engine query top_k top_n breadth final log log' Hd Hs.
    rewrite (RetrieverWithReranker_invoke_run _ _ _ _ _ _ _ _ Hd).
    unfold bind. rewrite Hs. reflexivity.
  - intros sparse dense query top_k top_n breadth final log log1 log2
      Hd Hs Hde.
    rewrite (HybridRetrieverWithReranker_invoke_run _ _ _ _ _ _ _ _ _ Hd).
    unfold bind. rewrite Hs, Hde. reflexivity.
  - intros query documents top_n log answer Hne Hanswer Hbad.
    unfold Reranker_invoke.
    destruct documents as [| d rest]; [congruence | ].
    cbn [map]. unfold bind, emit, lift.
    cbn [map] in Hanswer. rewrite Hanswer.
    now rewrite (rerank_loop_out_of_range answer (d :: rest) [] Hbad).
Qed.

Lemma rerank_without_candidates_witness :
  RetrieverWithReranker_invoke
    (Fixtures.recording_engine "engine" [])
    (Reranker_invoke Fixtures.keep_first_provider) "query" (Some 5) None []
  = (inl (Exn IndexError "list index out of range"),
     [EvSearch "engine" "query" (Some 10)]).
Proof.
  destruct (rerank_without_candidates Fixtures.keep_first_provider)
    as (_ & H & _).
  apply (H (Fixtures.recording_engine "engine" []) "query"%string
           (Some 5) None (Some 10) (Some 5) []); reflexivity.
Defined.

(** X5: when the cross-encoder answers with positions of candidates,
    [Reranker.invoke] returns one result per entry of the answer, in the
    order of the answer: the candidate at that position with all its fields
    unchanged, under the score, rounded to 4 digits, that the answer gives
    last to that position; so under the entry's own score when the answer
    names no position twice. *)
Theorem rerank_rescoring
    (rerank_provider :
       string -> list string -> pyint -> result (list (nat * Q)))
    (query : string) (documents : list SearchResult) (top_n : pyint)
    (log : list event) (answer : list (nat * Q)) :
  documents <> [] ->
  rerank_provider query (map (fun doc => text (payload doc)) documents) top_n
  = inr answer ->
  Forall (fun p => (fst p < List.length documents)%nat) answer ->
  exists output,
    Reranker_invoke rerank_provider query documents top_n log
    = (inr output, (log ++ [EvRerank query documents top_n])%list)
    /\ Forall2
         (fun p r => exists d s,
              nth_error documents (fst p) = Some d
              /\ last_score (fst p) answer = Some s
              /\ r = rescored s d) answer output
    /\ (NoDup (map fst answer) ->
        Forall2
          (fun p r => exists d,
               nth_error documents (fst p) = Some d
               /\ r = rescored (snd p) d) answer output).
Proof.
  intros Hne Hanswer Hrange.
  destruct (rerank_loop_spec answer documents [] Hrange)
    as (documents' & E & _ & Hnth).
  pose proof (rerank_output_spec documents documents' answer answer Hnth
                Hrange (incl_refl _)) as Hout.
  eexists. split; [ | split; [exact Hout | ]].
  - unfold Reranker_invoke.
    destruct documents as [| d rest]; [congruence | ].
    cbn [map] in *. unfold bind, emit, lift, ret.
    rewrite Hanswer, E. reflexivity.
  - intros Hnd. exact (rerank_output_nodup _ _ _ _ Hnd (incl_refl _) Hout).
Qed.

Lemma rerank_rescoring_witness :
  exists output,
    Reranker_invoke Fixtures.keep_first_provider "query" Fixtures.sparse_ABC
      (Some 2) []
    = (inr output, [EvRerank "query" Fixtures.sparse_ABC (Some 2)])
    /\ List.length output = 2%nat.
Proof.
  destruct (rerank_rescoring Fixtures.keep_first_provider "query"%string
              Fixtures.sparse_ABC (Some 2) []
              [(0%nat, 1 # 2); (1%nat, 1 # 2)])
    as (output & E & H & _).
  - discriminate.
  - reflexivity.
  - repeat constructor.
  - exists output. split; [exact E | ].
    apply Forall2_length in H. now rewrite <- H.
Defined.

(* ------------------------------------------------------------------ *)
(** * Further properties of the hybrid fusion *)

Section FusionOrder.

Lemma build_keys_order (retrievals : list SearchResult)
    (d : list (string * SearchResult)) :
  map fst (build retrievals d)
  = (map fst d ++ first_seen (map fst d) (map result_id retrievals))%list.
Proof.
  revert d. induction retrievals as [| r rest IH]; intros d.
  - simpl. now rewrite app_nil_r.
  - cbn [build fold_left map first_seen].
    fold (build rest (dict_set d (chunk_id (payload r)) r)).
    rewrite IH, dict_set_keys. fold (result_id r).
    destruct (existsb (String.eqb (result_id r)) (map fst d));
      [reflexivity | ].
    now rewrite <- app_assoc.
Qed.

Lemma dict_set_fresh (d : list (string * SearchResult)) (key : string)
    (value : SearchResult) :
  ~ In key (map fst d) -> dict_set d key value = (d ++ [(key, value)])%list.
Proof.
  induction d as [| [k v] d IH]; intros Hfresh; simpl; [reflexivity | ].
  destruct (String.eqb_spec k key) as [-> | Hne].
  - exfalso. apply Hfresh. now left.
  - rewrite IH; [reflexivity | ]. intros Hin. apply Hfresh. now right.
Qed.

Lemma build_fresh (retrievals : list SearchResult)
    (d : list (string * SearchResult)) :
  NoDup (map fst d ++ map result_id retrievals) ->
  build retrievals d
  = (d ++ map (fun r => (result_id r, r)) retrievals)%list.
Proof.
  revert d. induction retrievals as [| r rest IH]; intros d Hnd.
  - simpl. now rewrite app_nil_r.
  - cbn [build fold_left map].
    fold (build rest (dict_set d (chunk_id (payload r)) r)).
    fold (result_id r).
    assert (Hfresh : ~ In (result_id r) (map fst d)).
    { intros Hin. cbn [map] in Hnd.
      apply NoDup_remove_2 in Hnd. apply Hnd, in_or_app. now left. }
    rewrite (dict_set_fresh d _ r Hfresh), IH.
    + now rewrite <- app_assoc.
    + rewrite map_app. cbn [map fst]. rewrite <- app_assoc. exact Hnd.
Qed.

Lemma first_seen_length (seen ids : list string) :
  (List.length (first_seen seen ids) <= List.length ids)%nat.
Proof.
  revert seen. induction ids as [| id rest IH]; intros seen; simpl; [lia | ].
  destruct (existsb (String.eqb id) seen); simpl.
  - specialize (IH seen). lia.
  - specialize (IH (seen ++ [id])%list). lia.
Qed.

End FusionOrder.

(** X6: the order and size of the fused list.  [dedupe] keeps the chunk ids
    in the order of their first occurrence; a list without repeated chunk
    id comes back unchanged, so fusing sparse and dense results that share
    no chunk is their concatenation; [dedupe] is idempotent and never
    returns more results than it received. *)
Theorem dedupe_first_occurrence_order (retrievals : list SearchResult) :
  map result_id (dedupe retrievals)
  = first_seen [] (map result_id retrievals)
  /\ (NoDup (map result_id retrievals) -> dedupe retrievals = retrievals)
  /\ dedupe (dedupe retrievals) = dedupe retrievals
  /\ (List.length (dedupe retrievals) <= List.length retrievals)%nat.
Proof.
  assert (Hfresh : forall l, NoDup (map result_id l) -> dedupe l = l).
  { intros l Hnd. unfold dedupe. fold (build l []).
    rewrite build_fresh by exact Hnd. cbn [app].
    rewrite map_map. cbn [snd]. apply map_id. }
  assert (Hids : map result_id (dedupe retrievals)
                 = first_seen [] (map result_id retrievals)).
  { rewrite dedupe_ids, build_keys_order. reflexivity. }
  split; [exact Hids | split; [apply Hfresh | split]].
  - apply Hfresh. rewrite dedupe_ids.
    apply (build_invariant retrievals []); constructor.
  - rewrite <- (length_map result_id (dedupe retrievals)), Hids.
    rewrite <- (length_map result_id retrievals).
    apply first_seen_length.
Qed.

Lemma dedupe_first_occurrence_order_witness :
  dedupe (Fixtures.sparse_ABC ++ [Fixtures.hit (6 # 10) "D"])
  = (Fixtures.sparse_ABC ++ [Fixtures.hit (6 # 10) "D"])%list.
Proof.
  destruct (dedupe_first_occurrence_order
              (Fixtures.sparse_ABC ++ [Fixtures.hit (6 # 10) "D"]))
    as (_ & H & _).
  apply H. repeat constructor; simpl; intuition discriminate.
Defined.

(* ------------------------------------------------------------------ *)
(** * How many results a search returns *)

Section ResultCount.

Variable cosine_distance : vec -> vec -> pyfloat.
Variable argsort : list pyfloat -> list nat.
Hypothesis argsort_sorts : forall values, is_argsort values (argsort values).

Lemma slice_to_length_spec (A : Type) (l : list A) (k : Z) :
  List.length (slice_to l k) = slice_to_length (List.length l) k.
Proof.
  unfold slice_to, slice_to_length.
  destruct (0 <=? k) eqn:E; rewrite length_firstn; [reflexivity | ].
  apply Z.leb_gt in E. lia.
Qed.

Lemma firstn_NoDup (A : Type) (l : list A) (n : nat) :
  NoDup l -> NoDup (firstn n l).
Proof.
  intros H. rewrite <- (firstn_skipn n l) in H.
  now apply NoDup_app_remove_r in H.
Qed.

Lemma ranked_search_count (cosine_distances : list pyfloat) (data : list Doc)
    (top_k : Z) :
  (List.length cosine_distances <= List.length data)%nat ->
  exists output,
    collect cosine_distances data
      (slice_to (argsort cosine_distances) top_k) = inr output
    /\ List.length output
       = slice_to_length (List.length cosine_distances) top_k
    /\ exists positions,
         NoDup positions
         /\ Forall2 (fun idx r => nth_error data idx = Some (payload r))
              positions output.
Proof.
  intros Hlen.
  destruct (ranked_search argsort cosine_distances data top_k
              (argsort_sorts _) Hlen) as (output & E & _ & Hsc).
  exists output. split; [exact E | ].
  destruct (argsort_sorts cosine_distances) as [Hperm _].
  split.
  - rewrite <- (Forall2_length Hsc), slice_to_length_spec.
    now rewrite (Permutation_length Hperm), length_seq.
  - exists (slice_to (argsort cosine_distances) top_k). split.
    + destruct (slice_to_firstn _ (argsort cosine_distances) top_k)
        as (n & ->).
      apply firstn_NoDup.
      apply (Permutation_NoDup (Permutation_sym Hperm)), seq_NoDup.
    + clear - Hsc. induction Hsc as [| idx r l l' [H _] _ IH];
        constructor; assumption.
Qed.

End ResultCount.

(** X7: how many results a search returns.  After [fit] on a corpus of n
    documents the TF-IDF engine returns [len(range(n)[:top_k])] results:
    min(top_k, n) for a non-negative [top_k], n + top_k (or none) for a
    negative one; each is a document of the corpus and no position of the
    corpus is returned twice.  So does the dense engine over an index of n
    rows with at least n documents, once the provider has embedded the
    query. *)
Theorem search_result_count
    (embed_provider : nat -> list string -> string -> result (list vec))
    (cosine_distance : vec -> vec -> pyfloat)
    (argsort : list pyfloat -> list nat)
    (Vectorizer : Type)
    (fit_transform : list string -> Vectorizer * list vec)
    (transform : Vectorizer -> string -> vec) :
  (forall values, is_argsort values (argsort values)) ->
  (forall docs, List.length (snd (fit_transform docs)) = List.length docs) ->
  (forall data query top_k log,
      exists output,
        TfidfSearchEngine_search cosine_distance argsort Vectorizer
          transform
          (TfidfSearchEngine_fit Vectorizer fit_transform
             (TfidfSearchEngine_init Vectorizer) data) query top_k log
        = (inr output, log)
        /\ List.length output = slice_to_length (List.length data) top_k
        /\ exists positions,
             NoDup positions
             /\ Forall2 (fun idx r => nth_error data idx = Some (payload r))
                  positions output)
  /\ (forall index data query top_k log v,
         (List.length index <= List.length data)%nat ->
         embed_provider (count_embeds log) [query] "query"%string
         = inr [v] ->
         exists output,
           DenseSearchEngine_search embed_provider cosine_distance argsort
             (mkDense (Some index) (Some data)) query top_k log
           = (inr output,
              (log ++ [EvEmbed [query] "query"; EvSleep 500])%list)
           /\ List.length output
              = slice_to_length (List.length index) top_k
           /\ exists positions,
                NoDup positions
                /\ Forall2
                     (fun idx r => nth_error data idx = Some (payload r))
                     positions output)
  /\ (forall n top_k,
         0 <= top_k ->
         slice_to_length n top_k = Nat.min (Z.to_nat top_k) n).
Proof.
  intros Hsort Hrows. split; [ | split].
  - intros data query top_k log. unfold TfidfSearchEngine_fit.
    pose proof (Hrows (map text data)) as Hlen.
    destruct (fit_transform (map text data)) as [vectorizer index].
    simpl in Hlen. rewrite length_map in Hlen.
    unfold TfidfSearchEngine_search, lift. simpl.
    destruct (ranked_search_count argsort Hsort
                (cdist_row cosine_distance (transform vectorizer query)
                   index) data top_k) as (output & E & Hn & Hpos).
    { unfold cdist_row. rewrite length_map. lia. }
    exists output. rewrite E. unfold cdist_row in Hn.
    rewrite length_map, Hlen in Hn. auto.
  - intros index data query top_k log v Hlen Hembed.
    unfold DenseSearchEngine_search, bind, lift.
    cbn [dense_index dense_data].
    rewrite (batch_embed_single embed_provider query "query" v log Hembed).
    cbn [hd].
    destruct (ranked_search_count argsort Hsort
                (cdist_row cosine_distance v index) data top_k)
      as (output & E & Hn & Hpos).
    { unfold cdist_row. rewrite length_map. lia. }
    exists output. rewrite E. unfold cdist_row in Hn.
    rewrite length_map in Hn. auto.
  - intros n top_k Hk. unfold slice_to_length.
    destruct (Z.leb_spec 0 top_k); [reflexivity | lia].
Qed.

Lemma search_result_count_witness :
  exists output,
    TfidfSearchEngine_search Fixtures.cosine_distance_exact
      Fixtures.stable_argsort unit Fixtures.table_transform
      (TfidfSearchEngine_fit unit Fixtures.table_fit_transform
         (TfidfSearchEngine_init unit) Fixtures.near_corpus) "query" 1 []
    = (inr output, [])
    /\ List.length output = 1%nat.
Proof.
  destruct (search_result_count Fixtures.table_provider
              Fixtures.cosine_distance_exact Fixtures.stable_argsort
              unit Fixtures.table_fit_transform Fixtures.table_transform
              stable_argsort_spec table_fit_transform_rows) as [H _].
  destruct (H Fixtures.near_corpus "query"%string 1 [])
    as (output & E & Hn & _).
  exists output. split; [exact E | exact Hn].
Defined.

(* ------------------------------------------------------------------ *)
(** * Properties of the heading chunker *)

Section HeadingFacts.

Lemma chunk_by_headings_step_count (v : heading_vars) (node : Node) :
  (List.length (h_chunks (chunk_by_headings_step v node))
   + pending (chunk_by_headings_step v node)
   = List.length (h_chunks v) + pending v + count_headings [node])%nat.
Proof.
  unfold chunk_by_headings_step, count_headings, pending. cbn [filter].
  destruct (String.eqb (node_type node) "atx_heading");
    destruct (h_current_heading v) eqn:E;
    cbn [h_chunks h_current_heading List.length];
    rewrite ?length_app, ?E; cbn [List.length]; lia.
Qed.

Lemma count_headings_app (l1 l2 : list Node) :
  count_headings (l1 ++ l2) = (count_headings l1 + count_headings l2)%nat.
Proof. unfold count_headings. now rewrite filter_app, length_app. Qed.

Lemma chunk_by_headings_fold_count (nodes : list Node) (v : heading_vars) :
  (List.length (h_chunks (fold_left chunk_by_headings_step nodes v))
   + pending (fold_left chunk_by_headings_step nodes v)
   = List.length (h_chunks v) + pending v + count_headings nodes)%nat.
Proof.
  revert v. induction nodes as [| node rest IH]; intros v.
  - cbn. unfold count_headings. cbn. lia.
  - cbn [fold_left]. rewrite IH, chunk_by_headings_step_count.
    change (node :: rest) with ([node] ++ rest)%list.
    rewrite count_headings_app. lia.
Qed.

Lemma chunk_by_headings_count (nodes : list Node) :
  List.length (chunk_by_headings nodes) = count_headings nodes.
Proof.
  unfold chunk_by_headings.
  pose proof (chunk_by_headings_fold_count nodes (mkHeadingVars [] [] None))
    as H.
  unfold pending in H. cbn [h_chunks h_current_heading List.length] in H.
  destruct (h_current_heading
              (fold_left chunk_by_headings_step nodes
                 (mkHeadingVars [] [] None)));
    rewrite ?length_app; cbn [List.length]; lia.
Qed.

(** Nodes met before any heading leave the loop's variables untouched. *)
Lemma chunk_by_headings_preamble (preamble : list Node) :
  Forall (fun node => String.eqb (node_type node) "atx_heading" = false)
    preamble ->
  fold_left chunk_by_headings_step preamble (mkHeadingVars [] [] None)
  = mkHeadingVars [] [] None.
Proof.
  induction 1 as [| node rest Hnode _ IH]; [reflexivity | ].
  cbn [fold_left]. unfold chunk_by_headings_step at 2.
  rewrite Hnode. cbn [h_current_heading]. exact IH.
Qed.

End HeadingFacts.

(** X8: [chunk_by_headings] returns one chunk per [atx_heading] node among
    the children of the root; what comes before the first heading is
    dropped; so [chunk_markdown] returns no chunk at all for a document in
    which the parser sees no heading. *)
Theorem chunk_by_headings_one_chunk_per_heading :
  (forall nodes,
      List.length (chunk_by_headings nodes) = count_headings nodes)
  /\ (forall preamble nodes,
         Forall (fun node =>
                   String.eqb (node_type node) "atx_heading" = false)
           preamble ->
         chunk_by_headings (preamble ++ nodes) = chunk_by_headings nodes)
  /\ (forall sent_tokenize tokenize_text parse_markdown content chunk_size,
         count_headings (parse_markdown content) = 0%nat ->
         chunk_markdown sent_tokenize tokenize_text parse_markdown content
           chunk_size = []).
Proof.
  split; [exact chunk_by_headings_count | split].
  - intros preamble nodes H. unfold chunk_by_headings.
    now rewrite fold_left_app, (chunk_by_headings_preamble preamble H).
  - intros sent_tokenize tokenize_text parse_markdown content chunk_size H.
    unfold chunk_markdown.
    pose proof (chunk_by_headings_count (parse_markdown content)) as Hn.
    rewrite H in Hn. apply length_zero_iff_nil in Hn. now rewrite Hn.
Qed.

Lemma chunk_by_headings_one_chunk_per_heading_witness :
  chunk_by_headings
    [mkNode "paragraph" "Lead text." [];
     mkNode "atx_heading" "# Title" [];
     mkNode "paragraph" "Body." []]
  = chunk_by_headings
      [mkNode "atx_heading" "# Title" []; mkNode "paragraph" "Body." []].
Proof.
  destruct chunk_by_headings_one_chunk_per_heading as (_ & H & _).
  apply (H [mkNode "paragraph" "Lead text." []]).
  repeat constructor.
Defined.

(* ------------------------------------------------------------------ *)
(** * Further properties of the token packer *)

Section PackerBounds.

Variable sent_tokenize : string -> list string.
Variable tokenize_text : string -> string -> list string.
Variables (chunk_size : Z) (model : string).

(** While everything fits, the loop only extends the running chunk. *)
Lemma chunk_simple_fold_fits (rest : list string) (v : packer_vars) :
  current_length v = Z.of_nat (List.length (current_chunk v)) ->
  Z.of_nat (List.length (current_chunk v))
  + Z.of_nat (List.length (tokens_of tokenize_text model rest))
  <= chunk_size ->
  fold_left (chunk_simple_step tokenize_text chunk_size model) rest v
  = mkPacker (chunks v)
      (current_chunk v ++ tokens_of tokenize_text model rest)
      (Z.of_nat (List.length
                   (current_chunk v ++ tokens_of tokenize_text model rest))).
Proof.
  revert v. induction rest as [| sentence rest IH]; intros v Hlen Hfit.
  - cbn. rewrite app_nil_r, <- Hlen. now destruct v.
  - cbn [fold_left]. cbn [tokens_of flat_map] in Hfit.
    fold (tokens_of tokenize_text model rest) in Hfit.
    rewrite length_app in Hfit.
    unfold chunk_simple_step at 2.
    replace (current_length v
             + Z.of_nat (List.length (tokenize_text sentence model))
             >? chunk_size) with false
      by (symmetry; rewrite Z.gtb_ltb; apply Z.ltb_ge; lia).
    cbn [andb]. rewrite IH; cbn [chunks current_chunk current_length].
    + cbn [tokens_of flat_map]. fold (tokens_of tokenize_text model rest).
      now rewrite <- app_assoc.
    + rewrite length_app. lia.
    + rewrite length_app. lia.
Qed.

Lemma filter_groups_le (f : list string -> bool)
    (groups : list (list string)) :
  (forall g, f g = true -> g <> []) ->
  (List.length (filter f groups) <= List.length (List.concat groups))%nat.
Proof.
  intros Hf. induction groups as [| g groups IH]; simpl; [lia | ].
  rewrite length_app. destruct (f g) eqn:E; simpl; [ | lia].
  specialize (Hf g E). destruct g; [congruence | simpl; lia].
Qed.

End PackerBounds.

(** X9: the size of [chunk_simple]'s result.  A text whose sentences hold
    no more tokens than the budget all together comes back as a single
    chunk with all its tokens (as no chunk when it has no token); in
    general there are at most as many chunks as sentences, and every chunk
    renders at least one token. *)
Theorem chunk_simple_chunk_count
    (sent_tokenize : string -> list string)
    (tokenize_text : string -> string -> list string)
    (content : string) (chunk_size : Z) (model : string) :
  let sentences := sent_tokenize content in
  let tokens := tokens_of tokenize_text model sentences in
  let chunks :=
    chunk_simple sent_tokenize tokenize_text content chunk_size model in
  (Z.of_nat (List.length tokens) <= chunk_size ->
   chunks = match tokens with [] => [] | _ :: _ => [join tokens] end)
  /\ (List.length chunks <= List.length sentences)%nat
  /\ (forall chunk,
         In chunk chunks ->
         exists group,
           tokens_of tokenize_text model group <> []
           /\ chunk = join (tokens_of tokenize_text model group)).
Proof.
  intros sentences tokens chunks. subst sentences tokens chunks.
  destruct (chunk_simple_groups sent_tokenize tokenize_text chunk_size model
              content) as (groups & Hseen & Hchunks & _).
  split; [ | split].
  - intros Hfit. unfold chunk_simple.
    rewrite chunk_simple_fold_fits; cbn [chunks current_chunk current_length];
      [ | reflexivity | cbn; lia].
    cbn [app].
    destruct (tokens_of tokenize_text model (sent_tokenize content));
      reflexivity.
  - rewrite Hchunks, length_map, <- Hseen.
    apply filter_groups_le. intros g Hg Hnil. subst g. discriminate.
  - intros chunk Hin. rewrite Hchunks in Hin. apply in_map_iff in Hin.
    destruct Hin as (g & <- & Hg). apply filter_In in Hg.
    destruct Hg as [_ Hg]. exists g. split; [ | reflexivity].
    unfold has_tokens in Hg. intros Hnil. rewrite Hnil in Hg. discriminate.
Qed.

Lemma chunk_simple_chunk_count_witness :
  chunk_simple Fixtures.stop_sentences Fixtures.chars_tokenizer
    "Hi. Yo. Hello there." 300 "gpt-4o-mini"
  = ["Hi. Yo. Hello there."%string].
Proof.
  destruct (chunk_simple_chunk_count Fixtures.stop_sentences
              Fixtures.chars_tokenizer "Hi. Yo. Hello there." 300
              "gpt-4o-mini") as (H & _).
  cbv zeta in H. rewrite H; [reflexivity | ].
  vm_compute. discriminate.
Defined.

(* ------------------------------------------------------------------ *)
(** * Properties of the PDF chunker *)

Section PdfFacts.

Variable sent_tokenize : string -> list string.
Variable tokenize_text : string -> string -> list string.

(** No upper-cased character is a lower-case [t]. *)
Lemma upper_ascii_not_t (c : ascii) : upper_ascii c <> "t"%char.
Proof.
  destruct c as [[] [] [] [] [] [] [] []]; vm_compute; discriminate.
Qed.

Lemma upper_no_Item (s : string) : String.prefix "Item " (upper s) = false.
Proof.
  destruct s as [| c1 [| c2 s]]; cbn [upper String.prefix];
    try reflexivity.
  - destruct (ascii_dec "I" (upper_ascii c1)); reflexivity.
  - destruct (ascii_dec "I" (upper_ascii c1)); [ | reflexivity].
    destruct (ascii_dec "t" (upper_ascii c2)) as [E | _]; [ | reflexivity].
    exfalso. now apply (upper_ascii_not_t c2).
Qed.

(** Joining with a separator, piece by piece. *)
Lemma concat_sep_app (sep : string) (l1 l2 : list string) :
  l1 <> [] -> l2 <> [] ->
  String.concat sep (l1 ++ l2)
  = (String.concat sep l1 ++ sep ++ String.concat sep l2)%string.
Proof.
  intros H1 H2. induction l1 as [| x l1 IH]; [congruence | ].
  destruct l1 as [| y l1].
  - destruct l2; [congruence | reflexivity].
  - change (String.concat sep ((x :: y :: l1) ++ l2))
      with (x ++ sep ++ String.concat sep ((y :: l1) ++ l2))%string.
    rewrite IH by discriminate.
    change (String.concat sep (x :: y :: l1))
      with (x ++ sep ++ String.concat sep (y :: l1))%string.
    now rewrite !append_assoc.
Qed.

Lemma concat_sep_groups (sep : string) (groups : list (list string)) :
  Forall (fun g => g <> []) groups ->
  String.concat sep (map (String.concat sep) groups)
  = String.concat sep (List.concat groups).
Proof.
  induction 1 as [| g groups Hg Hgroups IH]; [reflexivity | ].
  destruct groups as [| g' groups].
  - cbn. now rewrite app_nil_r.
  - cbn [map List.concat] in *.
    change (String.concat sep
              (String.concat sep g :: String.concat sep g'
               :: map (String.concat sep) groups))
      with (String.concat sep g ++ sep
            ++ String.concat sep
                 (String.concat sep g' :: map (String.concat sep) groups))
           %string.
    rewrite IH, (concat_sep_app sep g (g' ++ List.concat groups));
      [reflexivity | exact Hg | ].
    inversion Hgroups as [| ? ? Hg' _]; subst.
    destruct g'; [congruence | discriminate].
Qed.

(** What the section loop maintains once it has read the lines [seen]:
    the closed sections and the open one are non-empty runs of consecutive
    lines. *)
Lemma chunk_pdf_line_groups (lines seen : list string) (v : section_vars)
    (groups : list (list string)) :
  (List.concat groups ++ current_section v)%list = seen ->
  sections v = map (String.concat (String "010" "")) groups ->
  Forall (fun g => g <> []) groups ->
  exists groups',
    (List.concat groups'
     ++ current_section (fold_left chunk_pdf_line lines v))%list
    = (seen ++ lines)%list
    /\ sections (fold_left chunk_pdf_line lines v)
       = map (String.concat (String "010" "")) groups'
    /\ Forall (fun g => g <> []) groups'
    /\ (lines <> [] -> current_section (fold_left chunk_pdf_line lines v)
                       <> []).
Proof.
  revert seen v groups.
  induction lines as [| line rest IH]; intros seen v groups Hseen Hs Hne.
  - exists groups. rewrite app_nil_r. cbn. repeat split; auto; congruence.
  - cbn [fold_left].
    assert (Hstep :
             exists groups1,
               (List.concat groups1
                ++ current_section (chunk_pdf_line v line))%list
               = (seen ++ [line])%list
               /\ sections (chunk_pdf_line v line)
                  = map (String.concat (String "010" "")) groups1
               /\ Forall (fun g => g <> []) groups1
               /\ current_section (chunk_pdf_line v line) <> []).
    { unfold chunk_pdf_line.
      destruct (existsb _ section_markers
                && negb (Nat.eqb (List.length (current_section v)) 0))%bool
        eqn:E; cbn [sections current_section].
      - apply andb_true_iff in E. destruct E as [_ E].
        exists (groups ++ [current_section v])%list.
        rewrite concat_app, map_app, Hs. cbn [List.concat map].
        rewrite app_nil_r, Hseen. repeat split; try discriminate.
        apply Forall_app. split; [exact Hne | ].
        constructor; [ | constructor].
        intros Hnil. rewrite Hnil in E. discriminate.
      - exists groups. rewrite app_assoc, Hseen. repeat split; auto.
        now destruct (current_section v). }
    destruct Hstep as (groups1 & H1 & H2 & H3 & H4).
    destruct (IH (seen ++ [line])%list (chunk_pdf_line v line) groups1
                H1 H2 H3) as (groups' & G1 & G2 & G3 & G4).
    exists groups'. rewrite <- app_assoc in G1. repeat split; auto.
    intros _. destruct rest as [| l rest']; [exact H4 | ].
    apply G4. discriminate.
Qed.

(** The list of chunks only grows. *)
Lemma chunk_pdf_sentences_grow (chunk_size : Z) (sentences : list string)
    (v : packer_vars) (c : string) :
  In c (chunks v) ->
  In c (chunks (fold_left (chunk_pdf_sentence tokenize_text chunk_size)
                  sentences v)).
Proof.
  revert v. induction sentences as [| s rest IH]; intros v Hin;
    [exact Hin | ].
  cbn [fold_left]. apply IH. unfold chunk_pdf_sentence.
  destruct (_ && _)%bool; cbn [chunks]; [ | exact Hin].
  apply in_or_app. now left.
Qed.

Lemma chunk_pdf_section_grows (chunk_size : Z) (acc : list string)
    (section c : string) :
  In c acc ->
  In c (chunk_pdf_section sent_tokenize tokenize_text chunk_size acc
          section).
Proof.
  intros Hin. unfold chunk_pdf_section.
  destruct (search_amount section); [apply in_or_app; now left | ].
  pose proof (chunk_pdf_sentences_grow chunk_size (sent_tokenize section)
                (mkPacker acc [] 0) c Hin) as H.
  destruct (negb _); [apply in_or_app; now left | exact H].
Qed.

Lemma chunk_pdf_fold_grows (chunk_size : Z) (sections_left : list string)
    (acc : list string) (c : string) :
  In c acc ->
  In c (fold_left (chunk_pdf_section sent_tokenize tokenize_text chunk_size)
          sections_left acc).
Proof.
  revert acc. induction sections_left as [| s rest IH]; intros acc Hin;
    [exact Hin | ].
  cbn [fold_left]. apply IH. now apply chunk_pdf_section_grows.
Qed.

Lemma chunk_pdf_fold_keeps_tables (chunk_size : Z)
    (sections_left : list string) (acc : list string) (section : string) :
  In section sections_left ->
  search_amount section = true ->
  In section
    (fold_left (chunk_pdf_section sent_tokenize tokenize_text chunk_size)
       sections_left acc).
Proof.
  revert acc. induction sections_left as [| s rest IH]; intros acc Hin Ht;
    [destruct Hin | ].
  cbn [fold_left]. destruct Hin as [-> | Hin].
  - apply chunk_pdf_fold_grows. unfold chunk_pdf_section. rewrite Ht.
    apply in_or_app. right. now left.
  - now apply IH.
Qed.

End PdfFacts.

(** X10: [chunk_pdf] loses no line when it splits a text into sections:
    the sections are non-empty runs of consecutive lines that cover all the
    lines in order, each joined by line feeds, so that joining the sections
    by line feeds gives the lines joined by line feeds. *)
Theorem chunk_pdf_sections_cover_lines (content : string) :
  exists groups : list (list string),
    List.concat groups = splitlines content
    /\ chunk_pdf_sections content
       = map (String.concat (String "010" "")) groups
    /\ Forall (fun g => g <> []) groups
    /\ String.concat (String "010" "") (chunk_pdf_sections content)
       = String.concat (String "010" "") (splitlines content).
Proof.
  destruct (chunk_pdf_line_groups (splitlines content) []
              (mkSections [] []) [] eq_refl eq_refl (Forall_nil _))
    as (groups & Hcover & Hsections & Hne & Hopen).
  cbn [app] in Hcover.
  unfold chunk_pdf_sections.
  set (v := fold_left chunk_pdf_line (splitlines content)
              (mkSections [] [])) in *.
  assert (Hall :
           exists groups',
             List.concat groups' = splitlines content
             /\ (if negb (Nat.eqb (List.length (current_section v)) 0)
                 then (sections v
                       ++ [String.concat (String "010" "")
                             (current_section v)])%list
                 else sections v)
                = map (String.concat (String "010" "")) groups'
             /\ Forall (fun g => g <> []) groups').
  { destruct (current_section v) as [| l rest] eqn:E.
    - exists groups. rewrite app_nil_r in Hcover. auto.
    - exists (groups ++ [l :: rest])%list.
      rewrite concat_app, map_app, Hsections. cbn.
      rewrite app_nil_r. repeat split; auto.
      apply Forall_app. split; [exact Hne | ].
      constructor; [discriminate | constructor]. }
  destruct Hall as (groups' & H1 & H2 & H3).
  exists groups'. repeat split; auto.
  rewrite H2, concat_sep_groups, H1; auto.
Qed.

(** X11: the section marker [Item ] never starts a section: a line is
    compared in upper case and the marker holds lower-case letters, so only
    the four upper-case markers count; a text none of whose lines starts
    with one of them (white space and case set aside) stays one section. *)
Theorem chunk_pdf_item_marker_is_dead :
  (forall s, String.prefix "Item " (upper s) = false)
  /\ (forall line,
         existsb (fun marker => String.prefix marker (upper (strip line)))
           section_markers
         = existsb (fun marker => String.prefix marker (upper (strip line)))
             ["CONSOLIDATED STATEMENTS OF"; "NOTES TO"; "PART ";
              "TABLE OF CONTENTS"]%string)
  /\ (forall content,
         Forall
           (fun line =>
              existsb
                (fun marker => String.prefix marker (upper (strip line)))
                ["CONSOLIDATED STATEMENTS OF"; "NOTES TO"; "PART ";
                 "TABLE OF CONTENTS"]%string = false)
           (splitlines content) ->
         chunk_pdf_sections content
         = match splitlines content with
           | [] => []
           | lines => [String.concat (String "010" "") lines]
           end).
Proof.
  assert (Hmarkers :
           forall line,
             existsb
               (fun marker => String.prefix marker (upper (strip line)))
               section_markers
             = existsb
                 (fun marker => String.prefix marker (upper (strip line)))
                 ["CONSOLIDATED STATEMENTS OF"; "NOTES TO"; "PART ";
                  "TABLE OF CONTENTS"]%string).
  { intros line. unfold section_markers. cbn [existsb].
    rewrite upper_no_Item. reflexivity. }
  split; [exact upper_no_Item | split; [exact Hmarkers | ]].
  intros content Hlines. unfold chunk_pdf_sections.
  assert (Hfold :
           forall lines v,
             Forall
               (fun line =>
                  existsb
                    (fun marker =>
                       String.prefix marker (upper (strip line)))
                    ["CONSOLIDATED STATEMENTS OF"; "NOTES TO"; "PART ";
                     "TABLE OF CONTENTS"]%string = false) lines ->
             fold_left chunk_pdf_line lines v
             = mkSections (sections v) (current_section v ++ lines)).
  { induction lines as [| line rest IH]; intros v H.
    - cbn. rewrite app_nil_r. now destruct v.
    - inversion H as [| ? ? Hline Hrest]; subst. cbn [fold_left].
      rewrite IH by exact Hrest. unfold chunk_pdf_line.
      rewrite Hmarkers, Hline. cbn [andb sections current_section].
      now rewrite <- app_assoc. }
  rewrite (Hfold _ _ Hlines). cbn [sections current_section app].
  destruct (splitlines content); reflexivity.
Qed.

Lemma chunk_pdf_item_marker_is_dead_witness :
  chunk_pdf_sections "Item 1. Business"
  = ["Item 1. Business"%string].
Proof.
  destruct chunk_pdf_item_marker_is_dead as (_ & _ & H).
  apply (H "Item 1. Business"%string). repeat constructor.
Defined.

(** X12: a section in which a dollar sign is followed, after any white
    space, by a digit or a comma is returned by [chunk_pdf] as one chunk,
    whole and unchanged, whatever the chunk size. *)
Theorem chunk_pdf_keeps_table_sections
    (sent_tokenize : string -> list string)
    (tokenize_text : string -> string -> list string)
    (content : string) (chunk_size : Z) (section : string) :
  In section (chunk_pdf_sections content) ->
  search_amount section = true ->
  In section (chunk_pdf sent_tokenize tokenize_text content chunk_size).
Proof.
  intros Hin Ht. unfold chunk_pdf.
  now apply chunk_pdf_fold_keeps_tables.
Qed.

Lemma chunk_pdf_keeps_table_sections_witness :
  In "Revenue $ 1,234. Costs $ 1,000."%string
    (chunk_pdf Fixtures.stop_sentences Fixtures.chars_tokenizer
       "Revenue $ 1,234. Costs $ 1,000." 5).
Proof.
  apply chunk_pdf_keeps_table_sections; [now left | reflexivity].
Defined.

(* ------------------------------------------------------------------ *)
(** * Further properties of [chunk_dataset] *)

(** X13: every record [chunk_dataset] returns stems from one document of
    the dataset: it carries the digest of that document's content as
    [doc_id], the digest of its own [chunk] field as [chunk_id], and the
    document's file type and metadata unchanged.  Its [text] is the chunk
    itself for python and notebook documents and the conversion of the
    chunk otherwise; a document of any file type other than python,
    notebook and pdf is chunked as markdown. *)
Theorem chunk_dataset_records
    (sent_tokenize : string -> list string)
    (tokenize_text : string -> string -> list string)
    (md5_hexdigest : string -> string)
    (parse_markdown : string -> list Node)
    (read_notebook markdown_markdown mdify : string -> string)
    (HashSeed : Type)
    (chunk_source_code : HashSeed -> string -> Z -> list string)
    (convert_contents_to_text : string -> string -> string)
    (seed : HashSeed) (ds : list Document) (chunk_size : Z) (c : Chunk) :
  In c (chunk_dataset sent_tokenize tokenize_text md5_hexdigest
          parse_markdown read_notebook markdown_markdown mdify HashSeed
          chunk_source_code convert_contents_to_text seed ds chunk_size) ->
  exists doc,
    In doc ds
    /\ doc_id c = make_id md5_hexdigest (content doc)
    /\ chunk_chunk_id c = make_id md5_hexdigest (chunk c)
    /\ chunk_file_type c = file_type doc
    /\ chunk_metadata c = metadata doc
    /\ (if String.eqb (file_type doc) "python" then
          chunk_text c = chunk c
          /\ In (chunk c) (chunk_source_code seed (content doc) chunk_size)
        else if String.eqb (file_type doc) "notebook" then
          chunk_text c = chunk c
          /\ In (chunk c)
               (chunk_notebook sent_tokenize tokenize_text parse_markdown
                  read_notebook markdown_markdown mdify (content doc)
                  chunk_size)
        else if String.eqb (file_type doc) "pdf" then
          chunk_text c = convert_contents_to_text (chunk c) "pdf"%string
          /\ In (chunk c)
               (chunk_pdf sent_tokenize tokenize_text (content doc)
                  chunk_size)
        else
          chunk_text c
          = convert_contents_to_text (chunk c) "markdown"%string
          /\ In (chunk c)
               (chunk_markdown sent_tokenize tokenize_text parse_markdown
                  (content doc) chunk_size)).
Proof.
  rewrite chunk_dataset_flat_map. intros Hin.
  apply in_flat_map in Hin. destruct Hin as (doc & Hdoc & Hc).
  exists doc. split; [exact Hdoc | ].
  unfold chunk_document in Hc.
  destruct (String.eqb (file_type doc) "python");
    [ | destruct (String.eqb (file_type doc) "notebook");
        [ | destruct (String.eqb (file_type doc) "pdf")]];
    apply in_map_iff in Hc; destruct Hc as ([number text] & <- & Hin);
    cbn [doc_id chunk_chunk_id chunk chunk_text chunk_file_type
           chunk_metadata];
    apply (in_map snd) in Hin; rewrite enumerate_values in Hin;
    cbn [snd] in Hin; repeat split; auto.
Qed.

Lemma chunk_dataset_records_witness :
  exists doc,
    In doc Fixtures.dataset_a
    /\ file_type doc = "pdf"%string
    /\ metadata doc = [("source", "a.pdf")]%string.
Proof.
  destruct (chunk_dataset_records Fixtures.stop_sentences
              Fixtures.chars_tokenizer Fixtures.toy_digest
              Fixtures.one_heading (fun notebook => notebook)
              (fun md => md) (fun html => html) nat
              (fun _ => Fixtures.stop_chunker) Fixtures.plain_text 0%nat
              Fixtures.dataset_a 6
              (mkChunk "One." "One." ".enO" ".owT .enO" 0 "pdf"
                 [("source", "a.pdf")]%string))
    as (doc & Hdoc & _ & _ & Hf & Hm & _).
  - now left.
  - exists doc. cbn in Hf, Hm. auto.
Defined.

(* ------------------------------------------------------------------ *)
(** * Properties of [prepare_documents_for_pinecone] *)

Section PrepareFacts.

Lemma dict_item_has_key (d : list (string * string)) (key : string) :
  has_key d key = true <-> exists v, dict_item d key = inr v.
Proof.
  unfold has_key. induction d as [| [k v] d IH]; simpl.
  - split; [discriminate | intros (v & H); discriminate].
  - destruct (String.eqb k key); simpl; [ | exact IH].
    split; eauto.
Qed.

Lemma dict_item_missing (d : list (string * string)) (key : string)
    (e : key_error) :
  dict_item d key = inl e -> e = KeyError key /\ has_key d key = false.
Proof.
  unfold has_key. induction d as [| [k v] d IH]; simpl.
  - intros [= <-]. auto.
  - destruct (String.eqb k key); simpl; [discriminate | exact IH].
Qed.

Lemma prepare_document_spec (doc : Chunk) :
  match prepare_document doc with
  | inr p => prepared_from doc p
  | inl e =>
      (e = KeyError "source" /\ has_key (chunk_metadata doc) "source" = false)
      \/ (e = KeyError "file_type"
          /\ has_key (chunk_metadata doc) "file_type" = false)
  end.
Proof.
  unfold prepare_document, prepared_from.
  destruct (dict_item (chunk_metadata doc) "source") as [e | source] eqn:Es.
  - left. now apply dict_item_missing.
  - destruct (dict_item (chunk_metadata doc) "file_type")
      as [e | ftype] eqn:Ef.
    + right. now apply dict_item_missing.
    + cbn. repeat split; reflexivity.
Qed.

Lemma prepare_documents_ok (documents : list Chunk)
    (out : list PreparedDoc) :
  prepare_documents_for_pinecone documents = inr out ->
  Forall2 prepared_from documents out.
Proof.
  revert out. induction documents as [| doc rest IH]; intros out; simpl.
  - intros [= <-]. constructor.
  - pose proof (prepare_document_spec doc) as Hdoc.
    destruct (prepare_document doc) as [e | p]; [discriminate | ].
    destruct (prepare_documents_for_pinecone rest) as [e | ps];
      [discriminate | ].
    intros [= <-]. constructor; [exact Hdoc | now apply IH].
Qed.

Lemma prepare_documents_total (documents : list Chunk) :
  Forall (fun doc => has_key (chunk_metadata doc) "source" = true
                     /\ has_key (chunk_metadata doc) "file_type" = true)
    documents ->
  exists out, prepare_documents_for_pinecone documents = inr out.
Proof.
  induction 1 as [| doc rest [Hs Hf] _ (out & IH)]; simpl; [eauto | ].
  pose proof (prepare_document_spec doc) as Hdoc.
  destruct (prepare_document doc) as [e | p].
  - destruct Hdoc as [[_ H] | [_ H]]; congruence.
  - rewrite IH. eauto.
Qed.

Lemma prepare_documents_error (documents : list Chunk) (e : key_error) :
  prepare_documents_for_pinecone documents = inl e ->
  exists doc key,
    In doc documents
    /\ e = KeyError key
    /\ (key = "source"%string \/ key = "file_type"%string)
    /\ has_key (chunk_metadata doc) key = false.
Proof.
  induction documents as [| doc rest IH]; simpl; [discriminate | ].
  pose proof (prepare_document_spec doc) as Hdoc.
  destruct (prepare_document doc) as [e' | p].
  - intros [= <-]. exists doc.
    destruct Hdoc as [[-> H] | [-> H]]; eexists;
      (split; [now left | split; [reflexivity | split; [ | exact H]]]);
      auto.
  - destruct (prepare_documents_for_pinecone rest) as [e' | ps];
      [ | discriminate].
    intros [= <-]. destruct (IH eq_refl) as (d & key & Hin & H).
    exists d, key. split; [now right | exact H].
Qed.

End PrepareFacts.

(** X14: [prepare_documents_for_pinecone] either returns one flat record per
    chunk record, in order, with the same chunk, text, chunk_id and doc_id,
    the chunk number as a float, and source and file_type taken from the
    record's metadata; or raises the [KeyError] of a chunk record whose
    metadata lacks [source] or [file_type].  It returns whenever all
    metadata hold both keys. *)
Theorem prepare_documents_keeps_records (documents : list Chunk) :
  (forall out,
      prepare_documents_for_pinecone documents = inr out ->
      Forall2 prepared_from documents out)
  /\ (forall e,
         prepare_documents_for_pinecone documents = inl e ->
         exists doc key,
           In doc documents
           /\ e = KeyError key
           /\ (key = "source"%string \/ key = "file_type"%string)
           /\ has_key (chunk_metadata doc) key = false)
  /\ (Forall (fun doc => has_key (chunk_metadata doc) "source" = true
                         /\ has_key (chunk_metadata doc) "file_type" = true)
        documents ->
      exists out,
        prepare_documents_for_pinecone documents = inr out
        /\ map p_chunk_id out = map chunk_chunk_id documents
        /\ map p_doc_id out = map doc_id documents).
Proof.
  split; [apply prepare_documents_ok | split].
  - apply prepare_documents_error.
  - intros H. destruct (prepare_documents_total documents H) as (out & E).
    exists out. split; [exact E | ].
    apply prepare_documents_ok in E. clear H.
    induction E as [| doc p docs ps Hp _ IH]; [auto | ].
    destruct Hp as (_ & _ & Hc & Hd & _). destruct IH as [IH1 IH2].
    cbn [map]. rewrite Hc, Hd, IH1, IH2. auto.
Qed.

Lemma prepare_documents_keeps_records_witness :
  exists out,
    prepare_documents_for_pinecone
      [mkChunk "One." "One." ".enO" ".owT .enO" 0 "pdf"
         [("file_type", "pdf"); ("source", "a.pdf")]%string]
    = inr out
    /\ map p_chunk_id out = [".enO"%string]
    /\ map p_source out = ["a.pdf"%string].
Proof.
  destruct (prepare_documents_keeps_records
              [mkChunk "One." "One." ".enO" ".owT .enO" 0 "pdf"
                 [("file_type", "pdf"); ("source", "a.pdf")]%string])
    as (_ & _ & H).
  destruct H as (out & E & Hc & _).
  - repeat constructor.
  - exists out. split; [exact E | ]. split; [exact Hc | ].
    cbv in E. injection E as <-. reflexivity.
Defined.

(* ------------------------------------------------------------------ *)
(** * Embedding under rate limits *)

Section BatchEmbedLimited.

Variable embed_provider : nat -> list string -> string -> result (list vec).
Variable embed : string -> vec.
Variables (docs : list string) (input_type : string) (batch_size : Z).
Variable limited : nat -> bool.
Variable failure : nat -> exn.

Hypothesis batch_size_pos : 0 < batch_size.
Hypothesis provider_behaviour :
  forall n inputs,
    embed_provider n inputs input_type
    = if limited n then inl (failure n) else inr (map embed inputs).
Hypothesis failures_are_rate_limits :
  forall n, limited n = true -> is_rate_limit (failure n) = true.

Lemma count_embeds_app (log log' : list event) :
  count_embeds (log ++ log') = (count_embeds log + count_embeds log')%nat.
Proof. unfold count_embeds. now rewrite filter_app, length_app. Qed.

Lemma slice_batch_of (a : nat) :
  slice docs (Z.of_nat a * batch_size) (Z.of_nat a * batch_size + batch_size)
  = batch_of docs batch_size a.
Proof.
  unfold slice, batch_of. f_equal; [f_equal; lia | f_equal; nia].
Qed.

(** One pass: the request is sent; its rows are added unless the provider
    signals a rate limit. *)
Lemma batch_embed_body_limited (a : nat) (v : embed_vars)
    (log : list event) :
  i v = Z.of_nat a * batch_size ->
  exists v',
    batch_embed_body embed_provider docs input_type batch_size v log
    = (inr v',
       (log ++ batch_events input_type limited (count_embeds log)
                 [batch_of docs batch_size a])%list)
    /\ all_embeddings v'
       = (all_embeddings v
          ++ kept_rows embed limited (count_embeds log)
               [batch_of docs batch_size a])%list.
Proof.
  intros Hi. cbn [batch_events kept_rows]. rewrite app_nil_r.
  destruct (limited (count_embeds log)) eqn:El.
  - eexists. split.
    + rewrite (batch_embed_body_rate_limited embed_provider docs input_type
                 batch_size v log (failure (count_embeds log))).
      * unfold request. rewrite Hi, slice_batch_of. reflexivity.
      * now rewrite provider_behaviour, El.
      * now apply failures_are_rate_limits.
    + cbn [all_embeddings]. now rewrite app_nil_r.
  - eexists. split.
    + unfold batch_embed_body, try_except, bind, pc_inference_embed,
        time_sleep, emit, ret.
      rewrite provider_behaviour, El, Hi, slice_batch_of, <- app_assoc.
      reflexivity.
    + reflexivity.
Qed.

Lemma for_each_limited (m a : nat) (v : embed_vars) (log : list event) :
  exists v',
    for_each (map (fun j => Z.of_nat j * batch_size) (seq a m))
      (batch_embed_body embed_provider docs input_type batch_size) v log
    = (inr v',
       (log ++ batch_events input_type limited (count_embeds log)
                 (map (batch_of docs batch_size) (seq a m)))%list)
    /\ all_embeddings v'
       = (all_embeddings v
          ++ kept_rows embed limited (count_embeds log)
               (map (batch_of docs batch_size) (seq a m)))%list.
Proof.
  revert a v log. induction m as [| m IH]; intros a v log.
  - exists v. cbn. unfold ret. now rewrite !app_nil_r.
  - cbn [seq map for_each]. unfold bind.
    destruct (batch_embed_body_limited a
                (mkVars (Z.of_nat a * batch_size) (all_embeddings v)) log
                eq_refl) as (v1 & E1 & H1).
    rewrite E1.
    destruct (IH (S a) v1
                (log ++ batch_events input_type limited (count_embeds log)
                          [batch_of docs batch_size a])%list)
      as (v' & E & Hv').
    exists v'. rewrite E, Hv', H1.
    assert (Hc : count_embeds
                   (log ++ batch_events input_type limited (count_embeds log)
                             [batch_of docs batch_size a])
                 = S (count_embeds log)).
    { rewrite count_embeds_app. cbn. lia. }
    rewrite Hc. cbn [batch_events kept_rows all_embeddings].
    rewrite !app_nil_r, <- !app_assoc. split; reflexivity.
Qed.

Lemma batch_embed_limited (log : list event) :
  let batches :=
    map (batch_of docs batch_size)
      (seq 0 (Z.to_nat ((Z.of_nat (List.length docs) + batch_size - 1)
                        / batch_size))) in
  batch_embed embed_provider docs input_type batch_size log
  = (np_stack (kept_rows embed limited (count_embeds log) batches),
     (log ++ batch_events input_type limited (count_embeds log)
               batches)%list).
Proof.
  intros batches. unfold batch_embed, bind, lift, range0.
  destruct (Z.eqb_spec batch_size 0) as [E | _]; [lia | ].
  destruct (Z.ltb_spec batch_size 0) as [E | _]; [lia | ].
  destruct (for_each_limited
              (Z.to_nat ((Z.of_nat (List.length docs) + batch_size - 1)
                         / batch_size)) 0 (mkVars 0 []) log)
    as (v' & E & Hv').
  rewrite E, Hv'. reflexivity.
Qed.

End BatchEmbedLimited.

Section BatchRows.

Variable embed : string -> vec.
Variables (docs : list string) (batch_size : Z).
Hypothesis batch_size_pos : 0 < batch_size.

Lemma concat_batches (m a : nat) :
  List.concat (map (batch_of docs batch_size) (seq a m))
  = firstn (m * Z.to_nat batch_size) (skipn (a * Z.to_nat batch_size) docs).
Proof.
  revert a. induction m as [| m IH]; intros a; [reflexivity | ].
  cbn [seq map List.concat]. rewrite IH. unfold batch_of.
  replace (S m * Z.to_nat batch_size)%nat
    with (Z.to_nat batch_size + m * Z.to_nat batch_size)%nat by lia.
  rewrite firstn_add_skipn, skipn_skipn.
  reflexivity.
Qed.

Lemma kept_rows_unlimited (limited : nat -> bool) (n : nat)
    (batches : list (list string)) :
  (forall k, (n <= k)%nat -> limited k = false) ->
  kept_rows embed limited n batches = map embed (List.concat batches).
Proof.
  revert n. induction batches as [| b rest IH]; intros n H; [reflexivity | ].
  cbn [kept_rows List.concat]. rewrite (H n) by lia.
  rewrite map_app, (IH (S n)); [reflexivity | ].
  intros k Hk. apply H. lia.
Qed.

Lemma count_batch_events (input_type : string) (limited : nat -> bool)
    (n : nat) (batches : list (list string)) :
  count_embeds (batch_events input_type limited n batches)
  = List.length batches.
Proof.
  revert n. induction batches as [| b rest IH]; intros n; [reflexivity | ].
  cbn [batch_events List.length]. rewrite <- (IH (S n)). reflexivity.
Qed.

(** The rows kept when only the first request is rate limited: those of
    the documents after the first batch. *)
Lemma kept_rows_first_only :
  kept_rows embed first_only 0
    (map (batch_of docs batch_size)
       (seq 0 (Z.to_nat ((Z.of_nat (List.length docs) + batch_size - 1)
                         / batch_size))))
  = map embed (skipn (Z.to_nat batch_size) docs).
Proof.
  pose proof (batch_count_covers docs batch_size batch_size_pos) as Hcover.
  destruct (Z.to_nat ((Z.of_nat (List.length docs) + batch_size - 1)
                      / batch_size)) as [| m] eqn:Em in Hcover |- *.
  - assert (Hnil : docs = []). { apply length_zero_iff_nil. cbn in Hcover. lia. }
    rewrite Hnil. now rewrite skipn_nil.
  - cbn [seq map kept_rows first_only Nat.eqb app].
    rewrite kept_rows_unlimited by (intros [| k] Hk; [lia | reflexivity]).
    rewrite concat_batches. f_equal.
    rewrite Nat.mul_1_l. apply firstn_all2. rewrite length_skipn.
    cbn [Nat.mul] in Hcover. clear Em.
    set (b := Z.to_nat batch_size) in *. clearbody b. nia.
Qed.

End BatchRows.

Section DenseAfterRateLimit.

Variable embed_provider : nat -> list string -> string -> result (list vec).
Variable cosine_distance : vec -> vec -> pyfloat.
Variable argsort : list pyfloat -> list nat.
Variable embed : string -> vec.
Variable e : exn.

Hypothesis first_request_limited :
  forall inputs, embed_provider 0%nat inputs "passage"%string = inl e.
Hypothesis e_rate_limit : is_rate_limit e = true.
Hypothesis later_requests_answered :
  forall n inputs input_type,
    n <> 0%nat -> embed_provider n inputs input_type = inr (map embed inputs).
Hypothesis one_dimension :
  forall t t', List.length (embed t) = List.length (embed t').

Lemma DenseSearchEngine_fit_first_limited (data : list Doc) :
  (25 < List.length data)%nat ->
  exists log,
    DenseSearchEngine_fit embed_provider DenseSearchEngine_init data []
    = (inr (mkDense (Some (map embed (skipn 25 (map text data))))
              (Some data)), log)
    /\ count_embeds log <> 0%nat.
Proof.
  intros Hlen. unfold DenseSearchEngine_fit, bind, ret.
  rewrite (batch_embed_limited embed_provider embed (map text data)
             "passage" 25 first_only (fun _ => e)); [ | lia | | ].
  - change (count_embeds []) with 0%nat.
    rewrite (kept_rows_first_only embed (map text data) 25 ltac:(lia)).
    change (Z.to_nat 25) with 25%nat.
    rewrite np_stack_uniform.
    + eexists. split; [reflexivity | ].
      cbn [app]. rewrite count_batch_events, length_map, length_seq.
      rewrite length_map.
      assert (1 <= (Z.of_nat (List.length data) + 25 - 1) / 25)
        by (apply Z.div_le_lower_bound; lia).
      lia.
    + intros H. apply (f_equal (@List.length vec)) in H.
      rewrite length_map, length_skipn, length_map in H. cbn in H. lia.
    + intros r r' Hr Hr'. apply in_map_iff in Hr, Hr'.
      destruct Hr as (t & <- & _). destruct Hr' as (t' & <- & _).
      apply one_dimension.
  - intros [| n] inputs; cbn [first_only Nat.eqb].
    + apply first_request_limited.
    + now apply later_requests_answered.
  - intros _ _. exact e_rate_limit.
Qed.

Hypothesis argsort_sorts : forall values, is_argsort values (argsort values).

Lemma shifted_rows (data : list Doc) (query_vec : vec)
    (indices : list nat) (output : list SearchResult) :
  Forall2 (scored_from
             (cdist_row cosine_distance query_vec
                (map embed (skipn 25 (map text data)))) data)
    indices output ->
  Forall (fun r =>
            exists idx later,
              nth_error data idx = Some (payload r)
              /\ nth_error data (idx + 25) = Some later
              /\ score r
                 = similarity (cosine_distance query_vec
                                 (embed (text later)))) output.
Proof.
  induction 1 as [| idx r indices output (Hdoc & d & Hd & Hs) _ IH];
    constructor; [ | exact IH].
  unfold cdist_row in Hd.
  rewrite !nth_error_map, nth_error_skipn, nth_error_map in Hd.
  destruct (nth_error data (25 + idx)) as [later |] eqn:E;
    [ | discriminate].
  injection Hd as <-. exists idx, later.
  rewrite Nat.add_comm. auto.
Qed.

Lemma DenseSearchEngine_search_first_limited (data : list Doc)
    (query : string) (top_k : Z) (log : list event) :
  count_embeds log <> 0%nat ->
  exists output,
    DenseSearchEngine_search embed_provider cosine_distance argsort
      (mkDense (Some (map embed (skipn 25 (map text data)))) (Some data))
      query top_k log
    = (inr output, (log ++ [EvEmbed [query] "query"; EvSleep 500])%list)
    /\ List.length output
       = slice_to_length (List.length data - 25) top_k
    /\ Forall (fun r =>
                 exists idx later,
                   nth_error data idx = Some (payload r)
                   /\ nth_error data (idx + 25) = Some later
                   /\ score r
                      = similarity (cosine_distance (embed query)
                                      (embed (text later)))) output.
Proof.
  intros Hc.
  unfold DenseSearchEngine_search, bind, lift. cbn [dense_index dense_data].
  rewrite (batch_embed_single embed_provider query "query" (embed query) log)
    by now rewrite later_requests_answered.
  cbn [hd].
  set (distances := cdist_row cosine_distance (embed query)
                      (map embed (skipn 25 (map text data)))).
  assert (Hlen : List.length distances = (List.length data - 25)%nat).
  { unfold distances, cdist_row.
    now rewrite !length_map, length_skipn, length_map. }
  destruct (ranked_search argsort distances data top_k (argsort_sorts _))
    as (output & E & _ & Hsc); [lia | ].
  exists output. rewrite E. split; [reflexivity | split].
  - rewrite <- (Forall2_length Hsc), slice_to_length_spec.
    destruct (argsort_sorts distances) as [Hperm _].
    now rewrite (Permutation_length Hperm), length_seq, Hlen.
  - now apply shifted_rows in Hsc.
Qed.

End DenseAfterRateLimit.

(** X15: with a provider that either answers a request or signals a rate
    limit, [batch_embed] sends one request per batch, pauses 60 s after a
    rate limit and 0.5 s after an answer, and stacks the rows of the
    answered batches only: the rows of a rate-limited batch are missing from
    the result. *)
Theorem batch_embed_keeps_answered_batches
    (embed_provider : nat -> list string -> string -> result (list vec))
    (embed : string -> vec) (docs : list string) (input_type : string)
    (batch_size : Z) (limited : nat -> bool) (failure : nat -> exn)
    (log : list event) :
  0 < batch_size ->
  (forall n inputs,
      embed_provider n inputs input_type
      = if limited n then inl (failure n) else inr (map embed inputs)) ->
  (forall n, limited n = true -> is_rate_limit (failure n) = true) ->
  let batches :=
    map (batch_of docs batch_size)
      (seq 0 (Z.to_nat ((Z.of_nat (List.length docs) + batch_size - 1)
                        / batch_size))) in
  batch_embed embed_provider docs input_type batch_size log
  = (np_stack (kept_rows embed limited (count_embeds log) batches),
     (log ++ batch_events input_type limited (count_embeds log)
               batches)%list)
  /\ List.concat batches = docs
  /\ (List.length (kept_rows embed limited (count_embeds log) batches)
      <= List.length docs)%nat.
Proof.
  intros Hpos Hp Hf batches. split; [ | split].
  - now apply (batch_embed_limited embed_provider embed docs input_type
                 batch_size limited failure).
  - unfold batches. rewrite concat_batches, skipn_O.
    apply firstn_all2. now apply batch_count_covers.
  - assert (H : forall n bs,
               (List.length (kept_rows embed limited n bs)
                <= List.length (List.concat bs))%nat).
    { intros n bs. revert n.
      induction bs as [| b rest IH]; intros n; [reflexivity | ].
      cbn [kept_rows List.concat]. rewrite !length_app.
      specialize (IH (S n)).
      destruct (limited n); [cbn | rewrite length_map]; lia. }
    specialize (H (count_embeds log) batches).
    replace (List.concat batches) with docs in H; [exact H | ].
    unfold batches. rewrite concat_batches, skipn_O.
    symmetry. apply firstn_all2. now apply batch_count_covers.
Qed.

Lemma batch_embed_keeps_answered_batches_witness :
  batch_embed Fixtures.rate_limited_first
    ["a"; "bb"; "ccc"; "dddd"; "eeeee"]%string "passage" 2 []
  = (inr [[3 # 1]; [4 # 1]; [5 # 1]],
     [EvEmbed ["a"; "bb"]%string "passage"; EvSleep 60000;
      EvEmbed ["ccc"; "dddd"]%string "passage"; EvSleep 500;
      EvEmbed ["eeeee"%string] "passage"; EvSleep 500]).
Proof.
  apply (batch_embed_keeps_answered_batches Fixtures.rate_limited_first
           (fun t => [Z.of_nat (String.length t) # 1])
           ["a"; "bb"; "ccc"; "dddd"; "eeeee"]%string "passage"%string 2
           first_only (fun _ => Exn ProviderError "Rate limit exceeded") []).
  - lia.
  - intros [| n] inputs; reflexivity.
  - intros _ _. reflexivity.
Defined.

(** X16: a dense engine fitted while the provider signals a rate limit on
    the first request only.  [fit] returns as if it had succeeded, with an
    index that lacks the rows of the first 25 documents, so row [j] is the
    embedding of document [j + 25].  [search] still reads the document of a
    row at the row's own position: every result is a document of the
    corpus carrying the score of the document 25 places after it, and the
    last 25 documents are never returned. *)
Theorem dense_fit_after_rate_limit
    (embed_provider : nat -> list string -> string -> result (list vec))
    (cosine_distance : vec -> vec -> pyfloat)
    (argsort : list pyfloat -> list nat)
    (embed : string -> vec) (e : exn) (data : list Doc) (query : string)
    (top_k : Z) :
  (forall inputs, embed_provider 0%nat inputs "passage"%string = inl e) ->
  is_rate_limit e = true ->
  (forall n inputs input_type,
      n <> 0%nat ->
      embed_provider n inputs input_type = inr (map embed inputs)) ->
  (forall t t', List.length (embed t) = List.length (embed t')) ->
  (forall values, is_argsort values (argsort values)) ->
  (25 < List.length data)%nat ->
  exists log output,
    DenseSearchEngine_fit embed_provider DenseSearchEngine_init data []
    = (inr (mkDense (Some (map embed (skipn 25 (map text data))))
              (Some data)), log)
    /\ DenseSearchEngine_search embed_provider cosine_distance argsort
         (mkDense (Some (map embed (skipn 25 (map text data)))) (Some data))
         query top_k log
       = (inr output, (log ++ [EvEmbed [query] "query"; EvSleep 500])%list)
    /\ List.length output = slice_to_length (List.length data - 25) top_k
    /\ Forall (fun r =>
                 exists idx later,
                   nth_error data idx = Some (payload r)
                   /\ nth_error data (idx + 25) = Some later
                   /\ score r
                      = similarity (cosine_distance (embed query)
                                      (embed (text later)))) output.
Proof.
  intros Hfirst He Hlater Hdim Hsort Hlen.
  destruct (DenseSearchEngine_fit_first_limited embed_provider embed e
              Hfirst He Hlater Hdim data Hlen) as (log & Efit & Hc).
  destruct (DenseSearchEngine_search_first_limited embed_provider
              cosine_distance argsort embed Hlater Hsort data query top_k
              log Hc) as (output & Esearch & Hn & Hrows).
  exists log, output. auto.
Qed.


Lemma dense_fit_after_rate_limit_witness :
  exists log output,
    DenseSearchEngine_fit Fixtures.rate_limited_first DenseSearchEngine_init
      Fixtures2.numbered_corpus []
    = (inr (mkDense
              (Some (map (fun t => [Z.of_nat (String.length t) # 1])
                       (skipn 25 (map text Fixtures2.numbered_corpus))))
              (Some Fixtures2.numbered_corpus)), log)
    /\ DenseSearchEngine_search Fixtures.rate_limited_first
         Fixtures.cosine_distance_exact Fixtures.stable_argsort
         (mkDense
            (Some (map (fun t => [Z.of_nat (String.length t) # 1])
                     (skipn 25 (map text Fixtures2.numbered_corpus))))
            (Some Fixtures2.numbered_corpus))
         "query" 5 log
       = (inr output, (log ++ [EvEmbed ["query"%string] "query";
                               EvSleep 500])%list)
    /\ List.length output = 2%nat.
Proof.
  destruct (dense_fit_after_rate_limit Fixtures.rate_limited_first
              Fixtures.cosine_distance_exact Fixtures.stable_argsort
              (fun t => [Z.of_nat (String.length t) # 1])
              (Exn ProviderError "Rate limit exceeded")
              Fixtures2.numbered_corpus "query"%string 5)
    as (log & output & Efit & Esearch & Hn & _).
  - reflexivity.
  - reflexivity.
  - intros [| n] inputs input_type H; [congruence | reflexivity].
  - reflexivity.
  - apply stable_argsort_spec.
  - cbn. lia.
  - exists log, output. split; [exact Efit | split; [exact Esearch | ]].
    rewrite Hn. reflexivity.
Defined.

(* ------------------------------------------------------------------ *)
(** * Properties of [make_batches_for_db] *)

Section MakeBatchesFacts.

Variable embed_provider : nat -> list string -> string -> result (list vec).
Variable asyncio_run_refusal : exn.

Lemma make_batch_raises (data : list Doc) (batch_size : Z)
    (is_cohere_model : bool) (start : Z) (log : list event) :
  exists e log',
    make_batch embed_provider asyncio_run_refusal data batch_size
      is_cohere_model start log = (inl e, log')
    /\ (is_cohere_model = false ->
        e = Exn TypeError
              "batch_embed() got an unexpected keyword argument 'dimensions'"
        /\ log' = log).
Proof.
  unfold make_batch, bind, asyncio_run, raise.
  destruct is_cohere_model.
  - destruct (batch_embed embed_provider _ "search_document" 25 log)
      as [[e | stacked] log'].
    + exists e, log'. split; [reflexivity | discriminate].
    + exists asyncio_run_refusal, log'. split; [reflexivity | discriminate].
  - eexists _, log. split; [reflexivity | auto].
Qed.

Lemma no_batch_without_documents (n batch_size : Z) :
  0 <= n -> 0 < batch_size ->
  Z.to_nat ((n + batch_size - 1) / batch_size) = 0%nat -> n = 0.
Proof.
  intros Hn Hb H.
  destruct (Z.eq_dec n 0) as [E | E]; [exact E | ].
  assert (Hq : 1 <= (n + batch_size - 1) / batch_size)
    by (apply Z.div_le_lower_bound; lia).
  revert H Hq. generalize ((n + batch_size - 1) / batch_size). lia.
Qed.

End MakeBatchesFacts.

(** X17: [make_batches_for_db] never yields a batch.  Run to its end, the
    generator either yields nothing, which it does only without documents
    or with a negative batch size, or raises in its first pass: the
    [TypeError] of the unknown keyword [dimensions] before any request when
    [is_cohere_model] is false, and otherwise a failure of the embedding or
    the refusal of [asyncio.run] to run an array. *)
Theorem make_batches_for_db_never_yields
    (embed_provider : nat -> list string -> string -> result (list vec))
    (asyncio_run_refusal : exn) (data : list Doc) (batch_size : Z)
    (is_cohere_model : bool) (log : list event) :
  (forall batches log',
      make_batches_for_db embed_provider asyncio_run_refusal data batch_size
        is_cohere_model log = (inr batches, log') ->
      batches = [] /\ log' = log /\ (data = [] \/ batch_size < 0))
  /\ (data <> [] -> 0 < batch_size ->
      exists e log',
        make_batches_for_db embed_provider asyncio_run_refusal data
          batch_size is_cohere_model log = (inl e, log')
        /\ (is_cohere_model = false ->
            e = Exn TypeError
                  "batch_embed() got an unexpected keyword argument 'dimensions'"
            /\ log' = log)).
Proof.
  assert (Hrun : forall m,
             (0 < m)%nat ->
             exists e log',
               yield_each
                 (map (fun j => Z.of_nat j * batch_size) (seq 0 m))
                 (make_batch embed_provider asyncio_run_refusal data
                    batch_size is_cohere_model) log = (inl e, log')
               /\ (is_cohere_model = false ->
                   e = Exn TypeError
                         "batch_embed() got an unexpected keyword argument 'dimensions'"
                   /\ log' = log)).
  { intros [| m] Hm; [lia | ]. cbn [seq map yield_each]. unfold bind.
    destruct (make_batch_raises embed_provider asyncio_run_refusal data
                batch_size is_cohere_model (Z.of_nat 0 * batch_size) log)
      as (e & log' & E & H).
    rewrite E. eauto. }
  unfold make_batches_for_db, bind, lift, range0.
  destruct (Z.eqb_spec batch_size 0) as [E0 | Enz].
  { split; [discriminate | lia]. }
  destruct (Z.ltb_spec batch_size 0) as [Eneg | Epos].
  { split; [ | lia]. cbn. unfold ret. intros batches log' [= <- <-]. auto. }
  destruct (Z.to_nat ((Z.of_nat (List.length data) + batch_size - 1)
                      / batch_size)) as [| m] eqn:Em.
  - apply no_batch_without_documents in Em; [ | lia | lia].
    assert (Hnil : data = []) by (apply length_zero_iff_nil; lia).
    split; [ | congruence].
    cbn. unfold ret. intros batches log' [= <- <-]. auto.
  - destruct (Hrun (S m) ltac:(lia)) as (e & log' & E & H).
    rewrite E. split; [discriminate | eauto].
Qed.

Lemma make_batches_for_db_never_yields_witness :
  exists e log',
    make_batches_for_db Fixtures.steady_provider
      (Exn ValueError "a coroutine was expected") Fixtures.near_corpus 50
      false []
    = (inl e, log')
    /\ (false = false ->
        e = Exn TypeError
              "batch_embed() got an unexpected keyword argument 'dimensions'"
        /\ log' = []).
Proof.
  apply (make_batches_for_db_never_yields Fixtures.steady_provider
           (Exn ValueError "a coroutine was expected") Fixtures.near_corpus
           50 false []); [discriminate | lia].
Defined.

(* ------------------------------------------------------------------ *)
(** * Properties of the source-code chunker *)

Section WalkFacts.

Variable set_iter : list string -> list string.
Variable import_map : dict.
Variable module_variables : list string.

Local Notation process_function :=
  (process_function set_iter import_map module_variables).
Local Notation process_decorated_definition :=
  (process_decorated_definition set_iter import_map module_variables).
Local Notation process_class :=
  (process_class set_iter import_map module_variables).

Lemma size_child (c : SyntaxNode) (f : option string) (t x : string)
    (children : list SyntaxNode) :
  In c children -> (size c < size (mkSyntax f t x children))%nat.
Proof.
  intros Hin. cbn [size].
  assert (H : (size c <= list_sum (map size children))%nat).
  2: lia.
  induction children as [| d rest IH]; [destruct Hin | ].
  simpl. destruct Hin as [-> | Hin]; [lia | ].
  specialize (IH Hin). lia.
Qed.

Lemma with_child_find (A : Type) (name : string) (f : SyntaxNode -> A)
    (otherwise : A) (l : list SyntaxNode) :
  with_child name f otherwise l
  = match find (has_field name) l with
    | Some c => f c
    | None => otherwise
    end.
Proof.
  induction l as [| c rest IH]; [reflexivity | ].
  cbn [with_child find]. destruct (has_field name c); [reflexivity | ].
  exact IH.
Qed.

Lemma make_context_parents (used_imports used_module_vars : list string)
    (pc pf : option string) :
  let c := mkCodeChunk EmptyString EmptyString EmptyString
             (make_context set_iter used_imports used_module_vars pc pf) in
  parent_class_of c = pc /\ parent_function_of c = pf.
Proof.
  unfold parent_class_of, parent_function_of, make_context. cbn [cc_context].
  destruct used_imports, used_module_vars, pc, pf; cbn; auto.
Qed.

Lemma process_function_unfold (node : SyntaxNode) (context : Context) :
  process_function node context
  = and_then (attribute "text" (child_by_field_name "name" node))
      (fun func_name_node =>
         and_then (attribute "type" (child_by_field_name "body" node))
           (fun func_body =>
              let identifiers := collect_identifiers func_body [] in
              let identifiers :=
                match child_by_field_name "parameters" node with
                | Some parameters =>
                    collect_identifiers_from_type_annotations parameters
                      identifiers
                | None => identifiers
                end in
              let identifiers :=
                match child_by_field_name "return_type" node with
                | Some return_type =>
                    collect_identifiers_from_type_annotations return_type
                      identifiers
                | None => identifiers
                end in
              and_then
                (nested_chunks process_function process_decorated_definition
                   (s_text func_name_node) context (s_children func_body))
                (fun nested =>
                   inr (mkCodeChunk
                          match parent_class context with
                          | Some _ => "method"%string
                          | None => "function"%string
                          end
                          (s_text func_name_node) (s_text node)
                          (make_context set_iter
                             (used_imports_of set_iter import_map identifiers)
                             (used_module_vars_of set_iter module_variables
                                identifiers)
                             (parent_class context)
                             (parent_function context))
                        :: nested)))).
Proof.
  destruct node as [f t x children].
  unfold child_by_field_name. cbn [s_children s_text].
  cbn [CodeChunker.process_function].
  destruct (attribute "text" (find (has_field "name") children))
    as [e | func_name_node]; [reflexivity | ].
  cbn [and_then].
  destruct (find (has_field "body") children) as [func_body |] eqn:Eb;
    [ | reflexivity].
  cbn [attribute and_then].
  rewrite with_child_find, Eb.
  reflexivity.
Qed.

Lemma process_decorated_definition_chunk (node : SyntaxNode)
    (context : Context) (chunks : list CodeChunk) :
  process_decorated_definition node context = inr chunks ->
  (List.length chunks <= 1)%nat
  /\ Forall (fun c => under context c
                      /\ parent_function_of c = parent_function context
                      /\ cc_definition c = s_text node) chunks.
Proof.
  unfold CodeChunker.process_decorated_definition.
  destruct (find _ (s_children node)) as [func_def |].
  - destruct (attribute "text" (child_by_field_name "name" func_def))
      as [e | func_name_node]; [discriminate | ].
    cbn [and_then]. intros [= <-]. split; [cbn; lia | ].
    constructor; [ | constructor].
    match goal with
    | |- context [make_context set_iter ?ui ?uv ?pc ?pf] =>
        destruct (make_context_parents ui uv pc pf) as [Hc Hf]
    end.
    unfold under, parent_class_of, parent_function_of in *.
    cbn [cc_context cc_definition cc_type] in *.
    repeat split; [exact Hc | | exact Hf].
    unfold kind_under. cbn [cc_type].
    destruct (parent_class context),
      (String.eqb (s_type func_def) "function_definition"); auto.
  - intros [= <-]. split; [cbn; lia | constructor].
Qed.

Lemma nested_chunks_under (func_name : string) (context : Context)
    (l : list SyntaxNode) (chunks : list CodeChunk) :
  (forall child context' found,
      In child l ->
      process_function child context' = inr found ->
      Forall (under context') found) ->
  nested_chunks process_function process_decorated_definition func_name
    context l = inr chunks ->
  Forall (under context) chunks.
Proof.
  revert chunks. induction l as [| child rest IH]; intros chunks Hrec.
  - intros [= <-]. constructor.
  - cbn [nested_chunks].
    destruct (if String.eqb (s_type child) "function_definition"
              then _ else _) as [e | found] eqn:Ef; [discriminate | ].
    cbn [and_then].
    destruct (nested_chunks _ _ func_name context rest)
      as [e | others] eqn:Eo; [discriminate | ].
    cbn [and_then]. intros [= <-]. apply Forall_app. split.
    + destruct (String.eqb (s_type child) "function_definition").
      * apply (Hrec child _ found (or_introl eq_refl)) in Ef. exact Ef.
      * destruct (String.eqb (s_type child) "decorated_definition").
        -- apply process_decorated_definition_chunk in Ef.
           destruct Ef as [_ Ef]. rewrite Forall_forall in *.
           intros c Hc. now apply Ef.
        -- injection Ef as <-. constructor.
    + apply IH; [ | reflexivity].
      intros c ctx' f' Hin. apply Hrec. now right.
Qed.

Lemma process_function_under_sized (n : nat) :
  forall node context chunks,
    (size node < n)%nat ->
    process_function node context = inr chunks ->
    Forall (under context) chunks.
Proof.
  induction n as [| n IH]; intros node context chunks Hsize; [lia | ].
  rewrite process_function_unfold.
  destruct (attribute "text" (child_by_field_name "name" node))
    as [e | func_name_node]; [discriminate | ].
  cbn [and_then].
  destruct (child_by_field_name "body" node) as [func_body |] eqn:Eb;
    [ | discriminate].
  cbn [attribute and_then].
  destruct (nested_chunks _ _ (s_text func_name_node) context
              (s_children func_body)) as [e | nested] eqn:En;
    [discriminate | ].
  cbn [and_then]. intros [= <-]. constructor.
  - match goal with
    | |- context [make_context set_iter ?ui ?uv ?pc ?pf] =>
        destruct (make_context_parents ui uv pc pf) as [Hc _]
    end.
    unfold under, parent_class_of, kind_under in *.
    cbn [cc_context cc_type] in *. split; [exact Hc | ].
    destruct (parent_class context); auto.
  - apply nested_chunks_under in En; [exact En | ].
    intros child context' found Hin. apply IH.
    unfold child_by_field_name in Eb. apply find_some in Eb.
    destruct Eb as [Hb _].
    destruct node as [f t x children], func_body as [f' t' x' children'].
    cbn [s_children] in *.
    pose proof (size_child _ f t x children Hb).
    pose proof (size_child _ f' t' x' children' Hin). lia.
Qed.

Lemma process_function_under (node : SyntaxNode) (context : Context)
    (chunks : list CodeChunk) :
  process_function node context = inr chunks ->
  Forall (under context) chunks.
Proof. apply (process_function_under_sized (S (size node))). lia. Qed.

Lemma process_methods_under (methods : list SyntaxNode) (context : Context)
    (chunks : list CodeChunk) :
  process_methods set_iter import_map module_variables methods context
  = inr chunks ->
  Forall (under context) chunks.
Proof.
  revert chunks. induction methods as [| method rest IH]; intros chunks.
  - intros [= <-]. constructor.
  - cbn [process_methods].
    destruct (if String.eqb (s_type method) "decorated_definition"
              then _ else _) as [e | found] eqn:Ef; [discriminate | ].
    cbn [and_then].
    destruct (process_methods _ _ _ rest context) as [e | others];
      [discriminate | ].
    cbn [and_then]. intros [= <-]. apply Forall_app. split.
    + destruct (String.eqb (s_type method) "decorated_definition").
      * apply process_decorated_definition_chunk in Ef.
        destruct Ef as [_ Ef]. rewrite Forall_forall in *.
        intros c Hc. now apply Ef.
      * now apply process_function_under in Ef.
    + now apply IH.
Qed.

Lemma process_class_chunks (node : SyntaxNode) (context : Context)
    (chunks : list CodeChunk) :
  process_class node context = inr chunks ->
  exists name_node own methods,
    child_by_field_name "name" node = Some name_node
    /\ chunks = own :: methods
    /\ cc_type own = "class"%string
    /\ cc_name own = s_text name_node
    /\ parent_class_of own = None
    /\ parent_function_of own = None
    /\ Forall (under (mkContext (Some (s_text name_node))
                        (parent_function context))) methods.
Proof.
  unfold CodeChunker.process_class.
  destruct (child_by_field_name "name" node) as [name_node |];
    [ | discriminate].
  cbn [attribute and_then].
  destruct (attribute "children" (child_by_field_name "body" node))
    as [e | class_body]; [discriminate | ].
  cbn [and_then].
  destruct (process_class_children _ _) as [e | v]; [discriminate | ].
  cbn [and_then].
  destruct (process_methods _ _ _ (other_methods v) _)
    as [e | methods] eqn:Em; [discriminate | ].
  cbn [and_then]. intros [= <-].
  eexists name_node, _, methods.
  split; [reflexivity | split; [reflexivity | ]].
  match goal with
  | |- context [make_context set_iter ?ui ?uv ?pc ?pf] =>
      destruct (make_context_parents ui uv pc pf) as [Hc Hf]
  end.
  unfold parent_class_of, parent_function_of in *.
  cbn [cc_context cc_type cc_name] in *.
  repeat split; [exact Hc | exact Hf | ].
  now apply process_methods_under in Em.
Qed.

Lemma process_root_children_chunks (root : SyntaxNode)
    (l : list SyntaxNode) (chunks : list CodeChunk) :
  incl l (s_children root) ->
  process_root_children set_iter import_map module_variables l = inr chunks ->
  Forall (fun c =>
            one_of (cc_type c) ["function"; "method"; "class"]%string = true
            /\ (cc_type c = "method"%string ->
                exists cls, parent_class_of c = Some cls
                            /\ defines_class root cls)
            /\ (cc_type c = "function"%string -> parent_class_of c = None))
    chunks.
Proof.
  assert (Hfree : forall found,
             Forall (under (mkContext None None)) found ->
             Forall (fun c =>
                       one_of (cc_type c)
                         ["function"; "method"; "class"]%string = true
                       /\ (cc_type c = "method"%string ->
                           exists cls, parent_class_of c = Some cls
                                       /\ defines_class root cls)
                       /\ (cc_type c = "function"%string ->
                           parent_class_of c = None)) found).
  { intros found H. rewrite Forall_forall in *. intros c Hc.
    destruct (H c Hc) as [Hp Hk]. cbn in Hp, Hk.
    destruct Hk as [-> | ->]; (split; [reflexivity | split]);
      try discriminate; auto. }
  revert chunks. induction l as [| child rest IH]; intros chunks Hincl.
  - intros [= <-]. constructor.
  - cbn [process_root_children].
    destruct (if has_type _ child then _ else _) as [e | found] eqn:Ef;
      [discriminate | ].
    cbn [and_then].
    destruct (process_root_children _ _ _ rest) as [e | others];
      [discriminate | ].
    cbn [and_then]. intros [= <-]. apply Forall_app. split.
    2: { apply IH; [ | reflexivity]. intros x Hx. apply Hincl. now right. }
    destruct (has_type _ child); [injection Ef as <-; constructor | ].
    destruct (String.eqb_spec (s_type child) "class_definition") as [Ec | _].
    { apply process_class_chunks in Ef.
      destruct Ef as (name_node & own & methods & Hname & -> & Ht & _ & Hc
                      & _ & Hm).
      assert (Hdef : defines_class root (s_text name_node)).
      { exists child, name_node. repeat split; auto.
        apply Hincl. now left. }
      constructor.
      - rewrite Ht. split; [reflexivity | split]; [discriminate | auto].
      - rewrite Forall_forall in *. intros c Hin.
        destruct (Hm c Hin) as [Hp Hk]. cbn in Hp, Hk.
        destruct Hk as [E | E]; rewrite E;
          (split; [reflexivity | split]); try discriminate; eauto. }
    destruct (String.eqb (s_type child) "function_definition").
    { apply Hfree. now apply process_function_under in Ef. }
    destruct (String.eqb (s_type child) "decorated_definition").
    { apply Hfree. apply process_decorated_definition_chunk in Ef.
      destruct Ef as [_ Ef]. rewrite Forall_forall in *.
      intros c Hc. now apply Ef. }
    injection Ef as <-. constructor.
Qed.

Lemma nested_chunks_incl (func_name : string) (context : Context)
    (l : list SyntaxNode) (chunks : list CodeChunk) (child : SyntaxNode) :
  nested_chunks process_function process_decorated_definition func_name
    context l = inr chunks ->
  In child l ->
  exists found,
    (if String.eqb (s_type child) "function_definition"
     then process_function child
            (mkContext (parent_class context) (Some func_name))
     else if String.eqb (s_type child) "decorated_definition"
     then process_decorated_definition child context
     else inr []) = inr found
    /\ incl found chunks.
Proof.
  revert chunks. induction l as [| first rest IH]; intros chunks;
    [intros _ [] | ].
  cbn [nested_chunks].
  destruct (if String.eqb (s_type first) "function_definition"
            then _ else _) as [e | found] eqn:Ef; [discriminate | ].
  cbn [and_then].
  destruct (nested_chunks _ _ func_name context rest) as [e | others];
    [discriminate | ].
  cbn [and_then]. intros [= <-] [<- | Hin].
  - exists found. split; [exact Ef | ]. now apply incl_appl.
  - destruct (IH others eq_refl Hin) as (found' & E & Hi).
    exists found'. split; [exact E | ]. now apply incl_appr.
Qed.

Lemma process_function_own (node : SyntaxNode) (context : Context)
    (chunks : list CodeChunk) :
  process_function node context = inr chunks ->
  exists name_node func_body own nested,
    child_by_field_name "name" node = Some name_node
    /\ child_by_field_name "body" node = Some func_body
    /\ chunks = own :: nested
    /\ cc_name own = s_text name_node
    /\ cc_definition own = s_text node
    /\ parent_class_of own = parent_class context
    /\ parent_function_of own = parent_function context
    /\ nested_chunks process_function process_decorated_definition
         (s_text name_node) context (s_children func_body) = inr nested.
Proof.
  rewrite process_function_unfold.
  destruct (child_by_field_name "name" node) as [name_node |];
    [ | discriminate].
  cbn [attribute and_then].
  destruct (child_by_field_name "body" node) as [func_body |];
    [ | discriminate].
  cbn [attribute and_then].
  destruct (nested_chunks _ _ (s_text name_node) context
              (s_children func_body)) as [e | nested] eqn:En;
    [discriminate | ].
  cbn [and_then]. intros [= <-].
  exists name_node, func_body. eexists _, nested.
  match goal with
  | |- context [make_context set_iter ?ui ?uv ?pc ?pf] =>
      destruct (make_context_parents ui uv pc pf) as [Hc Hf]
  end.
  unfold parent_class_of, parent_function_of in *.
  cbn [cc_context cc_name cc_definition] in *.
  repeat split; auto.
Qed.

Lemma process_root_children_none (l : list SyntaxNode) :
  (forall child,
      In child l ->
      has_type ["class_definition"; "function_definition";
                "decorated_definition"]%string child = false) ->
  process_root_children set_iter import_map module_variables l = inr [].
Proof.
  induction l as [| child rest IH]; intros H; [reflexivity | ].
  cbn [process_root_children]. rewrite IH by (intros c Hc; apply H; now right).
  specialize (H child (or_introl eq_refl)).
  unfold has_type, one_of in H. cbn [existsb] in H.
  rewrite !orb_false_iff in H. destruct H as (Hc & Hf & Hd & _).
  rewrite Hc, Hf, Hd. now destruct (has_type _ child).
Qed.

End WalkFacts.

Section ClassFacts.

Variable set_iter : list string -> list string.
Variable import_map : dict.
Variable module_variables : list string.

Lemma split_from_nonempty (line s : string) : split_from line s <> [].
Proof.
  revert line. induction s as [| c s IH]; intros line; cbn [split_from].
  - discriminate.
  - destruct (Ascii.eqb c "010"); [discriminate | apply IH].
Qed.

(** Splitting at the line feeds and joining again gives the text back. *)
Lemma join_split_from (line s : string) :
  String.concat nl (split_from line s) = (line ++ s)%string.
Proof.
  revert line. induction s as [| c s IH]; intros line; cbn [split_from].
  - cbn. now rewrite append_empty_r.
  - destruct (Ascii.eqb_spec c "010") as [-> | _].
    + pose proof (split_from_nonempty EmptyString s) as Hne.
      specialize (IH EmptyString).
      destruct (split_from EmptyString s) as [| x rest]; [congruence | ].
      change (String.concat nl (line :: x :: rest))
        with (line ++ nl ++ String.concat nl (x :: rest))%string.
      rewrite IH. reflexivity.
    + rewrite IH, append_assoc. reflexivity.
Qed.

Lemma last_of_app_one (A : Type) (l : list A) (x : A) :
  last_of (l ++ [x]) = Some x.
Proof. unfold last_of. now rewrite rev_app_distr. Qed.

Lemma last_of_cons (A : Type) (l : list A) (x : A) :
  last_of (x :: l)
  = match last_of l with
    | Some y => Some y
    | None => Some x
    end.
Proof.
  unfold last_of. cbn [rev].
  destruct (rev l) as [| y r]; reflexivity.
Qed.

Lemma process_class_method_spec (v v' : class_vars)
    (child func_def : SyntaxNode) :
  method_def child = Some func_def ->
  process_class_method v child func_def = inr v' ->
  class_attributes v' = class_attributes v
  /\ class_identifiers v' = class_identifiers v
  /\ other_methods v'
     = (other_methods v ++ filter is_other_method [child])%list
  /\ init_method v'
     = (if is_init child then Some child else init_method v).
Proof.
  intros Hd. cbn [filter].
  unfold process_class_method, is_other_method, is_init, method_name.
  rewrite Hd.
  destruct (child_by_field_name "name" func_def) as [name_node |];
    [ | discriminate].
  cbn [attribute and_then option_map].
  destruct (String.eqb (s_text name_node) "__init__");
    intros [= <-]; cbn; rewrite ?app_nil_r; auto.
Qed.

Lemma process_class_child_spec (v v' : class_vars) (child : SyntaxNode) :
  process_class_child v child = inr v' ->
  class_attributes v' = (class_attributes v ++ attribute_of child)%list
  /\ other_methods v'
     = (other_methods v ++ filter is_other_method [child])%list
  /\ init_method v'
     = (if is_init child then Some child else init_method v).
Proof.
  unfold process_class_child.
  destruct (String.eqb (s_type child) "expression_statement") eqn:Ee.
  - assert (Hm : method_name child = None)
      by (unfold method_name, method_def; now rewrite Ee).
    cbn [filter]. unfold is_other_method, is_init, attribute_of, item.
    rewrite Hm, Ee, app_nil_r.
    destruct (s_children child) as [| assignment rest]; [discriminate | ].
    cbn [nth_error and_then one_of existsb].
    destruct (String.eqb (s_type assignment) "assignment").
    + intros [= <-]. cbn. auto.
    + destruct (String.eqb (s_type assignment) "typed_parameter");
        intros [= <-]; cbn; rewrite ?app_nil_r; auto.
  - assert (Ha : attribute_of child = [])
      by (unfold attribute_of; now rewrite Ee).
    rewrite Ha, app_nil_r.
    destruct (String.eqb (s_type child) "function_definition") eqn:Ef.
    + intros H.
      apply (process_class_method_spec v v' child child) in H.
      * destruct H as (H1 & _ & H2 & H3). auto.
      * unfold method_def. now rewrite Ee, Ef.
    + destruct (String.eqb (s_type child) "decorated_definition") eqn:Ed.
      * destruct (find _ (s_children child)) as [func_def |] eqn:Efind.
        -- intros H.
           apply (process_class_method_spec v v' child func_def) in H.
           ++ destruct H as (H1 & _ & H2 & H3). auto.
           ++ unfold method_def. now rewrite Ee, Ef, Ed.
        -- assert (Hm : method_name child = None)
             by (unfold method_name, method_def;
                 now rewrite Ee, Ef, Ed, Efind).
           cbn [filter]. unfold is_other_method, is_init.
           rewrite Hm, app_nil_r. intros [= <-]. auto.
      * assert (Hm : method_name child = None)
          by (unfold method_name, method_def; now rewrite Ee, Ef, Ed).
        cbn [filter]. unfold is_other_method, is_init.
        rewrite Hm, app_nil_r. intros [= <-]. auto.
Qed.

Lemma process_class_children_spec (l : list SyntaxNode) (v v' : class_vars) :
  process_class_children l v = inr v' ->
  class_attributes v'
  = (class_attributes v ++ flat_map attribute_of l)%list
  /\ other_methods v' = (other_methods v ++ filter is_other_method l)%list
  /\ init_method v'
     = match last_of (filter is_init l) with
       | Some init => Some init
       | None => init_method v
       end.
Proof.
  revert v. induction l as [| child rest IH]; intros v.
  - intros [= <-]. cbn. rewrite !app_nil_r. auto.
  - cbn [process_class_children].
    destruct (process_class_child v child) as [e | v1] eqn:E1;
      [discriminate | ].
    cbn [and_then]. intros H.
    apply process_class_child_spec in E1. destruct E1 as (Ha & Ho & Hi).
    apply IH in H. destruct H as (Ha' & Ho' & Hi').
    rewrite Ha', Ho', Hi', Ha, Ho, Hi.
    cbn [flat_map filter]. rewrite <- !app_assoc.
    split; [reflexivity | split].
    + destruct (is_other_method child); reflexivity.
    + destruct (is_init child); [ | reflexivity].
      rewrite last_of_cons. now destruct (last_of (filter is_init rest)).
Qed.

Lemma skeleton_lines (header : string) (attrs : list string)
    (init : option SyntaxNode) :
  String.concat nl
    ([header] ++ attrs
     ++ match init with
        | Some i => split_newline (nl ++ nl ++ "    " ++ s_text i)%string
        | None => []
        end)%list
  = (String.concat nl (header :: attrs)
     ++ match init with
        | Some i => nl ++ nl ++ nl ++ "    " ++ s_text i
        | None => EmptyString
        end)%string.
Proof.
  destruct init as [i |].
  - change ([header] ++ attrs
            ++ split_newline (nl ++ nl ++ "    " ++ s_text i)%string)%list
      with ((header :: attrs)
            ++ split_newline (nl ++ nl ++ "    " ++ s_text i)%string)%list.
    rewrite concat_sep_app;
      [ | discriminate | apply split_from_nonempty].
    unfold split_newline. now rewrite join_split_from.
  - now rewrite !app_nil_r, append_empty_r.
Qed.

End ClassFacts.

Section DecoratedFacts.

Lemma find_replace (p : SyntaxNode -> bool) (before after : list SyntaxNode)
    (b1 b2 : SyntaxNode) :
  p b1 = false -> p b2 = false ->
  find p (before ++ b1 :: after) = find p (before ++ b2 :: after).
Proof.
  intros H1 H2. induction before as [| x before IH]; cbn [app find].
  - now rewrite H1, H2.
  - now rewrite IH.
Qed.

Lemma find_append (p : SyntaxNode -> bool) (l1 l2 : list SyntaxNode) :
  find p (l1 ++ l2)
  = match find p l1 with
    | Some x => Some x
    | None => find p l2
    end.
Proof.
  induction l1 as [| x l1 IH]; cbn [app find]; [reflexivity | ].
  now destruct (p x).
Qed.

Lemma body_is_no_other_field (name : string) (body : SyntaxNode) :
  s_field body = Some "body"%string ->
  String.eqb "body" name = false ->
  has_field name body = false.
Proof. unfold has_field. now intros -> ->. Qed.

(** The identifiers collected from a definition do not depend on its
    body. *)
Lemma collect_identifiers_skips_body (field : option string)
    (type node_text : string) (before after : list SyntaxNode)
    (body1 body2 : SyntaxNode) (identifiers : list string) :
  one_of type ["function_definition"; "class_definition"]%string = true ->
  s_field body1 = Some "body"%string ->
  s_field body2 = Some "body"%string ->
  collect_identifiers
    (definition_node field type node_text before body1 after) identifiers
  = collect_identifiers
      (definition_node field type node_text before body2 after) identifiers.
Proof.
  intros Ht H1 H2. unfold definition_node. cbn [collect_identifiers].
  rewrite Ht.
  destruct (String.eqb type "identifier"); [reflexivity | ].
  rewrite !with_child_find.
  rewrite (find_replace (has_field "parameters") before after body1 body2),
    (find_replace (has_field "return_type") before after body1 body2);
    try (apply body_is_no_other_field; [assumption | reflexivity]).
  reflexivity.
Qed.

End DecoratedFacts.

(** X18: the chunks of [process_root].  Every chunk has type [function],
    [method] or [class]; a [method] names as its parent class a class
    defined at the top level of the module, and a [function] has no parent
    class. *)
Theorem process_root_chunk_kinds (set_iter : list string -> list string)
    (import_map : dict) (module_variables : list string) (root : SyntaxNode)
    (chunks : list CodeChunk) :
  process_root set_iter import_map module_variables root = inr chunks ->
  Forall (fun c =>
            one_of (cc_type c) ["function"; "method"; "class"]%string = true
            /\ (cc_type c = "method"%string ->
                exists cls, parent_class_of c = Some cls
                            /\ defines_class root cls)
            /\ (cc_type c = "function"%string -> parent_class_of c = None))
    chunks.
Proof.
  unfold process_root. apply process_root_children_chunks.
  intros x Hx. exact Hx.
Qed.

Lemma process_root_chunk_kinds_witness :
  exists chunks,
    process_root Fixtures3.insertion_order Fixtures3.module_imports
      Fixtures3.module_vars Fixtures3.module_node = inr chunks
    /\ List.length chunks = 9%nat
    /\ Forall (fun c =>
                 one_of (cc_type c) ["function"; "method"; "class"]%string
                 = true
                 /\ (cc_type c = "method"%string ->
                     exists cls, parent_class_of c = Some cls
                                 /\ defines_class Fixtures3.module_node cls)
                 /\ (cc_type c = "function"%string ->
                     parent_class_of c = None)) chunks.
Proof.
  destruct (process_root Fixtures3.insertion_order Fixtures3.module_imports
              Fixtures3.module_vars Fixtures3.module_node)
    as [e | chunks] eqn:E; [vm_compute in E; discriminate | ].
  exists chunks. split; [reflexivity | split].
  - vm_compute in E. injection E as <-. reflexivity.
  - exact (process_root_chunk_kinds Fixtures3.insertion_order
             Fixtures3.module_imports Fixtures3.module_vars
             Fixtures3.module_node chunks E).
Defined.

(** X19: a decorated definition gives at most one chunk, whose definition is
    the whole text of the decorated node and whose parents are those of the
    context it is processed under; the chunk does not depend on the body of
    the inner definition, whose identifiers are never collected. *)
Theorem decorated_definition_ignores_body
    (set_iter : list string -> list string) (import_map : dict)
    (module_variables : list string) (context : Context)
    (field inner_field : option string) (node_text inner_type inner_text : string)
    (decorators trailing before after : list SyntaxNode)
    (body1 body2 : SyntaxNode) :
  one_of inner_type ["function_definition"; "class_definition"]%string
  = true ->
  s_field body1 = Some "body"%string ->
  s_field body2 = Some "body"%string ->
  let decorated body :=
    mkSyntax field "decorated_definition" node_text
      (decorators
       ++ definition_node inner_field inner_type inner_text before body after
       :: trailing) in
  process_decorated_definition set_iter import_map module_variables
    (decorated body1) context
  = process_decorated_definition set_iter import_map module_variables
      (decorated body2) context
  /\ (forall chunks,
         process_decorated_definition set_iter import_map module_variables
           (decorated body1) context = inr chunks ->
         (List.length chunks <= 1)%nat
         /\ Forall (fun c => cc_definition c = node_text
                             /\ parent_class_of c = parent_class context
                             /\ parent_function_of c
                                = parent_function context) chunks).
Proof.
  intros Ht H1 H2 decorated. split.
  - unfold decorated, CodeChunker.process_decorated_definition.
    cbn [s_children s_text collect_identifiers].
    change (String.eqb "decorated_definition" "identifier") with false.
    change (one_of "decorated_definition"
              ["function_definition"; "class_definition"]%string) with false.
    cbv iota.
    rewrite !fold_left_app. cbn [fold_left].
    rewrite (collect_identifiers_skips_body inner_field inner_type inner_text
               before after body1 body2 _ Ht H1 H2).
    rewrite !find_append.
    destruct (find _ decorators) as [func_def |]; [reflexivity | ].
    cbn [find]. unfold has_type, definition_node. cbn [s_type].
    rewrite !Ht. unfold child_by_field_name. cbn [s_children s_type].
    rewrite (find_replace (has_field "name") before after body1 body2)
      by (apply body_is_no_other_field; [assumption | reflexivity]).
    reflexivity.
  - intros chunks E.
    apply process_decorated_definition_chunk in E.
    destruct E as [Hlen Hall]. split; [exact Hlen | ].
    rewrite Forall_forall in *. intros c Hc.
    destruct (Hall c Hc) as ([Hp _] & Hf & Hd). auto.
Qed.

Lemma decorated_definition_ignores_body_witness :
  process_decorated_definition Fixtures3.insertion_order
    Fixtures3.module_imports Fixtures3.module_vars
    (Fixtures3.def_load Fixtures3.load_body) (mkContext None None)
  = process_decorated_definition Fixtures3.insertion_order
      Fixtures3.module_imports Fixtures3.module_vars
      (Fixtures3.def_load Fixtures3.other_body) (mkContext None None).
Proof.
  exact (proj1 (decorated_definition_ignores_body Fixtures3.insertion_order
                  Fixtures3.module_imports Fixtures3.module_vars
                  (mkContext None None) None None
                  (s_text (Fixtures3.def_load Fixtures3.load_body))
                  "function_definition"
                  "def load(path): return np.load(path)"
                  [mkSyntax None "decorator" "@cache"
                     [Fixtures3.token "@"; Fixtures3.ident None "cache"]]
                  []
                  [Fixtures3.token "def";
                   Fixtures3.ident (Some "name"%string) "load";
                   mkSyntax (Some "parameters"%string) "parameters" "(...)"
                     [Fixtures3.ident None "path"];
                   Fixtures3.token ":"]
                  [] Fixtures3.load_body Fixtures3.other_body
                  eq_refl eq_refl eq_refl)).
Defined.

(** X20: the definitions in the body of a function.  A nested
    [function_definition] is processed with the enclosing function's name as
    [parent_function], and its own chunk carries that name; a nested
    [decorated_definition] is processed under the context of the enclosing
    function itself, so its chunk carries the parent function of that
    context and not the name of the function it is nested in.  The chunks of
    both are part of the result. *)
Theorem nested_definitions_parents (set_iter : list string -> list string)
    (import_map : dict) (module_variables : list string)
    (node : SyntaxNode) (context : Context) (chunks : list CodeChunk)
    (name_node func_body child : SyntaxNode) :
  process_function set_iter import_map module_variables node context
  = inr chunks ->
  child_by_field_name "name" node = Some name_node ->
  child_by_field_name "body" node = Some func_body ->
  In child (s_children func_body) ->
  (s_type child = "function_definition"%string ->
   exists own nested,
     process_function set_iter import_map module_variables child
       (mkContext (parent_class context) (Some (s_text name_node)))
     = inr (own :: nested)
     /\ incl (own :: nested) chunks
     /\ parent_function_of own = Some (s_text name_node))
  /\ (s_type child = "decorated_definition"%string ->
      exists found,
        process_decorated_definition set_iter import_map module_variables
          child context = inr found
        /\ incl found chunks
        /\ Forall (fun c => parent_function_of c = parent_function context)
             found).
Proof.
  intros E Hname Hbody Hin.
  destruct (process_function_own set_iter import_map module_variables node
              context chunks E)
    as (name_node' & func_body' & own & nested & Hname' & Hbody' & ->
        & _ & _ & _ & _ & En).
  rewrite Hname in Hname'. injection Hname' as <-.
  rewrite Hbody in Hbody'. injection Hbody' as <-.
  destruct (nested_chunks_incl set_iter import_map module_variables
              (s_text name_node) context (s_children func_body) nested child
              En Hin) as (found & Ef & Hincl).
  split; intros Ht; rewrite Ht in Ef; cbn in Ef.
  - destruct (process_function_own set_iter import_map module_variables
                child _ found Ef)
      as (_ & _ & own' & nested' & _ & _ & -> & _ & _ & _ & Hpf & _).
    exists own', nested'. split; [exact Ef | split; [ | exact Hpf]].
    now apply incl_tl.
  - exists found. split; [exact Ef | split; [now apply incl_tl | ]].
    apply process_decorated_definition_chunk in Ef.
    destruct Ef as [_ Ef]. rewrite Forall_forall in *.
    intros c Hc. now apply Ef.
Qed.

Lemma nested_definitions_parents_witness :
  exists chunks found,
    process_function Fixtures3.insertion_order Fixtures3.module_imports
      Fixtures3.module_vars Fixtures3.def_run (mkContext None None)
    = inr chunks
    /\ process_decorated_definition Fixtures3.insertion_order
         Fixtures3.module_imports Fixtures3.module_vars Fixtures3.def_inner
         (mkContext None None) = inr found
    /\ found <> []
    /\ incl found chunks
    /\ Forall (fun c => parent_function_of c = None) found.
Proof.
  destruct (process_function Fixtures3.insertion_order
              Fixtures3.module_imports Fixtures3.module_vars
              Fixtures3.def_run (mkContext None None))
    as [e | chunks] eqn:E; [vm_compute in E; discriminate | ].
  destruct (nested_definitions_parents Fixtures3.insertion_order
              Fixtures3.module_imports Fixtures3.module_vars
              Fixtures3.def_run (mkContext None None) chunks
              (Fixtures3.ident (Some "name"%string) "run")
              (Fixtures3.block "..."
                 [Fixtures3.def_inner; Fixtures3.def_half;
                  Fixtures3.statement "return_statement" "return inner()"
                    ["inner"%string]])
              Fixtures3.def_inner E eq_refl eq_refl (or_introl eq_refl))
    as [_ H].
  destruct (H eq_refl) as (found & Ef & Hincl & Hall).
  exists chunks, found.
  split; [reflexivity | split; [exact Ef | split; [ | auto]]].
  vm_compute in Ef. injection Ef as <-. discriminate.
Defined.

(** X22: a module without a class, function or decorated definition at its
    top level gives no chunk: [chunk_source_code] returns the empty list,
    unless an import or an expression statement of the module lacks the
    children that [build_import_map] and [collect_module_variables] index. *)
Theorem chunk_source_code_without_definitions
    (sent_tokenize : string -> list string)
    (tokenize_text : string -> string -> list string)
    (set_iter : list string -> list string)
    (parse_python : string -> SyntaxNode) (content : string)
    (chunk_size : Z) :
  (forall child,
      In child (s_children (parse_python content)) ->
      has_type ["class_definition"; "function_definition";
                "decorated_definition"]%string child = false) ->
  chunk_source_code sent_tokenize tokenize_text set_iter parse_python
    content chunk_size
  = and_then (build_import_map (collect_imports (parse_python content)))
      (fun _ =>
         and_then (collect_module_variables (parse_python content))
           (fun _ => inr []))
  /\ (forall chunks,
         chunk_source_code sent_tokenize tokenize_text set_iter parse_python
           content chunk_size = inr chunks ->
         chunks = []).
Proof.
  intros H.
  assert (E : chunk_source_code sent_tokenize tokenize_text set_iter
                parse_python content chunk_size
              = and_then
                  (build_import_map (collect_imports (parse_python content)))
                  (fun _ =>
                     and_then
                       (collect_module_variables (parse_python content))
                       (fun _ => inr []))).
  { unfold chunk_source_code.
    destruct (build_import_map _) as [e | import_map]; [reflexivity | ].
    cbn [and_then].
    destruct (collect_module_variables _) as [e | module_variables];
      [reflexivity | ].
    cbn [and_then]. unfold process_root.
    now rewrite process_root_children_none. }
  split; [exact E | ].
  intros chunks. rewrite E.
  destruct (build_import_map _) as [e | import_map]; [discriminate | ].
  cbn [and_then].
  destruct (collect_module_variables _) as [e | module_variables];
    [discriminate | ].
  cbn [and_then]. now intros [= <-].
Qed.

Lemma chunk_source_code_without_definitions_witness :
  chunk_source_code Fixtures.stop_sentences Fixtures.chars_tokenizer
    Fixtures3.insertion_order (fun _ => Fixtures3.script_node)
    "import numpy as np" 300
  = inr [].
Proof.
  rewrite (proj1 (chunk_source_code_without_definitions
                    Fixtures.stop_sentences Fixtures.chars_tokenizer
                    Fixtures3.insertion_order
                    (fun _ => Fixtures3.script_node)
                    "import numpy as np" 300
                    ltac:(intros child [<- | [<- | [<- | []]]];
                          reflexivity))).
  reflexivity.
Defined.

(** X23: a chunk without context whose definition has at most one line
    does not pass the filter of [chunk_source_code]: when the walk gives
    only such chunks, the result is empty. *)
Theorem chunk_source_code_drops_one_line_definitions
    (sent_tokenize : string -> list string)
    (tokenize_text : string -> string -> list string)
    (set_iter : list string -> list string)
    (parse_python : string -> SyntaxNode) (content : string)
    (chunk_size : Z) (import_map : dict) (module_variables : list string)
    (chunks : list CodeChunk) :
  build_import_map (collect_imports (parse_python content)) = inr import_map ->
  collect_module_variables (parse_python content) = inr module_variables ->
  process_root set_iter import_map module_variables (parse_python content)
  = inr chunks ->
  Forall (fun c =>
            cc_context c = None
            /\ (List.length (splitlines (strip (cc_definition c))) <= 1)%nat)
    chunks ->
  chunk_source_code sent_tokenize tokenize_text set_iter parse_python
    content chunk_size = inr [].
Proof.
  intros Ei Ev Er Hall. unfold chunk_source_code.
  rewrite Ei. cbn [and_then]. rewrite Ev. cbn [and_then].
  rewrite Er. cbn [and_then].
  replace (filter _ (convert_chunks_to_strs chunks)) with (@nil string);
    [reflexivity | ].
  symmetry. unfold convert_chunks_to_strs. clear Er.
  induction Hall as [| c rest [Hc Hl] _ IH]; [reflexivity | ].
  cbn [map filter]. rewrite IH.
  unfold convert_chunk_to_str. rewrite Hc.
  replace (if String.eqb (cc_type c) "class"
           then drop_last_4 EmptyString else EmptyString)
    with EmptyString
    by (destruct (String.eqb (cc_type c) "class"); reflexivity).
  cbn [append].
  destruct (Nat.ltb_spec 1 (List.length (splitlines (strip (cc_definition c)))));
    [lia | reflexivity].
Qed.

Lemma chunk_source_code_drops_one_line_definitions_witness :
  chunk_source_code Fixtures.stop_sentences Fixtures.chars_tokenizer
    Fixtures3.insertion_order (fun _ => Fixtures3.one_liner_node)
    "def one(): return 1" 300
  = inr [].
Proof.
  apply (chunk_source_code_drops_one_line_definitions
           Fixtures.stop_sentences Fixtures.chars_tokenizer
           Fixtures3.insertion_order (fun _ => Fixtures3.one_liner_node)
           "def one(): return 1" 300 [] []
           [mkCodeChunk "function" "one" "def one(): return 1" None]).
  - reflexivity.
  - reflexivity.
  - reflexivity.
  - constructor; [ | constructor]. split; [reflexivity | ].
    vm_compute. lia.
Defined.

(** X21: the chunks of a class.  [process_class] returns the class chunk
    followed by the chunks of the methods, which are the function
    definitions of the class body, decorated or not, that are not named
    [__init__], in source order.  The definition of the class chunk is a
    line [class <name>:] made from the name alone, one indented line per
    attribute statement, and, when the body has a constructor, two empty
    lines and the indented text of the last definition named [__init__]. *)
Theorem process_class_skeleton (set_iter : list string -> list string)
    (import_map : dict) (module_variables : list string)
    (node : SyntaxNode) (context : Context) (chunks : list CodeChunk) :
  process_class set_iter import_map module_variables node context
  = inr chunks ->
  exists name_node class_body own methods,
    child_by_field_name "name" node = Some name_node
    /\ child_by_field_name "body" node = Some class_body
    /\ chunks = own :: methods
    /\ process_methods set_iter import_map module_variables
         (filter is_other_method (s_children class_body))
         (mkContext (Some (s_text name_node)) (parent_function context))
       = inr methods
    /\ cc_type own = "class"%string
    /\ cc_name own = s_text name_node
    /\ cc_definition own
       = (String.concat nl
            (("class " ++ s_text name_node ++ ":")
             :: map (append "    ")
                  (flat_map attribute_of (s_children class_body)))
          ++ match last_of (filter is_init (s_children class_body)) with
             | Some init => nl ++ nl ++ nl ++ "    " ++ s_text init
             | None => EmptyString
             end)%string.
Proof.
  unfold CodeChunker.process_class.
  destruct (child_by_field_name "name" node) as [name_node |];
    [ | discriminate].
  cbn [attribute and_then].
  destruct (child_by_field_name "body" node) as [class_body |];
    [ | discriminate].
  cbn [attribute and_then].
  destruct (process_class_children _ _) as [e | v] eqn:Ev; [discriminate | ].
  cbn [and_then].
  destruct (process_methods _ _ _ (other_methods v) _)
    as [e | methods] eqn:Em; [discriminate | ].
  cbn [and_then]. cbv zeta. rewrite skeleton_lines. intros [= <-].
  apply process_class_children_spec in Ev.
  cbn [class_attributes other_methods init_method app] in Ev.
  destruct Ev as (Ha & Ho & Hi).
  exists name_node, class_body. eexists _, methods.
  split; [reflexivity | split; [reflexivity | split; [reflexivity | ]]].
  rewrite <- Ho. split; [exact Em | ].
  cbn [cc_type cc_name cc_definition].
  split; [reflexivity | split; [reflexivity | ]].
  rewrite Hi, Ha.
  destruct (last_of (filter is_init (s_children class_body))); reflexivity.
Qed.

Lemma process_class_skeleton_witness :
  exists own methods,
    process_class Fixtures3.insertion_order Fixtures3.module_imports
      Fixtures3.module_vars Fixtures3.class_shape (mkContext None None)
    = inr (own :: methods)
    /\ cc_definition own
       = String.concat nl
           ["class Shape:"; "    sides = LIMIT"; EmptyString; EmptyString;
            "    def __init__(self):"; "        self.n = 0"]%string
    /\ map cc_name methods = ["area"; "half"; "name"]%string.
Proof.
  destruct (process_class Fixtures3.insertion_order Fixtures3.module_imports
              Fixtures3.module_vars Fixtures3.class_shape
              (mkContext None None)) as [e | chunks] eqn:E;
    [vm_compute in E; discriminate | ].
  destruct (process_class_skeleton Fixtures3.insertion_order
              Fixtures3.module_imports Fixtures3.module_vars
              Fixtures3.class_shape (mkContext None None) chunks E)
    as (name_node & class_body & own & methods & Hn & Hb & -> & Hm & _ & _
        & Hd).
  exists own, methods. split; [reflexivity | ].
  vm_compute in Hn. injection Hn as <-.
  vm_compute in Hb. injection Hb as <-.
  split.
  - rewrite Hd. vm_compute. reflexivity.
  - vm_compute in Hm. injection Hm as <-. reflexivity.
Defined.

(* ------------------------------------------------------------------ *)
(** * Properties of [SearchDocumentation] *)

(** X24: [SearchDocumentation.run] asks for [top_k = 2 * num_results] and
    [top_n = num_results]; both are given and they differ unless
    [num_results] is 0, so the retriever falls back to its defaults.  For
    every [num_results] other than 0 the tool searches 10 candidates and
    returns the 5 the reranker keeps: [num_results] has no effect.  With
    [num_results = 0] it searches 0 candidates and reranks to 0. *)
Theorem search_documentation_ignores_num_results
    (search_engine : string -> pyint -> M (list SearchResult))
    (reranker : string -> list SearchResult -> pyint -> M (list SearchResult))
    (format_doc : SearchResult -> result string)
    (search_query : string) (num_results : Z) (log : list event) :
  SearchDocumentation_run search_engine reranker format_doc search_query
    num_results log
  = (let breadth := if num_results =? 0 then Some 0 else Some 10 in
     let final := if num_results =? 0 then Some 0 else Some 5 in
     retrievals <- search_engine search_query breadth ;;
     results <- reranker search_query retrievals final ;;
     formatted <- lift (format_docs format_doc results) ;;
     ret (String.concat (String "010" (String "010" EmptyString)) formatted))
      log.
Proof.
  unfold SearchDocumentation_run.
  assert (Hd : RetrieverWithReranker_derive (Some (num_results * 2))
                 (Some num_results)
               = inr (if num_results =? 0 then Some 0 else Some 10,
                      if num_results =? 0 then Some 0 else Some 5)).
  { destruct (Z.eqb_spec num_results 0) as [-> | Hn]; [reflexivity | ].
    apply derive_both_differ; lia. }
  cbv zeta. unfold bind at 1 4.
  rewrite (RetrieverWithReranker_invoke_run search_engine reranker
             search_query _ _ _ _ log Hd).
  unfold bind.
  destruct (search_engine search_query _ log) as [[e | retrievals] log1];
    [reflexivity | ].
  destruct (reranker search_query retrievals _ log1) as [[e | results] log2];
    reflexivity.
Qed.

(* ------------------------------------------------------------------ *)
(** * Properties of [VectorStoreSearchEngine.fit] *)

Section FitFacts.

Variable embed_provider : nat -> list string -> string -> result (list vec).
Variable str_int : Z -> string.
Variable embed : string -> vec.

Hypothesis provider_answers :
  forall n inputs, embed_provider n inputs "passage"%string = inr (map embed inputs).
Hypothesis one_dimension :
  forall t t', List.length (embed t) = List.length (embed t').

(** With a provider that answers, [batch_embed] returns one row per
    document. *)
Lemma batch_embed_answered (docs : list string) (log : list event) :
  docs <> [] ->
  exists log',
    batch_embed embed_provider docs "passage" 25 log
    = (inr (map embed docs), log').
Proof.
  intros Hne.
  rewrite (batch_embed_limited embed_provider embed docs "passage" 25
             (fun _ => false) (fun _ => Exn ProviderError "none"));
    [ | lia | intros; apply provider_answers | discriminate].
  rewrite kept_rows_unlimited by reflexivity.
  rewrite concat_batches, skipn_O.
  rewrite firstn_all2 by (apply batch_count_covers; lia).
  rewrite np_stack_uniform.
  - eexists. reflexivity.
  - destruct docs; [congruence | discriminate].
  - intros r r' Hr Hr'. apply in_map_iff in Hr, Hr'.
    destruct Hr as (t & <- & _). destruct Hr' as (t' & <- & _).
    apply one_dimension.
Qed.

Lemma numbered_shift (start : Z) (k n : nat) (l : list Doc) :
  map (fun '(idx, doc) => (str_int (start + idx), embed (text doc), doc))
    (combine (map Z.of_nat (seq (S k) n)) l)
  = map (fun '(idx, doc) =>
           (str_int (start + 1 + idx), embed (text doc), doc))
      (combine (map Z.of_nat (seq k n)) l).
Proof.
  revert k l. induction n as [| n IH]; intros k l; [reflexivity | ].
  destruct l as [| d l]; [reflexivity | ].
  cbn [seq map combine]. rewrite IH. do 4 f_equal. lia.
Qed.

Lemma numbered_cons (start : Z) (d : Doc) (l : list Doc) :
  numbered str_int embed start (d :: l)
  = (str_int start, embed (text d), d)
    :: numbered str_int embed (start + 1) l.
Proof.
  unfold numbered, enumerate. cbn [List.length seq map combine].
  rewrite numbered_shift. do 4 f_equal. lia.
Qed.

Lemma numbered_app (start : Z) (l1 l2 : list Doc) :
  numbered str_int embed start (l1 ++ l2)
  = (numbered str_int embed start l1
     ++ numbered str_int embed (start + Z.of_nat (List.length l1)) l2)%list.
Proof.
  revert start. induction l1 as [| d l1 IH]; intros start.
  - cbn [app List.length]. now rewrite Z.add_0_r.
  - cbn [app List.length]. rewrite !numbered_cons, IH.
    cbn [app]. do 3 f_equal. lia.
Qed.

Lemma make_vectors_numbered (i : Z) (batch : list Doc) :
  make_vectors str_int i (map embed (map text batch)) batch
  = numbered str_int embed i batch.
Proof.
  unfold make_vectors, numbered, enumerate.
  rewrite length_combine, !length_map, Nat.min_id.
  generalize (map Z.of_nat (seq 0 (List.length batch))) as indices.
  induction batch as [| d batch IH]; intros indices.
  - destruct indices; reflexivity.
  - destruct indices as [| idx indices]; [reflexivity | ].
    cbn [map combine]. now rewrite IH.
Qed.

Lemma slice_corpus_batch (data : list Doc) (a : nat) :
  slice data (Z.of_nat a * 50) (Z.of_nat a * 50 + 50) = corpus_batch data a.
Proof.
  unfold slice, corpus_batch. f_equal; [f_equal; lia | f_equal; lia].
Qed.

Variable index_upsert : list (string * vec * Doc) -> result unit.
Hypothesis store_accepts : forall vectors, index_upsert vectors = inr tt.

Lemma fit_batches_answered (data : list Doc) (m a : nat) (s : fit_state) :
  (forall j, (a <= j < a + m)%nat -> corpus_batch data j <> []) ->
  exists log',
    fit_batches embed_provider str_int index_upsert data
      (map (fun j => Z.of_nat j * 50) (seq a m)) s
    = (inr tt,
       mkFitState (fit_self s)
         (fit_calls s
          ++ map (fun j => Upsert (numbered str_int embed (Z.of_nat j * 50)
                                     (corpus_batch data j)))
               (seq a m))
         log').
Proof.
  revert a s. induction m as [| m IH]; intros a s Hne.
  - exists (fit_log s). cbn. rewrite app_nil_r. now destruct s.
  - cbn [seq map fit_batches]. rewrite slice_corpus_batch.
    destruct (batch_embed_answered (map text (corpus_batch data a))
                (fit_log s)) as (log1 & E1).
    { intros H. apply map_eq_nil in H. revert H. apply Hne. lia. }
    rewrite E1, make_vectors_numbered, store_accepts.
    destruct (IH (S a)
                (mkFitState (fit_self s)
                   (fit_calls s
                    ++ [Upsert (numbered str_int embed (Z.of_nat a * 50)
                                  (corpus_batch data a))]) log1))
      as (log' & E).
    { intros j Hj. apply Hne. lia. }
    exists log'. rewrite E. cbn [fit_self fit_calls].
    now rewrite <- app_assoc.
Qed.

Lemma corpus_batches_numbered (data : list Doc) (m a : nat) :
  List.concat
    (map (fun j => numbered str_int embed (Z.of_nat j * 50)
                     (corpus_batch data j)) (seq a m))
  = numbered str_int embed (Z.of_nat a * 50)
      (firstn (m * 50) (skipn (a * 50) data)).
Proof.
  revert a. induction m as [| m IH]; intros a; [reflexivity | ].
  cbn [seq map List.concat]. rewrite IH.
  replace (S m * 50)%nat with (50 + m * 50)%nat by lia.
  rewrite firstn_add_skipn, numbered_app, skipn_skipn.
  unfold corpus_batch. f_equal.
  replace (50 + a * 50)%nat with (S a * 50)%nat by lia.
  destruct (Nat.le_gt_cases 50 (List.length (skipn (a * 50) data)))
    as [Hfull | Hshort].
  - rewrite length_firstn, Nat.min_l by exact Hfull.
    f_equal. lia.
  - rewrite length_skipn in Hshort.
    rewrite (skipn_all2 (n := S a * 50)) by lia.
    now rewrite firstn_nil.
Qed.

Lemma corpus_batch_nonempty (data : list Doc) (j : nat) :
  (j < Z.to_nat ((Z.of_nat (List.length data) + 50 - 1) / 50))%nat ->
  corpus_batch data j <> [].
Proof.
  intros Hj.
  assert (Hlt : (j * 50 < List.length data)%nat).
  { assert (H : Z.of_nat j < (Z.of_nat (List.length data) + 50 - 1) / 50).
    { revert Hj.
      generalize ((Z.of_nat (List.length data) + 50 - 1) / 50). lia. }
    destruct (Z.lt_ge_cases (Z.of_nat j * 50) (Z.of_nat (List.length data)))
      as [Hlt | Hge]; [lia | ].
    assert ((Z.of_nat (List.length data) + 50 - 1) / 50 < Z.of_nat j + 1)
      by (apply Z.div_lt_upper_bound; lia).
    lia. }
  unfold corpus_batch. intros H.
  apply (f_equal (@List.length Doc)) in H.
  rewrite length_firstn, length_skipn in H. cbn [List.length] in H. lia.
Qed.

End FitFacts.

(** X25: [VectorStoreSearchEngine.fit] with a provider that answers and a
    store that accepts.  The index is created when its name is not listed;
    the corpus is upserted in batches of at most 50 vectors, none of them
    empty; together the batches hold one vector per document, in corpus
    order, each with the embedding of the document's text, the document as
    metadata, and as id the decimal string of the document's position in
    the whole corpus: the ids depend on the positions alone, not on the
    content. *)
Theorem vector_store_fit_ids
    (embed_provider : nat -> list string -> string -> result (list vec))
    (str_int : Z -> string) (list_indexes_names : result (list string))
    (create_index : string -> Z -> result unit)
    (index_upsert : list (string * vec * Doc) -> result unit)
    (embed : string -> vec) (index_name : string) (dimension : Z)
    (self : VectorStoreSearchEngine) (data : list Doc) (log : list event)
    (names : list string) :
  (forall n inputs,
      embed_provider n inputs "passage"%string = inr (map embed inputs)) ->
  (forall t t', List.length (embed t) = List.length (embed t')) ->
  (forall vectors, index_upsert vectors = inr tt) ->
  list_indexes_names = inr names ->
  (existsb (String.eqb index_name) names = false ->
   create_index index_name dimension = inr tt) ->
  exists log' batches,
    VectorStoreSearchEngine_fit embed_provider str_int list_indexes_names
      create_index index_upsert index_name dimension self data log
    = (inr tt,
       mkFitState (mkStore (Some tt))
         ((if existsb (String.eqb index_name) names then []
           else [CreateIndex index_name dimension])
          ++ map Upsert batches) log')
    /\ List.concat batches = numbered str_int embed 0 data
    /\ map (fun v => fst (fst v)) (List.concat batches)
       = map (fun j => str_int (Z.of_nat j)) (seq 0 (List.length data))
    /\ Forall (fun b => b <> [] /\ (List.length b <= 50)%nat) batches.
Proof.
  intros Hanswer Hdim Haccept Hnames Hcreate.
  set (m := Z.to_nat ((Z.of_nat (List.length data) + 50 - 1) / 50)).
  set (batches := map (fun j => numbered str_int embed (Z.of_nat j * 50)
                                  (corpus_batch data j)) (seq 0 m)).
  assert (Hall : List.concat batches = numbered str_int embed 0 data).
  { unfold batches. rewrite corpus_batches_numbered, skipn_O.
    rewrite firstn_all2; [reflexivity | ].
    pose proof (batch_count_covers (map text data) 50 ltac:(lia)) as H.
    rewrite length_map in H. exact H. }
  destruct (fit_batches_answered embed_provider str_int embed Hanswer Hdim
              index_upsert Haccept data m 0
              (mkFitState (mkStore (Some tt))
                 (if negb (existsb (String.eqb index_name) names)
                  then [CreateIndex index_name dimension] else []) log))
    as (log' & E).
  { intros j Hj. apply corpus_batch_nonempty. fold m. lia. }
  exists log', batches. split; [ | split; [exact Hall | split]].
  - unfold VectorStoreSearchEngine_fit. rewrite Hnames.
    cbv zeta. unfold range0.
    change (50 =? 0) with false. change (50 <? 0) with false. cbv iota.
    fold m. rewrite E. cbn [fit_self fit_calls].
    unfold batches. rewrite map_map.
    destruct (existsb (String.eqb index_name) names); cbn [negb];
      [reflexivity | ].
    rewrite Hcreate by reflexivity. reflexivity.
  - rewrite Hall. unfold numbered, enumerate.
    assert (H : forall (indices : list Z) (l : list Doc),
               List.length indices = List.length l ->
               map (fun v : string * vec * Doc => fst (fst v))
                 (map (fun '(idx, doc) =>
                         (str_int (0 + idx), embed (text doc), doc))
                    (combine indices l))
               = map str_int indices).
    { induction indices as [| idx indices IH]; intros [| d l] Hl;
        try discriminate; [reflexivity | ].
      cbn [combine map fst]. rewrite IH by (cbn in Hl; lia).
      reflexivity. }
    rewrite H by now rewrite length_map, length_seq.
    now rewrite map_map.
  - unfold batches. apply Forall_forall. intros b Hb.
    apply in_map_iff in Hb. destruct Hb as (j & <- & Hj).
    apply in_seq in Hj.
    pose proof (corpus_batch_nonempty data j ltac:(fold m; lia)) as Hne.
    unfold numbered, enumerate.
    rewrite length_map, length_combine, length_map, length_seq, Nat.min_id.
    split.
    + destruct (corpus_batch data j) as [| d l]; [congruence | discriminate].
    + unfold corpus_batch. rewrite length_firstn. lia.
Qed.

Lemma vector_store_fit_ids_witness :
  exists log' batches,
    VectorStoreSearchEngine_fit Fixtures.steady_provider Fixtures4.decimal
      (inr []) (fun _ _ => inr tt) (fun _ => inr tt) "finance-docs" 1024
      VectorStoreSearchEngine_init Fixtures4.long_corpus []
    = (inr tt,
       mkFitState (mkStore (Some tt))
         (CreateIndex "finance-docs" 1024 :: map Upsert batches) log')
    /\ map (fun v => fst (fst v)) (List.concat batches)
       = map (fun j => Fixtures4.decimal (Z.of_nat j)) (seq 0 52).
Proof.
  destruct (vector_store_fit_ids Fixtures.steady_provider Fixtures4.decimal
              (inr []) (fun _ _ => inr tt) (fun _ => inr tt)
              (fun t => [Z.of_nat (String.length t) # 1])
              "finance-docs"%string 1024 VectorStoreSearchEngine_init
              Fixtures4.long_corpus [] [])
    as (log' & batches & E & _ & Hids & _);
    try reflexivity.
  exists log', batches. split; [exact E | exact Hids].
Defined.

(* ------------------------------------------------------------------ *)
(** * Properties of [convert_contents_to_text] *)

Section PdfTextFacts.

Local Open Scope string_scope.

Lemma is_newline_space (c : ascii) : is_newline c = true -> is_space c = true.
Proof.
  unfold is_newline. intros H. apply Ascii.eqb_eq in H. now subst.
Qed.

Lemma collapse_whitespace_in_run (s : string) :
  head_space (collapse_whitespace true s) = false.
Proof.
  induction s as [| c s IH]; [reflexivity | ].
  cbn [collapse_whitespace]. destruct (is_space c) eqn:E; [exact IH | ].
  cbn [head_space]. exact E.
Qed.

Lemma collapse_whitespace_single (in_run : bool) (s : string) :
  single_spaced (collapse_whitespace in_run s) = true.
Proof.
  revert in_run. induction s as [| c s IH]; intros in_run; [reflexivity | ].
  cbn [collapse_whitespace]. destruct (is_space c) eqn:E.
  - destruct in_run; [apply IH | ].
    destruct s as [| c' s']; [cbn; now rewrite andb_false_r | ].
    destruct (is_space c') eqn:E'.
    + cbn [single_spaced]. rewrite collapse_whitespace_in_run, IH.
      now rewrite andb_false_r.
    + cbn [single_spaced]. rewrite IH.
      cbn [collapse_whitespace]. rewrite E'. cbn [head_space].
      rewrite E'. now rewrite andb_false_r.
  - cbn [single_spaced]. now rewrite E, IH.
Qed.

Lemma collapse_newlines_single (s : string) :
  single_spaced s = true -> collapse_newlines false s = s.
Proof.
  induction s as [| c s IH]; [reflexivity | ].
  cbn [single_spaced collapse_newlines]. intros H.
  apply andb_true_iff in H. destruct H as [Hc Hs].
  rewrite (IH Hs).
  destruct (is_newline c) eqn:En; [ | reflexivity].
  destruct s as [| c1 [| c2 s']]; try reflexivity.
  destruct (is_newline c1) eqn:E1; [ | reflexivity].
  apply is_newline_space in En, E1. cbn [head_space] in Hc.
  now rewrite En, E1 in Hc.
Qed.

Lemma lstrip_single (s : string) :
  single_spaced s = true -> single_spaced (lstrip s) = true.
Proof.
  induction s as [| c s IH]; [reflexivity | ].
  intros H. cbn [lstrip]. destruct (is_space c); [ | exact H].
  apply IH. cbn [single_spaced] in H. apply andb_true_iff in H. apply H.
Qed.

Lemma lstrip_head (s : string) : head_space (lstrip s) = false.
Proof.
  induction s as [| c s IH]; [reflexivity | ].
  cbn [lstrip]. destruct (is_space c) eqn:E; [exact IH | ].
  cbn [head_space]. exact E.
Qed.

Lemma rstrip_head (s : string) :
  rstrip s = EmptyString \/ head_space (rstrip s) = head_space s.
Proof.
  destruct s as [| c s]; [now left | ].
  cbn [rstrip]. destruct (rstrip s) as [| c' r].
  - destruct (is_space c); [now left | now right].
  - now right.
Qed.

Lemma rstrip_single (s : string) :
  single_spaced s = true -> single_spaced (rstrip s) = true.
Proof.
  induction s as [| c s IH]; [reflexivity | ].
  cbn [single_spaced]. intros H.
  apply andb_true_iff in H. destruct H as [Hc Hs].
  specialize (IH Hs). cbn [rstrip].
  destruct (rstrip_head s) as [E | E].
  - rewrite E. destruct (is_space c) eqn:Ec; [reflexivity | ].
    cbn [single_spaced head_space]. now rewrite Ec.
  - destruct (rstrip s) as [| c' r] eqn:Er.
    + destruct (is_space c) eqn:Ec; [reflexivity | ].
      cbn [single_spaced head_space]. now rewrite Ec.
    + cbn [single_spaced]. cbn [single_spaced] in IH.
      rewrite IH, E, Hc. reflexivity.
Qed.

Lemma strip_single (s : string) :
  single_spaced s = true ->
  single_spaced (strip s) = true /\ head_space (strip s) = false.
Proof.
  intros H. unfold strip. split.
  - now apply rstrip_single, lstrip_single.
  - destruct (rstrip_head (lstrip s)) as [E | E]; rewrite E;
      [reflexivity | apply lstrip_head].
Qed.

End PdfTextFacts.

(** X26: the text [convert_contents_to_text] makes of a pdf chunk holds no
    two white-space characters side by side and does not start with white
    space: every run of two or more white-space characters, line feeds
    included, has become one space, so no empty line survives.  The
    substitution for three or more line feeds that follows can never change
    the text. *)
Theorem converted_pdf_text_is_single_spaced
    (markdown_text : string -> string) (contents : string) :
  let converted := convert_contents_to_text markdown_text contents "pdf" in
  single_spaced converted = true
  /\ head_space converted = false
  /\ (forall text,
         collapse_newlines false (collapse_whitespace false text)
         = collapse_whitespace false text).
Proof.
  assert (Hdead : forall text,
             collapse_newlines false (collapse_whitespace false text)
             = collapse_whitespace false text).
  { intros text. apply collapse_newlines_single,
      collapse_whitespace_single. }
  cbv zeta. unfold convert_contents_to_text.
  change (String.eqb "pdf" "pdf") with true. cbv iota.
  rewrite Hdead.
  destruct (strip_single _ (collapse_whitespace_single false
              (digit_commas
                 (dollar_spacing false
                    (remove_headers contents)))))
    as [H1 H2].
  auto.
Qed.

Lemma break_line_length (s line after : string) :
  break_line s = (line, Some after) ->
  String.length s = S (String.length line + String.length after).
Proof.
  revert line. induction s as [| c s IH]; intros line; [discriminate | ].
  cbn [break_line]. destruct (is_newline c).
  - intros [= <- <-]. reflexivity.
  - destruct (break_line s) as [line' after'] eqn:E.
    intros [= <- ->]. cbn [String.length]. now rewrite (IH line' eq_refl).
Qed.

(** Enough fuel is as good as any more. *)
Lemma drop_headers_fuel (f f' : nat) (s : string) :
  (String.length s <= f)%nat -> (String.length s <= f')%nat ->
  drop_headers f s = drop_headers f' s.
Proof.
  revert f' s. induction f as [| f IH]; intros f' s Hf Hf'.
  - destruct s; [now destruct f' | cbn in Hf; lia].
  - destruct f' as [| f'];
      [destruct s; [reflexivity | cbn in Hf'; lia] | ].
    destruct s as [| c rest]; [reflexivity | ].
    cbn [String.length] in Hf, Hf'. cbn [drop_headers].
    rewrite (IH f' rest) by lia.
    destruct (is_newline c); [ | reflexivity].
    destruct (break_line rest) as [line [after |]] eqn:E; [ | reflexivity].
    apply break_line_length in E.
    rewrite (IH f' after) by lia. reflexivity.
Qed.

Lemma break_line_one_line (line rest : string) :
  one_line line ->
  break_line (line ++ String "010" rest) = (line, Some rest).
Proof.
  unfold one_line. induction line as [| c line IH]; intros H;
    [reflexivity | ].
  cbn [list_ascii_of_string forallb] in H.
  apply andb_true_iff in H. destruct H as [Hc Hl].
  cbn [append break_line]. apply negb_true_iff in Hc.
  now rewrite Hc, (IH Hl).
Qed.

Lemma length_append (a b : string) :
  String.length (a ++ b) = (String.length a + String.length b)%nat.
Proof. induction a as [| c a IH]; cbn; [reflexivity | now rewrite IH]. Qed.

(** A stretch without line feed is copied. *)
Lemma remove_headers_one_line (line s : string) :
  one_line line ->
  remove_headers (line ++ s) = (line ++ remove_headers s)%string.
Proof.
  unfold one_line, remove_headers.
  induction line as [| c line IH]; intros H; [reflexivity | ].
  cbn [list_ascii_of_string forallb] in H.
  apply andb_true_iff in H. destruct H as [Hc Hl].
  apply negb_true_iff in Hc.
  cbn [append String.length drop_headers]. rewrite Hc.
  now rewrite (IH Hl).
Qed.

(** X27: the substitution that removes page-header lines consumes the line
    feed that ends the header, so the line after a removed header line is
    never tested: it stays in the text, whatever it holds, another page
    header included. *)
Theorem header_after_removed_header_stays (header next rest : string) :
  one_line header -> one_line next ->
  has_header header = true ->
  remove_headers (String "010" (header ++ String "010" (next ++ rest)))
  = String "010" (next ++ remove_headers rest).
Proof.
  intros Hh Hn Hheader. unfold remove_headers at 1.
  cbn [String.length drop_headers].
  change (is_newline "010") with true. cbv iota.
  rewrite (break_line_one_line header (next ++ rest) Hh), Hheader.
  f_equal.
  rewrite <- (remove_headers_one_line next rest Hn).
  unfold remove_headers. apply drop_headers_fuel; [ | lia].
  rewrite !length_append. cbn [String.length]. rewrite length_append. lia.
Qed.

Lemma header_after_removed_header_stays_witness :
  remove_headers
    (String "010"
       ("Apple Inc. | Q1 2024 Form 10-Q | 1"
        ++ String "010" ("Apple Inc. | Q2 2024 Form 10-Q | 2"
                         ++ String "010" "Net sales")))
  = String "010" ("Apple Inc. | Q2 2024 Form 10-Q | 2"
                  ++ String "010" "Net sales").
Proof.
  rewrite (header_after_removed_header_stays
             "Apple Inc. | Q1 2024 Form 10-Q | 1"
             "Apple Inc. | Q2 2024 Form 10-Q | 2"
             (String "010" "Net sales") eq_refl eq_refl eq_refl).
  reflexivity.
Defined.
